(** * ai_test_rag: chunking, retrieval scoring, extraction and routing

    A shallow embedding of the retrieval-and-routing pipeline of the
    repository ([app/ingestion.py], [app/vectordb.py], [app/schemas.py],
    [app/tools/qa_tool.py], [app/tools/issue_summary_tool.py],
    [app/tools/router_agent.py], [app/config.py], [app/llm_client.py],
    the handlers of [app/api/routes.py]) and the properties its
    specification states about it, followed by further properties read
    off the code.

    Python values are modelled as the code has them: a [str] is a sequence
    of Unicode code points, a [dict] is a finite map, a [float] is an
    IEEE-754 binary64 number, a raised exception is an explicit outcome,
    and the calls to the language model and to the vector store are
    recorded in an explicit world.

    Part I is the embedding, Part II the properties. *)

From Stdlib Require Import ZArith List Ascii String Floats Lia.
From Stdlib Require Import DecimalString DecimalPos DecimalZ.
From stdpp Require Import gmap list fin_maps.

Set Warnings "-register-all,-inexact-float".
Local Open Scope Z_scope.

(** * Part I: the embedding *)

(** ** Python strings *)

(** A [str] is a list of code points; [len] is [length]. *)
Definition pystr := list N.

Definition bytes_of_string (s : string) : list N :=
  N_of_ascii <$> list_ascii_of_string s.

(** Source literals are UTF-8 encoded; [utf8_decode] recovers the code
    points (the identity on ASCII). *)
Fixpoint utf8_decode (bs : list N) : pystr :=
  match bs with
  | [] => []
  | b :: rest =>
      if (b <? 128)%N then b :: utf8_decode rest
      else if (b <? 224)%N then
        match rest with
        | c1 :: r => ((b - 192) * 64 + (c1 - 128))%N :: utf8_decode r
        | _ => []
        end
      else if (b <? 240)%N then
        match rest with
        | c1 :: c2 :: r =>
            ((b - 224) * 4096 + (c1 - 128) * 64 + (c2 - 128))%N :: utf8_decode r
        | _ => []
        end
      else
        match rest with
        | c1 :: c2 :: c3 :: r =>
            ((b - 240) * 262144 + (c1 - 128) * 4096 + (c2 - 128) * 64
             + (c3 - 128))%N :: utf8_decode r
        | _ => []
        end
  end.

(** A string literal of the source. *)
Definition py (s : string) : pystr := utf8_decode (bytes_of_string s).
Arguments py : simpl never.

(** [str(n)] and [f"{n}"] for an [int]. *)
Definition str_of_int (z : Z) : pystr := py (NilZero.string_of_int (Z.to_int z)).

(** [Py_UNICODE_ISSPACE]: the characters [str.strip()] removes. *)
Definition isspace (c : N) : bool :=
  ((9 <=? c) && (c <=? 13) || (28 <=? c) && (c <=? 32)
   || (c =? 133) || (c =? 160) || (c =? 5760)
   || (8192 <=? c) && (c <=? 8202)
   || (c =? 8232) || (c =? 8233) || (c =? 8239) || (c =? 8287)
   || (c =? 12288))%N.

Fixpoint lstrip (s : pystr) : pystr :=
  match s with
  | [] => []
  | c :: s' => if isspace c then lstrip s' else s
  end.

Definition rstrip (s : pystr) : pystr := reverse (lstrip (reverse s)).

(** [s.strip()] *)
Definition strip (s : pystr) : pystr := rstrip (lstrip s).

(** [s.startswith(p)] *)
Fixpoint startswith (p s : pystr) : bool :=
  match p, s with
  | [], _ => true
  | a :: p', b :: s' => (a =? b)%N && startswith p' s'
  | _ :: _, [] => false
  end.

(** [sub in s] for two strings. *)
Fixpoint contains (sub s : pystr) : bool :=
  startswith sub s || match s with [] => false | _ :: s' => contains sub s' end.

(** The scan of [s.split(sep)] for a non-empty [sep]: [skip] counts the
    characters of a separator still to be passed over, [cur] is the piece
    being read, most recent character first. *)
Fixpoint split_scan (sep s : pystr) (skip : nat) (cur : pystr) : list pystr :=
  match s with
  | [] => [reverse cur]
  | c :: s' =>
      match skip with
      | S k => split_scan sep s' k cur
      | O =>
          if startswith sep s
          then reverse cur :: split_scan sep s' (length sep - 1) []
          else split_scan sep s' 0 (c :: cur)
      end
  end.

(** [s.split(sep)], [sep] non-empty. *)
Definition split (sep s : pystr) : list pystr := split_scan sep s 0 [].

(** [sep.join(parts)] *)
Fixpoint join (sep : pystr) (parts : list pystr) : pystr :=
  match parts with
  | [] => []
  | [p] => p
  | p :: rest => p ++ sep ++ join sep rest
  end.

(** The separator ["\n\n"] between paragraphs and between context blocks. *)
Definition blank_line : pystr := [10; 10]%N.

(** [s.replace(old, new)], [old] non-empty: every non-overlapping
    occurrence, left to right. *)
Definition replace (old new s : pystr) : pystr := join new (split old s).

(** [s[i:j]] with Python's clamping of the two bounds. *)
Definition slice_bound (n : nat) (k : Z) : nat :=
  if k <? 0 then Z.to_nat (Z.max (k + Z.of_nat n) 0)
  else Nat.min (Z.to_nat k) n.

Definition slice (s : pystr) (i j : Z) : pystr :=
  let lo := slice_bound (length s) i in
  let hi := slice_bound (length s) j in
  take (hi - lo)%nat (drop lo s).

(** ** Exceptions *)

(** The subclasses of [Exception] the modelled code can meet;
    [BackendError] stands for whatever a collaborator raises. Every
    handler of the code is [except Exception], so the kind never decides
    a path. *)
Inductive exn :=
| TypeError | AttributeError | KeyError | ValueError | ValidationError
| BackendError.

(** What a call comes to: a value, or a raised exception. *)
Inductive outcome (A : Type) :=
| Ok (a : A)
| Raise (e : exn).
Arguments Ok {A} a.
Arguments Raise {A} e.

#[export] Instance outcome_ret : MRet outcome := fun A a => Ok a.
#[export] Instance outcome_bind : MBind outcome := fun A B k m =>
  match m with
  | Ok a => k a
  | Raise e => Raise e
  end.

(** [range(lo, hi, step)]; a zero [step] raises [ValueError]. *)
Definition range_len (lo hi step : Z) : Z :=
  if (0 <? step) && (lo <? hi) then 1 + (hi - 1 - lo) / step
  else if (step <? 0) && (hi <? lo) then 1 + (lo - 1 - hi) / (- step)
  else 0.

Definition range (lo hi step : Z) : outcome (list Z) :=
  if step =? 0 then Raise ValueError
  else Ok ((fun k => lo + Z.of_nat k * step) <$> seq 0 (Z.to_nat (range_len lo hi step))).

(** ** JSON-like Python values *)

(** What [json.loads] can return, and [None]. *)
Inductive pyval :=
| PNone
| PBool (b : bool)
| PInt (z : Z)
| PFloat (f : float)
| PStr (s : pystr)
| PList (l : list pyval)
| PDict (d : gmap pystr pyval).

(** [bool(v)], as [if not response] reads it. *)
Definition truthy (v : pyval) : bool :=
  match v with
  | PNone => false
  | PBool b => b
  | PInt z => negb (z =? 0)
  | PFloat f => negb (PrimFloat.eqb f 0%float)
  | PStr s => negb (Nat.eqb (length s) 0)
  | PList l => negb (Nat.eqb (length l) 0)
  | PDict d => negb (Nat.eqb (size d) 0)
  end.

(** [v == s] for a string constant [s]. *)
Definition is_str (s : pystr) (v : pyval) : bool :=
  match v with
  | PStr t => bool_decide (t = s)
  | _ => false
  end.

(** [v in [s1, s2, ...]] for a list of string constants. *)
Definition in_strs (v : pyval) (l : list pystr) : bool :=
  existsb (fun s => is_str s v) l.

(** [v.get(key, default)]: only a [dict] has the method. *)
Definition py_get (v : pyval) (key : pystr) (dflt : pyval) : outcome pyval :=
  match v with
  | PDict d => Ok (default dflt (d !! key))
  | _ => Raise AttributeError
  end.

(** [key in v] for a string [key]: a key of a [dict], a substring of a
    [str], an element of a [list]; nothing else is a container. *)
Definition py_in (key : pystr) (v : pyval) : outcome bool :=
  match v with
  | PDict d => Ok (bool_decide (is_Some (d !! key)))
  | PStr s => Ok (contains key s)
  | PList l => Ok (existsb (is_str key) l)
  | _ => Raise TypeError
  end.

(** [v[key] = x] for a string [key]: only a [dict] takes it. *)
Definition py_setitem (v : pyval) (key : pystr) (x : pyval) : outcome pyval :=
  match v with
  | PDict d => Ok (PDict (<[key := x]> d))
  | _ => Raise TypeError
  end.

(** [v[:n]]: defined on strings and lists. *)
Definition py_prefix (v : pyval) (n : Z) : outcome pyval :=
  match v with
  | PStr s => Ok (PStr (slice s 0 n))
  | PList l => Ok (PList (take (slice_bound (length l) n) l))
  | _ => Raise TypeError
  end.

(** [template.replace(old, new)] with a [new] of any type: [str.replace]
    wants a string. *)
Definition replace_with (old : pystr) (new : pyval) (template : pystr) : outcome pystr :=
  match new with
  | PStr s => Ok (replace old s template)
  | _ => Raise TypeError
  end.

(** ** Python floats *)

(** [max(a, b)] and [min(a, b)] of two floats: the built-ins keep the
    first argument unless the second compares strictly beyond it, so a
    NaN first argument is kept. *)
Definition py_max (a b : float) : float := if PrimFloat.ltb a b then b else a.
Definition py_min (a b : float) : float := if PrimFloat.ltb b a then b else a.

(** The integer nearest to [num / den] ([den > 0]), ties to even. *)
Definition round_half_even (num den : Z) : Z :=
  let q := num / den in
  let r := num mod den in
  if 2 * r <? den then q
  else if den <? 2 * r then q + 1
  else if Z.even q then q else q + 1.

(** The binary64 number nearest to [q / 100], with sign [s]. *)
Definition centi (s : bool) (q : Z) : spec_float :=
  match q with
  | Zpos p => SFdiv prec emax (S754_finite s p 0) (S754_finite false 100 0)
  | _ => S754_zero s
  end.

(** [round(x, 2)]: the exact binary value of [x] is rounded to two
    decimals, ties to even, and the decimal read back as the nearest
    float; zeros, infinities, NaN and integers round to themselves. *)
Definition py_round2 (x : float) : float :=
  match Prim2SF x with
  | S754_finite s m e =>
      if 0 <=? e then x
      else SF2Prim (centi s (round_half_even (Zpos m * 100) (2 ^ (- e))))
  | _ => x
  end.

(** [float(len(l))]: exact below [2^53], and a list is never longer than
    [sys.maxsize = 2^63 - 1]. *)
Definition float_of_len (n : nat) : float :=
  PrimFloat.of_uint63 (Uint63.of_Z (Z.of_nat n)).

(** [sum] as a plain left-to-right addition from [0]. *)
Definition naive_sum (l : list float) : float := fold_left PrimFloat.add l 0%float.

(** ** Chunker ([app/ingestion.py]) *)

Module Ingestion.

Record DocumentChunk := {
  text : pystr;
  source : pystr;
  chunk_id : pystr;
  metadata : gmap pystr pyval
}.

(** [config.MAX_CHUNK_CHARS], when the environment does not set it. *)
Definition MAX_CHUNK_CHARS : Z := 1024.

(** The [DocumentChunk(...)] built at each of the four emission sites. *)
Definition emit (txt src : pystr) (chunk_counter : nat) : DocumentChunk :=
  {| text := txt;
     source := src;
     chunk_id := src ++ py "_chunk_" ++ str_of_int (Z.of_nat chunk_counter);
     metadata := {[ py "source" := PStr src;
                    py "chunk_id" := PInt (Z.of_nat chunk_counter) ]} |}.

(** The loop state: [chunks], [current_chunk], [chunk_counter]. *)
Record chunker := {
  chunks : list DocumentChunk;
  current_chunk : pystr;
  chunk_counter : nat
}.

(** [if current_chunk: chunks.append(...); chunk_counter += 1]; each site
    then sets the buffer itself. *)
Definition flush (src : pystr) (st : chunker) : chunker :=
  match current_chunk st with
  | [] => st
  | _ :: _ =>
      {| chunks := chunks st ++ [emit (strip (current_chunk st)) src (chunk_counter st)];
         current_chunk := current_chunk st;
         chunk_counter := S (chunk_counter st) |}
  end.

Section DocumentIngestion.

(** [self.chunk_size], read from the configuration. *)
Variable chunk_size : Z.

(** The inner [for i in range(0, len(paragraph), self.chunk_size)]. *)
Fixpoint emit_slices (src paragraph : pystr) (idx : list Z)
    (cs : list DocumentChunk) (n : nat) : list DocumentChunk * nat :=
  match idx with
  | [] => (cs, n)
  | i :: idx' =>
      emit_slices src paragraph idx'
        (cs ++ [emit (slice paragraph i (i + chunk_size)) src n]) (S n)
  end.

(** One iteration of [for paragraph in paragraphs]. *)
Definition chunk_step (src : pystr) (st : chunker) (raw : pystr) : outcome chunker :=
  let paragraph := strip raw in
  match paragraph with
  | [] => Ok st
  | _ :: _ =>
      if Z.of_nat (length paragraph) >? chunk_size then
        let st1 := flush src st in
        match range 0 (Z.of_nat (length paragraph)) chunk_size with
        | Raise e => Raise e
        | Ok idx =>
            let '(cs, n) := emit_slices src paragraph idx (chunks st1) (chunk_counter st1) in
            (* the buffer is empty here: reset by the flush, or never filled *)
            Ok {| chunks := cs; current_chunk := []; chunk_counter := n |}
        end
      else if Z.of_nat (length (current_chunk st)) + Z.of_nat (length paragraph) + 2
              >? chunk_size then
        let st1 := flush src st in
        Ok {| chunks := chunks st1; current_chunk := paragraph;
              chunk_counter := chunk_counter st1 |}
      else
        match current_chunk st with
        | [] => Ok {| chunks := chunks st; current_chunk := paragraph;
                      chunk_counter := chunk_counter st |}
        | _ :: _ =>
            Ok {| chunks := chunks st;
                  current_chunk := current_chunk st ++ blank_line ++ paragraph;
                  chunk_counter := chunk_counter st |}
        end
  end.

Fixpoint chunk_loop (src : pystr) (st : chunker) (paragraphs : list pystr)
    : outcome chunker :=
  match paragraphs with
  | [] => Ok st
  | p :: ps =>
      match chunk_step src st p with
      | Raise e => Raise e
      | Ok st' => chunk_loop src st' ps
      end
  end.

(** [DocumentIngestion.chunk_text] *)
Definition chunk_text (txt src : pystr) : outcome (list DocumentChunk) :=
  let paragraphs := split blank_line txt in
  match chunk_loop src {| chunks := []; current_chunk := []; chunk_counter := 0 |} paragraphs with
  | Raise e => Raise e
  | Ok st => Ok (chunks (flush src st))
  end.

End DocumentIngestion.

End Ingestion.

(** ** Search results ([app/vectordb.py]) *)

Module VectorDB.

(** One entry of the list [VectorDB.search] builds: the five keys it
    always sets, [metadata] being the map the store returns. *)
Record SearchResult := {
  id : pystr;
  text : pystr;
  metadata : gmap pystr pyval;
  distance : float;
  similarity : float
}.

(** [formatted_results.append({...})] for one hit of the store. *)
Definition formatted (i t : pystr) (m : gmap pystr pyval) (d : float) : SearchResult :=
  {| id := i; text := t; metadata := m; distance := d;
     similarity := (1 - d)%float |}.

End VectorDB.

(** ** Result records ([app/schemas.py]) *)

Record QAAnswer := {
  query : pystr;
  answer : pystr;
  sources : list pystr;
  confidence : float
}.

Record IssueSummary := {
  raw_text : pystr;
  reported_issues : list pystr;
  affected_components : list pystr;
  severity : pystr;
  suggestions : list pystr
}.

Record RouterDecision := {
  tool : pystr;
  rationale : pystr;
  tool_input : gmap pystr pyval
}.

(** The mapping [{"decision": ..., "result": ...}] of [process_query]. *)
Record RouterResponse := {
  decision : RouterDecision;
  result : QAAnswer + IssueSummary
}.

(** ** Collaborators *)

(** What the tools use and the repository does not define: the prompt
    files, the configuration, the language model behind
    [llm_client.generate_structured_response], the vector store behind
    [vector_db.search], pydantic's coercion of a value that is not of the
    declared type, and two built-ins whose output is not modelled.

    The model and the store answer the [n]-th call made to them, so that
    two calls with the same argument may differ; [PNone] from the model is
    [None], what the client returns when the request failed or nothing in
    the reply could be parsed. *)
Class Backend := {
  qa_prompt : pystr;
  issue_summary_prompt : pystr;
  router_prompt : pystr;
  TOP_K : Z;
  generate_structured_response : nat -> pystr -> outcome pyval;
  search : nat -> pyval -> Z -> outcome (list VectorDB.SearchResult);
  coerce_str : pyval -> option pystr;
  coerce_dict : pyval -> option (gmap pystr pyval);
  py_sum : list float -> float;
  py_repr : pyval -> pystr
}.

(** ** Effects *)

(** The calls made so far: the prompts sent to the model and the queries
    sent to the store. *)
Record world := {
  llm_calls : list pystr;
  searches : list pyval
}.

(** A computation reads and extends the world and returns or raises; what
    it did before raising stays done. *)
Definition M (A : Type) : Type := world -> outcome A * world.

#[export] Instance M_ret : MRet M := fun A a w => (Ok a, w).
#[export] Instance M_bind : MBind M := fun A B k m w =>
  match m w with
  | (Ok a, w') => k a w'
  | (Raise e, w') => (Raise e, w')
  end.

(** A pure step that may raise. *)
Definition lift {A : Type} (r : outcome A) : M A := fun w => (r, w).

(** [try: body except Exception as e: handler] *)
Definition try_except {A : Type} (body : M A) (handler : exn -> M A) : M A :=
  fun w =>
    match body w with
    | (Ok a, w') => (Ok a, w')
    | (Raise e, w') => handler e w'
    end.

(** ** The tools ([app/tools]) *)

(** The two fixed answers of the Q&A tool: "not enough information found"
    and "an error occurred while processing". *)
Definition NO_INFORMATION : pystr := py "ไม่พบข้อมูลเพียงพอ".
Definition PROCESSING_ERROR : pystr := py "เกิดข้อผิดพลาดในการประมวลผล".

Section Tools.

Context {backend : Backend}.

(** *** Construction of the pydantic records *)

(** A field declared [str]: a string is taken as it is, anything else is
    left to pydantic's coercion, which may refuse it. *)
Definition str_field (v : pyval) : outcome pystr :=
  match v with
  | PStr s => Ok s
  | _ =>
      match coerce_str v with
      | Some s => Ok s
      | None => Raise ValidationError
      end
  end.

(** A field declared [List[str]]: of the JSON values only a list is one. *)
Definition str_list_field (v : pyval) : outcome (list pystr) :=
  match v with
  | PList l => mapM str_field l
  | _ => Raise ValidationError
  end.

(** A field declared [Dict]. *)
Definition dict_field (v : pyval) : outcome (gmap pystr pyval) :=
  match v with
  | PDict d => Ok d
  | _ =>
      match coerce_dict v with
      | Some d => Ok d
      | None => Raise ValidationError
      end
  end.

(** [QAAnswer(query=..., answer=..., sources=..., confidence=...)] *)
Definition new_QAAnswer (q a : pyval) (srcs : list pystr) (c : float) : outcome QAAnswer :=
  q' ← str_field q;
  a' ← str_field a;
  mret {| query := q'; answer := a'; sources := srcs; confidence := c |}.

(** [IssueSummary(raw_text=..., reported_issues=..., ...)] *)
Definition new_IssueSummary (raw issues components : pyval) (sev : pystr)
    (suggs : pyval) : outcome IssueSummary :=
  raw' ← str_field raw;
  issues' ← str_list_field issues;
  components' ← str_list_field components;
  suggs' ← str_list_field suggs;
  mret {| raw_text := raw'; reported_issues := issues';
          affected_components := components'; severity := sev;
          suggestions := suggs' |}.

(** [RouterDecision(tool=..., rationale=..., tool_input=...)] *)
Definition new_RouterDecision (t r ti : pyval) : outcome RouterDecision :=
  t' ← str_field t;
  r' ← str_field r;
  ti' ← dict_field ti;
  mret {| tool := t'; rationale := r'; tool_input := ti' |}.

(** *** Calls to the collaborators *)

(** [llm_client.generate_structured_response([{"role": "user",
    "content": prompt}])] *)
Definition call_llm (prompt : pystr) : M pyval := fun w =>
  (generate_structured_response (length (llm_calls w)) prompt,
   {| llm_calls := llm_calls w ++ [prompt]; searches := searches w |}).

(** [vector_db.search(query, top_k=config.TOP_K)] *)
Definition call_search (q : pyval) : M (list VectorDB.SearchResult) := fun w =>
  (search (length (searches w)) q TOP_K,
   {| llm_calls := llm_calls w; searches := searches w ++ [q] |}).

(** *** QATool ([qa_tool.py]) *)

(** [f"{v}"]: the text of a float, a list or a dict is the backend's. *)
Definition format_value (v : pyval) : pystr :=
  match v with
  | PStr s => s
  | PInt z => str_of_int z
  | PBool true => py "True"
  | PBool false => py "False"
  | PNone => py "None"
  | _ => py_repr v
  end.

(** [QATool._format_context] *)
Definition _format_context (search_results : list VectorDB.SearchResult) : pystr :=
  let context_parts :=
    (fun r =>
       let source := default (PStr (py "unknown")) (VectorDB.metadata r !! py "source") in
       let chunk_id := default (PStr (py "unknown")) (VectorDB.metadata r !! py "chunk_id") in
       let text := VectorDB.text r in
       py "[" ++ format_value source ++ py ":" ++ format_value chunk_id ++ py "]"
       ++ [10%N] ++ text) <$> search_results in
  join blank_line context_parts.

(** [QATool._calculate_confidence] *)
Definition _calculate_confidence (search_results : list VectorDB.SearchResult) : float :=
  match search_results with
  | [] => 0%float
  | _ :: _ =>
      let similarities := VectorDB.similarity <$> search_results in
      let avg_similarity := (py_sum similarities / float_of_len (length similarities))%float in
      let confidence := py_min (py_max (avg_similarity * 1.2)%float 0.1%float) 1%float in
      py_round2 confidence
  end.

(** [QATool._extract_sources] *)
Definition _extract_sources (search_results : list VectorDB.SearchResult) : list pystr :=
  (fun r =>
     let source := default (PStr (py "unknown")) (VectorDB.metadata r !! py "source") in
     let chunk_id := default (PStr (py "unknown")) (VectorDB.metadata r !! py "chunk_id") in
     format_value source ++ py ":" ++ format_value chunk_id) <$> search_results.

(** [QATool.answer_question]; the router may hand it any value as the
    query. *)
Definition answer_question (q : pyval) : M QAAnswer :=
  try_except
    (search_results ← call_search q;
     match (search_results : list VectorDB.SearchResult) with
     | [] => lift (new_QAAnswer q (PStr NO_INFORMATION) [] 0%float)
     | _ :: _ =>
         let context := _format_context search_results in
         prompt ← lift (replace_with (py "{{question}}") q qa_prompt);
         let prompt := replace (py "{{context}}") context prompt in
         response ← call_llm prompt;
         if negb (truthy response) then
           lift (new_QAAnswer q (PStr NO_INFORMATION)
                   (_extract_sources search_results) 0.1%float)
         else
           a ← lift (py_get response (py "answer") (PStr NO_INFORMATION));
           let c := _calculate_confidence search_results in
           let srcs := _extract_sources search_results in
           lift (new_QAAnswer q a srcs c)
     end)
    (fun _ => lift (new_QAAnswer q (PStr PROCESSING_ERROR) [] 0%float)).

(** *** IssueSummaryTool ([issue_summary_tool.py]) *)

Definition valid_severities : list pystr :=
  [py "Low"; py "Medium"; py "High"; py "Critical"].

(** [IssueSummaryTool.summarize_issue]; the first step is the slice
    [issue_text[:100]] of the log line. *)
Definition summarize_issue (issue_text : pyval) : M IssueSummary :=
  try_except
    (_ ← lift (py_prefix issue_text 100);
     prompt ← lift (replace_with (py "{{issue_text}}") issue_text issue_summary_prompt);
     response ← call_llm prompt;
     if negb (truthy response) then
       lift (new_IssueSummary issue_text (PList []) (PList []) (py "Low") (PList []))
     else
       issues ← lift (py_get response (py "reported_issues") (PList []));
       components ← lift (py_get response (py "affected_components") (PList []));
       sev ← lift (py_get response (py "severity") (PStr (py "Low")));
       suggs ← lift (py_get response (py "suggestions") (PList []));
       let sev :=
         match (sev : pyval) with
         | PStr s => if bool_decide (s ∈ valid_severities) then s else py "Low"
         | _ => py "Low"
         end in
       lift (new_IssueSummary issue_text issues components sev suggs))
    (fun _ => lift (new_IssueSummary issue_text (PList []) (PList []) (py "Low") (PList []))).

(** *** RouterAgent ([router_agent.py]) *)

(** [if key not in tool_input: tool_input[key] = query] *)
Definition backfill (key : pystr) (q : pystr) (ti : pyval) : outcome pyval :=
  present ← py_in key ti;
  if (present : bool) then Ok ti else py_setitem ti key (PStr q).

(** [RouterAgent._route_query] *)
Definition _route_query (q : pystr) : M RouterDecision :=
  try_except
    (let prompt := replace (py "{{query}}") q router_prompt in
     response ← call_llm prompt;
     if negb (truthy response) then
       lift (new_RouterDecision (PStr (py "qa"))
               (PStr (py "Unable to determine appropriate tool, defaulting to QA."))
               (PDict {[ py "query" := PStr q ]}))
     else
       t ← lift (py_get response (py "tool") (PStr (py "qa")));
       let t := if in_strs t [py "qa"; py "issue_summary"] then t else PStr (py "qa") in
       ti ← lift (py_get response (py "tool_input") (PDict ∅));
       ti ← lift (if is_str (py "qa") t then backfill (py "query") q ti
                  else if is_str (py "issue_summary") t then backfill (py "issue_text") q ti
                  else Ok ti);
       r ← lift (py_get response (py "rationale") (PStr (py "No rationale provided")));
       lift (new_RouterDecision t r ti))
    (fun _ =>
       lift (new_RouterDecision (PStr (py "qa"))
               (PStr (py "Error in routing, defaulting to QA."))
               (PDict {[ py "query" := PStr q ]}))).

(** [RouterAgent._execute_tool] *)
Definition _execute_tool (d : RouterDecision) : M (QAAnswer + IssueSummary) :=
  try_except
    (if bool_decide (tool d = py "qa") then
       let q := default (PStr []) (tool_input d !! py "query") in
       a ← answer_question q; mret (inl a)
     else if bool_decide (tool d = py "issue_summary") then
       let issue_text := default (PStr []) (tool_input d !! py "issue_text") in
       s ← summarize_issue issue_text; mret (inr s)
     else lift (Raise ValueError))
    (fun _ =>
       if bool_decide (tool d = py "qa") then
         let q := default (PStr []) (tool_input d !! py "query") in
         a ← lift (new_QAAnswer q (PStr PROCESSING_ERROR) [] 0%float); mret (inl a)
       else
         let issue_text := default (PStr []) (tool_input d !! py "issue_text") in
         s ← lift (new_IssueSummary issue_text (PList []) (PList []) (py "Low") (PList []));
         mret (inr s)).

(** [RouterAgent.process_query] *)
Definition process_query (q : pystr) : M RouterResponse :=
  try_except
    (d ← _route_query q;
     r ← _execute_tool d;
     mret {| decision := d; result := r |})
    (fun _ =>
       d ← lift (new_RouterDecision (PStr (py "qa"))
                   (PStr (py "Error occurred, falling back to QA tool."))
                   (PDict {[ py "query" := PStr q ]}));
       a ← lift (new_QAAnswer (PStr q) (PStr PROCESSING_ERROR) [] 0%float);
       mret {| decision := d; result := inl a |}).

End Tools.


(** ** The vector store ([app/vectordb.py]) *)

Module Store.

(** The arguments of one [collection.add(...)]. *)
Record batch := {
  embeddings : list (list float);
  documents : list pyval;
  metadatas : list pyval;
  ids : list pyval
}.

(** What [collection.query] returns with documents, metadatas and
    distances included: for each query embedding one row of ids and, for
    each of the three, either nothing or one row per query. *)
Record QueryResult := {
  result_ids : list (list pystr);
  result_documents : option (list (list pystr));
  result_metadatas : option (list (list (gmap pystr pyval)));
  result_distances : option (list (list float))
}.

(** The calls made so far to the embedding model and to the collection. *)
Record store := {
  encode_calls : list (list pyval);
  add_calls : list batch;
  query_calls : list (list (list float) * Z)
}.

(** The embedding model and the Chroma collection: what each call returns
    may depend on everything done before. *)
Class Chroma := {
  encode : store -> list pyval -> outcome (list (list float));
  collection_add : store -> batch -> outcome unit;
  collection_query : store -> list (list float) -> Z -> outcome QueryResult
}.

(** [chunk[key]] *)
Definition getitem (chunk : gmap pystr pyval) (key : pystr) : outcome pyval :=
  match chunk !! key with
  | Some v => Ok v
  | None => Raise KeyError
  end.

(** [rows[0][i] if rows and rows[0] else dflt]; [None] is the
    [IndexError] of a row shorter than [i + 1]. *)
Definition row_item {A : Type} (rows : option (list (list A))) (i : nat) (dflt : A)
    : option A :=
  match rows with
  | Some ((_ :: _) as row :: _) => row !! i
  | _ => Some dflt
  end.

(** The loop [for i in range(len(results["ids"][0]))] of [search]. *)
Fixpoint format_results (results : QueryResult) (row : list pystr) (i : nat)
    (formatted_results : list VectorDB.SearchResult)
    : option (list VectorDB.SearchResult) :=
  match row with
  | [] => Some formatted_results
  | id_i :: row' =>
      match row_item (result_documents results) i [],
            row_item (result_metadatas results) i ∅,
            row_item (result_distances results) i 0%float with
      | Some text, Some metadata, Some distance =>
          format_results results row' (S i)
            (formatted_results ++ [VectorDB.formatted id_i text metadata distance])
      | _, _, _ => None
      end
  end.

Section VectorDB.

Context {chroma : Chroma}.

(** [config.TOP_K] *)
Variable TOP_K : Z.

(** [VectorDB.add_documents] *)
Definition add_documents (chunks : list (gmap pystr pyval)) (s : store) : bool * store :=
  match chunks with
  | [] => (false, s)
  | _ :: _ =>
      match (texts ← mapM (fun chunk => getitem chunk (py "text")) chunks;
             metas ← mapM (fun chunk => getitem chunk (py "metadata")) chunks;
             idents ← mapM (fun chunk => getitem chunk (py "id")) chunks;
             Ok (texts, metas, idents)) with
      | Raise _ => (false, s)
      | Ok (texts, metas, idents) =>
          let s1 := {| encode_calls := encode_calls s ++ [texts];
                       add_calls := add_calls s;
                       query_calls := query_calls s |} in
          match encode s texts with
          | Raise _ => (false, s1)
          | Ok vectors =>
              let b := {| embeddings := vectors; documents := texts;
                          metadatas := metas; ids := idents |} in
              let s2 := {| encode_calls := encode_calls s1;
                           add_calls := add_calls s1 ++ [b];
                           query_calls := query_calls s1 |} in
              match collection_add s1 b with
              | Raise _ => (false, s2)
              | Ok _ => (true, s2)
              end
          end
      end
  end.

(** [VectorDB.search]; [top_k] is [None] or an [int]. *)
Definition search (query : pyval) (top_k : option Z) (s : store)
    : list VectorDB.SearchResult * store :=
  let top_k := match top_k with
               | Some k => if k =? 0 then TOP_K else k
               | None => TOP_K
               end in
  let s1 := {| encode_calls := encode_calls s ++ [[query]];
               add_calls := add_calls s;
               query_calls := query_calls s |} in
  match encode s [query] with
  | Raise _ => ([], s1)
  | Ok query_embedding =>
      let s2 := {| encode_calls := encode_calls s1;
                   add_calls := add_calls s1;
                   query_calls := query_calls s1 ++ [(query_embedding, top_k)] |} in
      match collection_query s1 query_embedding top_k with
      | Raise _ => ([], s2)
      | Ok results =>
          match result_ids results with
          | ((_ :: _) as row) :: _ =>
              match format_results results row 0 [] with
              | Some formatted_results => (formatted_results, s2)
              | None => ([], s2)
              end
          | _ => ([], s2)
          end
      end
  end.

End VectorDB.

End Store.

(** ** The ingestion pipeline ([app/ingestion.py]) *)

(** [config.DATA_DIR] *)
Definition DATA_DIR : pystr := py "data".

(** What the pipeline asks of [pathlib] and of the file system, a path
    being the string it was made from: [Path(p).name],
    [str(Path(a) / b)], [Path(p).exists()] and
    [open(p, "r", encoding="utf-8-sig").read()]. The files do not change
    while a call runs. *)
Class FileSystem := {
  path_name : pystr -> pystr;
  path_join : pystr -> pystr -> pystr;
  path_exists : pystr -> outcome bool;
  read_text : pystr -> outcome pystr
}.

Section DocumentPipeline.

Context {fs : FileSystem} {chroma : Store.Chroma}.

(** [self.chunk_size] *)
Variable chunk_size : Z.

(** [DocumentIngestion.read_file] *)
Definition read_file (file_path : pystr) : option pystr :=
  let attempt : outcome (option pystr) :=
    found ← path_exists file_path;
    path ← (if (found : bool) then Ok (Some file_path)
            else
              let path := path_join DATA_DIR (path_name file_path) in
              found ← path_exists path;
              Ok (if (found : bool) then Some path else None));
    match (path : option pystr) with
    | None => Ok None
    | Some path => content ← read_text path; Ok (Some content)
    end in
  match attempt with
  | Ok content => content
  | Raise _ => None
  end.

(** The mapping [{"id": ..., "text": ..., "metadata": ...}] made of a
    chunk. *)
Definition chunk_record (chunk : Ingestion.DocumentChunk) : gmap pystr pyval :=
  {[ py "id" := PStr (Ingestion.chunk_id chunk);
     py "text" := PStr (Ingestion.text chunk);
     py "metadata" := PDict (Ingestion.metadata chunk) ]}.

(** One iteration of [for doc_path in doc_paths]. *)
Definition process_document (all_chunks : list (gmap pystr pyval)) (doc_path : pystr)
    : outcome (list (gmap pystr pyval)) :=
  let source := path_name doc_path in
  match read_file doc_path with
  | None | Some [] => Ok all_chunks
  | Some content =>
      chunks ← Ingestion.chunk_text chunk_size content source;
      match (chunks : list Ingestion.DocumentChunk) with
      | [] => Ok all_chunks
      | _ :: _ => Ok (all_chunks ++ (chunk_record <$> chunks))
      end
  end.

Fixpoint collect_chunks (all_chunks : list (gmap pystr pyval)) (doc_paths : list pystr)
    : outcome (list (gmap pystr pyval)) :=
  match doc_paths with
  | [] => Ok all_chunks
  | doc_path :: rest =>
      match process_document all_chunks doc_path with
      | Raise e => Raise e
      | Ok all_chunks' => collect_chunks all_chunks' rest
      end
  end.

(** [DocumentIngestion.process_documents] *)
Definition process_documents (doc_paths : list pystr) (s : Store.store)
    : outcome bool * Store.store :=
  match collect_chunks [] doc_paths with
  | Raise e => (Raise e, s)
  | Ok [] => (Ok false, s)
  | Ok all_chunks =>
      let '(success, s') := Store.add_documents all_chunks s in (Ok success, s')
  end.

End DocumentPipeline.

(** ** Configuration ([app/config.py]) *)

(** [os.getenv(key, default)] in an environment. *)
Definition getenv (env : gmap pystr pystr) (key dflt : pystr) : pystr :=
  default dflt (env !! key).

(** The settings of the language-model API, read once from the
    environment when the class is defined. *)
Record Config := {
  OPENROUTER_API_KEY : pystr;
  OPENROUTER_MODEL_NAME : pystr;
  OPENROUTER_API_BASE : pystr;
  OPENAI_API_BASE : pystr;
  OPENAI_API_KEY : pystr;
  OPENAI_MODEL : pystr
}.

Definition load_config (env : gmap pystr pystr) : Config :=
  {| OPENROUTER_API_KEY := getenv env (py "OPENROUTER_API_KEY") [];
     OPENROUTER_MODEL_NAME :=
       getenv env (py "OPENROUTER_MODEL_NAME") (py "google/gemini-2.5-flash");
     OPENROUTER_API_BASE :=
       getenv env (py "OPENROUTER_API_BASE") (py "https://openrouter.ai/api/v1");
     OPENAI_API_BASE := getenv env (py "OPENAI_API_BASE") [];
     OPENAI_API_KEY := getenv env (py "OPENAI_API_KEY") [];
     OPENAI_MODEL := getenv env (py "OPENAI_MODEL") [] |}.

(** The properties [API_BASE], [API_KEY] and [MODEL]; a string is true
    when it is not empty. *)
Definition API_BASE (config : Config) : pystr :=
  match OPENROUTER_API_BASE config with
  | _ :: _ => OPENROUTER_API_BASE config
  | [] => OPENAI_API_BASE config
  end.

Definition API_KEY (config : Config) : pystr :=
  match OPENROUTER_API_KEY config with
  | _ :: _ => OPENROUTER_API_KEY config
  | [] => OPENAI_API_KEY config
  end.

Definition MODEL (config : Config) : pystr :=
  match OPENROUTER_MODEL_NAME config with
  | _ :: _ => OPENROUTER_MODEL_NAME config
  | [] =>
      match OPENAI_MODEL config with
      | _ :: _ => OPENAI_MODEL config
      | [] => py "google/gemini-2.5-flash"
      end
  end.

(** [Config.get_api_config] *)
Definition get_api_config (config : Config) : gmap pystr pyval :=
  {[ py "api_base" := PStr (API_BASE config);
     py "api_key" := PStr (API_KEY config);
     py "model" := PStr (MODEL config) ]}.

(** ** The handlers of the HTTP routes ([app/api/routes.py]) *)

(** How a handler ends: it returns a value, which is then FastAPI's to
    validate and render as the response, or it raises [HTTPException]. *)
Inductive handled (A : Type) :=
| Returned (value : A)
| HTTPException (status_code : Z) (detail : pystr).
Arguments Returned {A} value.
Arguments HTTPException {A} status_code detail.

(** [result.dict()] of the two records. *)
Definition QAAnswer_dict (r : QAAnswer) : gmap pystr pyval :=
  {[ py "query" := PStr (query r);
     py "answer" := PStr (answer r);
     py "sources" := PList (PStr <$> sources r);
     py "confidence" := PFloat (confidence r) ]}.

Definition IssueSummary_dict (r : IssueSummary) : gmap pystr pyval :=
  {[ py "raw_text" := PStr (raw_text r);
     py "reported_issues" := PList (PStr <$> reported_issues r);
     py "affected_components" := PList (PStr <$> affected_components r);
     py "severity" := PStr (severity r);
     py "suggestions" := PList (PStr <$> suggestions r) ]}.

Section Routes.

Context {backend : Backend}.

(** [try: ... return value except Exception:
    raise HTTPException(status_code=500, detail="Internal server error")] *)
Definition handler {A : Type} (body : M A) : world -> handled A * world :=
  fun w =>
    match body w with
    | (Ok value, w') => (Returned value, w')
    | (Raise _, w') => (HTTPException 500 (py "Internal server error"), w')
    end.

(** [qa_endpoint], for a request whose [query] pydantic has checked to be
    a string. *)
Definition qa_endpoint (query : pystr)
    : world -> handled (gmap pystr pyval) * world :=
  handler (result ← answer_question (PStr query);
           mret (QAAnswer_dict result)).

(** [summarize_endpoint]; the log line slices the issue text first. *)
Definition summarize_endpoint (issue_text : pystr)
    : world -> handled (gmap pystr pyval) * world :=
  handler (_ ← lift (py_prefix (PStr issue_text) 100);
           result ← summarize_issue (PStr issue_text);
           mret (IssueSummary_dict result)).

(** [query_endpoint]: the mapping of [process_query] is returned as it
    is. *)
Definition query_endpoint (query : pystr) : world -> handled RouterResponse * world :=
  handler (process_query query).

End Routes.

(** ** The language-model client ([app/llm_client.py]) *)

Module LLM.

(** [s.endswith(suffix)] *)
Definition endswith (suffix s : pystr) : bool :=
  startswith (reverse suffix) (reverse s).

(** [s.rstrip(c)] for a single character [c]. *)
Fixpoint lstrip_char (c : N) (s : pystr) : pystr :=
  match s with
  | [] => []
  | a :: s' => if (a =? c)%N then lstrip_char c s' else s
  end.

Definition rstrip_char (c : N) (s : pystr) : pystr :=
  reverse (lstrip_char c (reverse s)).

(** The instruction added to the last message for OpenRouter. *)
Definition JSON_INSTRUCTION : pystr :=
  blank_line ++ py "IMPORTANT: Return your response as a valid JSON object only.".

(** The attributes [__init__] sets. *)
Record Client := {
  api_base : pystr;
  api_key : pystr;
  model : pystr;
  headers : gmap pystr pystr;
  temperature : float;
  max_tokens : Z
}.

(** [LLMClient.__init__] for a configuration, [config.TEMPERATURE] and
    [config.MAX_TOKENS]; [get_api_config] sets no [headers]. *)
Definition new_Client (config : Config) (TEMPERATURE : float) (MAX_TOKENS : Z) : Client :=
  {| api_base := API_BASE config;
     api_key := API_KEY config;
     model := MODEL config;
     headers := ∅;
     temperature := TEMPERATURE;
     max_tokens := MAX_TOKENS |}.

(** The [json=payload] of a request. *)
Record Payload := {
  payload_model : pystr;
  payload_messages : list (gmap pystr pystr);
  payload_temperature : float;
  payload_max_tokens : Z;
  payload_response_format : option (gmap pystr pystr)
}.

Record Request := {
  url : pystr;
  request_headers : gmap pystr pystr;
  json : Payload
}.

(** What the client does not define: [str.lower], the HTTP exchange
    ([client.post], [raise_for_status] and [response.json()] together,
    which may depend on the requests sent before), [json.loads] ([None]
    for a [JSONDecodeError]) and the two regular-expression searches of
    [parse_json_response] (the text of the group, when there is a
    match). *)
Class Transport := {
  lower : pystr -> pystr;
  post : list Request -> Request -> outcome pyval;
  json_loads : pystr -> option pyval;
  search_fenced : pystr -> option pystr;
  search_braces : pystr -> option pystr
}.

Section LLMClient.

Context {transport : Transport}.

Variable self : Client.

(** [LLMClient._get_headers] *)
Definition _get_headers : gmap pystr pystr :=
  let base : gmap pystr pystr :=
    {[ py "Authorization" := py "Bearer " ++ api_key self;
       py "Content-Type" := py "application/json" ]} in
  if bool_decide (headers self = ∅) then base else headers self ∪ base.

(** [result["choices"][0]["message"]["content"]] and the slice
    [content[:100]] of the log line; [None] when any of them raises. *)
Definition content_of (result : pyval) : option pyval :=
  match result with
  | PDict d =>
      match d !! py "choices" with
      | Some (PList (PDict choice :: _)) =>
          match choice !! py "message" with
          | Some (PDict message) =>
              match message !! py "content" with
              | Some (PStr s) => Some (PStr s)
              | Some (PList l) => Some (PList l)
              | _ => None
              end
          | _ => None
          end
      | _ => None
      end
  | _ => None
  end.

(** The messages after [messages[-1]["content"] += JSON_INSTRUCTION],
    when the last message has a content that does not end, once
    stripped, with ["Return JSON only."]; [None] for the [KeyError] of a
    last message without content. *)
Definition with_json_instruction (messages : list (gmap pystr pystr))
    : option (list (gmap pystr pystr)) :=
  match last messages with
  | None => Some messages
  | Some message =>
      match message !! py "content" with
      | None => None
      | Some content =>
          if endswith (py "Return JSON only.") (strip content) then Some messages
          else Some (removelast messages
                     ++ [<[py "content" := content ++ JSON_INSTRUCTION]> message])
      end
  end.

(** [LLMClient.chat_completion]; [sent] are the requests made so far. *)
Definition chat_completion (messages : list (gmap pystr pystr))
    (temperature : option float) (max_tokens : option Z) (model : option pystr)
    (json_mode : bool) (sent : list Request) : option pyval * list Request :=
  match api_base self, api_key self with
  | _ :: _, _ :: _ =>
      let payload :=
        {| payload_model := match model with
                            | Some (_ :: _ as m) => m
                            | _ => LLM.model self
                            end;
           payload_messages := messages;
           payload_temperature := match temperature with
                                  | Some t => if PrimFloat.eqb t 0 then LLM.temperature self
                                              else t
                                  | None => LLM.temperature self
                                  end;
           payload_max_tokens := match max_tokens with
                                 | Some n => if n =? 0 then LLM.max_tokens self else n
                                 | None => LLM.max_tokens self
                                 end;
           payload_response_format := None |} in
      let payload : option Payload :=
        if json_mode then
          if contains (py "openrouter.ai") (lower (api_base self)) then
            match with_json_instruction messages with
            | Some messages' =>
                Some {| payload_model := payload_model payload;
                        payload_messages := messages';
                        payload_temperature := payload_temperature payload;
                        payload_max_tokens := payload_max_tokens payload;
                        payload_response_format := None |}
            | None => None
            end
          else
            Some {| payload_model := payload_model payload;
                    payload_messages := messages;
                    payload_temperature := payload_temperature payload;
                    payload_max_tokens := payload_max_tokens payload;
                    payload_response_format := Some {[ py "type" := py "json_object" ]} |}
        else Some payload in
      match payload with
      | None => (None, sent)
      | Some payload =>
          let request :=
            {| url := rstrip_char 47 (api_base self) ++ py "/chat/completions";
               request_headers := _get_headers;
               json := payload |} in
          match post sent request with
          | Raise _ => (None, sent ++ [request])
          | Ok result => (content_of result, sent ++ [request])
          end
      end
  | _, _ => (None, sent)
  end.

(** [LLMClient.parse_json_response]: [json.loads] takes a string only. *)
Definition parse_json_response (response : pyval) : outcome pyval :=
  match response with
  | PStr s =>
      match json_loads s with
      | Some v => Ok v
      | None =>
          let fenced := match search_fenced s with
                        | Some g => json_loads g
                        | None => None
                        end in
          match fenced with
          | Some v => Ok v
          | None =>
              let braces := match search_braces s with
                            | Some g => json_loads g
                            | None => None
                            end in
              match braces with
              | Some v => Ok v
              | None => Ok PNone
              end
          end
      end
  | _ => Raise TypeError
  end.

(** [LLMClient.generate_structured_response] *)
Definition generate_structured_response (messages : list (gmap pystr pystr))
    (temperature : option float) (max_tokens : option Z) (model : option pystr)
    (sent : list Request) : outcome pyval * list Request :=
  match chat_completion messages temperature max_tokens model true sent with
  | (Some content, sent') =>
      if truthy content then (parse_json_response content, sent') else (Ok PNone, sent')
  | (None, sent') => (Ok PNone, sent')
  end.

End LLMClient.

End LLM.
(** ** Notions the properties are stated with *)

(** A paragraph as the chunker's loop sees it: not empty, nothing for
    [strip] to remove, and no blank line inside. *)
Definition is_paragraph (p : pystr) : Prop :=
  p <> [] /\ strip p = p /\ contains blank_line p = false.

(** The document of [test_chunk_text_paragraphs]. *)
Definition three_paragraphs : pystr :=
  py "First paragraph." ++ blank_line ++ py "Second paragraph." ++ blank_line
  ++ py "Third paragraph with some more content.".

(** The field [key] of a model output, when the output is a mapping that
    has it. *)
Definition field (response : pyval) (key : pystr) : option pyval :=
  match response with
  | PDict d => d !! key
  | _ => None
  end.

(** The first world: nothing called yet. *)
Definition fresh : world := {| llm_calls := []; searches := [] |}.

(** A backend for examples: the model answers its [n]-th call with the
    [n]-th of [replies] ([None] past the end), the store returns [hits]
    to every query, pydantic coerces nothing, [sum] adds left to right. *)
Definition scripted (replies : list (outcome pyval))
    (hits : list VectorDB.SearchResult) : Backend :=
  {| qa_prompt := py "Context: {{context}} Question: {{question}}";
     issue_summary_prompt := py "Issue: {{issue_text}}";
     router_prompt := py "Query: {{query}}";
     TOP_K := 4;
     generate_structured_response := fun n _ => nth n replies (Ok PNone);
     search := fun _ _ _ => Ok hits;
     coerce_str := fun _ => None;
     coerce_dict := fun _ => None;
     py_sum := naive_sum;
     py_repr := fun _ => py "?" |}.

(** A search hit of the store. *)
Definition hit (src : pystr) (n : Z) (txt : pystr) (d : float) : VectorDB.SearchResult :=
  VectorDB.formatted (src ++ py "_chunk_" ++ str_of_int n) txt
    {[ py "source" := PStr src; py "chunk_id" := PInt n ]} d.

(** A chunk within the maximum size, and a loop state whose chunks and
    buffer are. *)
Definition fits (chunk_size : Z) (c : Ingestion.DocumentChunk) : Prop :=
  Z.of_nat (length (Ingestion.text c)) <= chunk_size.

Definition bounded (chunk_size : Z) (st : Ingestion.chunker) : Prop :=
  Forall (fits chunk_size) (Ingestion.chunks st)
  /\ (Ingestion.current_chunk st = []
      \/ Z.of_nat (length (Ingestion.current_chunk st)) <= chunk_size).

(** The ids and metadata of [cs] are those of the counters [0 .. len-1],
    and a loop state whose counter is the number of its chunks. *)
Definition numbered (src : pystr) (cs : list Ingestion.DocumentChunk) : Prop :=
  Ingestion.chunk_id <$> cs
    = (fun n => src ++ py "_chunk_" ++ str_of_int (Z.of_nat n)) <$> seq 0 (length cs)
  /\ Ingestion.metadata <$> cs
    = (fun n => {[ py "source" := PStr src; py "chunk_id" := PInt (Z.of_nat n) ]})
        <$> seq 0 (length cs).

Definition counted (src : pystr) (st : Ingestion.chunker) : Prop :=
  Ingestion.chunk_counter st = length (Ingestion.chunks st)
  /\ numbered src (Ingestion.chunks st).

(** The model's reply of [test_route_query_invalid_tool], here with a
    question of the model's own in its tool input. *)
Definition invalid_tool_reply : gmap pystr pyval :=
  {[ py "tool" := PStr (py "invalid_tool");
     py "rationale" := PStr (py "Invalid tool choice.");
     py "tool_input" := PDict {[ py "query" := PStr (py "What changed?") ]} ]}.

(** The field [key] of what the model returned, when it returned a
    mapping that has it. *)
Definition reply_field (reply : outcome pyval) (key : pystr) : option pyval :=
  match reply with
  | Ok response => field response key
  | Raise _ => None
  end.

(** A model reply whose severity is a case mismatch and which lacks two of
    the list fields. *)
Definition mismatched_severity_reply : gmap pystr pyval :=
  {[ py "reported_issues" := PList [PStr (py "Test issue")];
     py "severity" := PStr (py "medium") ]}.

(** How an entry of a hit's metadata is shown: its value, or the
    placeholder when the key is missing. *)
Definition shown {backend : Backend} (m : gmap pystr pyval) (key : pystr) : pystr :=
  match m !! key with
  | Some v => format_value v
  | None => py "unknown"
  end.

(** A hit whose metadata lacks both keys. *)
Definition bare_hit : VectorDB.SearchResult :=
  VectorDB.formatted (py "id0") (py "Some text.") ∅ 0.2%float.

(** The store's answer in [test_answer_question_llm_failure]. *)
Definition test_hits : list VectorDB.SearchResult :=
  [hit (py "test.txt") 0 (py "Test content.") 0.2%float].

(** A hit of given similarity. *)
Definition with_similarity (s : float) : VectorDB.SearchResult :=
  {| VectorDB.id := py "id"; VectorDB.text := py "text"; VectorDB.metadata := ∅;
     VectorDB.distance := (1 - s)%float; VectorDB.similarity := s |}.

(** A hit as [VectorDB.search] formats it, at a given distance. *)
Definition at_distance (d : float) : VectorDB.SearchResult :=
  VectorDB.formatted (py "id") (py "text") ∅ d.

(** A binary64 value that is a zero or a finite number. *)
Definition finite_value (x : spec_float) : Prop :=
  match x with
  | S754_zero _ | S754_finite _ _ _ => True
  | _ => False
  end.

(** Results whose similarities are finite numbers. *)
Definition finite_similarities (hits : list VectorDB.SearchResult) : Prop :=
  Forall (fun r => PrimFloat.is_finite (VectorDB.similarity r) = true) hits.

(** An answer of the collection whose distances, when it has any, are
    finite and not negative. *)
Definition metric_distances (results : Store.QueryResult) : Prop :=
  match Store.result_distances results with
  | Some rows =>
      Forall (Forall (fun d => PrimFloat.is_finite d = true
                               /\ PrimFloat.leb 0 d = true)) rows
  | None => True
  end.

(** A [sum] that makes a number of finite numbers: it may round, and
    overflow to an infinity, but it does not return NaN. *)
Definition sum_of_numbers (sum : list float -> float) : Prop :=
  forall l, Forall (fun x => PrimFloat.is_finite x = true) l ->
            PrimFloat.is_nan (sum l) = false.

(** The characters of a text that are not whitespace, in order. *)
Definition visible (s : pystr) : pystr := filter (fun c => isspace c = false) s.

(** A string that [strip] leaves as it is. *)
Definition stripped (s : pystr) : Prop := lstrip s = s /\ rstrip s = s.

(** What a loop state holds: the texts of its chunks, then its buffer. *)
Definition collected (st : Ingestion.chunker) : pystr :=
  concat (Ingestion.text <$> Ingestion.chunks st) ++ Ingestion.current_chunk st.

(** The [id] entries of a list of chunk records. *)
Definition record_ids (records : list (gmap pystr pyval)) : list (option pyval) :=
  (fun r => r !! py "id") <$> records.

(** A document that can be read and holds more than whitespace. *)
Definition has_content {fs : FileSystem} (doc_path : pystr) : bool :=
  match read_file doc_path with
  | Some content => negb (forallb isspace content)
  | None => false
  end.

(** A store nothing has been done with. *)
Definition empty_store : Store.store :=
  {| Store.encode_calls := []; Store.add_calls := []; Store.query_calls := [] |}.

(** A file system for examples: the files are the ones listed, with their
    contents; a name is what follows the last slash. *)
Fixpoint until_slash (s : pystr) : pystr :=
  match s with
  | [] => []
  | c :: s' => if (c =? 47)%N then [] else c :: until_slash s'
  end.

Definition listed (files : list (pystr * pystr)) : FileSystem :=
  {| path_name := fun p => reverse (until_slash (reverse p));
     path_join := fun a b => a ++ py "/" ++ b;
     path_exists := fun p => Ok (bool_decide (p ∈ files.*1));
     read_text := fun p =>
       match (list_to_map files : gmap pystr pystr) !! p with
       | Some content => Ok content
       | None => Raise BackendError
       end |}.

(** A collection for examples: every text gets the same one-number
    embedding, every batch is taken, every query finds nothing. *)
Definition accepting : Store.Chroma :=
  {| Store.encode := fun _ texts => Ok ((fun _ => [0%float]) <$> texts);
     Store.collection_add := fun _ _ => Ok tt;
     Store.collection_query := fun _ _ _ =>
       Ok {| Store.result_ids := [[]]; Store.result_documents := None;
             Store.result_metadatas := None; Store.result_distances := None |} |}.

(** Two reports of the same name in two directories, and a blank file. *)
Definition two_reports : list (pystr * pystr) :=
  [(py "a/report.txt", py "Login fails.");
   (py "b/report.txt", py "Export is slow.");
   (py "c/blank.txt", py "   ")].

(** A chunk record without its text, after a well-formed one. *)
Definition broken_batch : list (gmap pystr pyval) :=
  [ {[ py "id" := PStr (py "a_chunk_0"); py "text" := PStr (py "Login fails.");
       py "metadata" := PDict ∅ ]};
    {[ py "id" := PStr (py "a_chunk_1"); py "metadata" := PDict ∅ ]} ].

(** Two well-formed chunk records. *)
Definition sound_batch : list (gmap pystr pyval) :=
  [ {[ py "id" := PStr (py "a_chunk_0"); py "text" := PStr (py "Login fails.");
       py "metadata" := PDict ∅ ]};
    {[ py "id" := PStr (py "a_chunk_1"); py "text" := PStr (py "Export is slow.");
       py "metadata" := PDict ∅ ]} ].

(** The number of results a search asks the collection for:
    [top_k or config.TOP_K]. *)
Definition asked (TOP_K : Z) (top_k : option Z) : Z :=
  match top_k with
  | Some k => if k =? 0 then TOP_K else k
  | None => TOP_K
  end.

(** A collection for examples that answers every query with two ids but
    the documents of one only. *)
Definition misaligned : Store.Chroma :=
  {| Store.encode := fun _ texts => Ok ((fun _ => [0%float]) <$> texts);
     Store.collection_add := fun _ _ => Ok tt;
     Store.collection_query := fun _ _ _ =>
       Ok {| Store.result_ids := [[py "a_chunk_0"; py "a_chunk_1"]];
             Store.result_documents := Some [[py "Login fails."]];
             Store.result_metadatas := None; Store.result_distances := None |} |}.

(** The answer of the Q&A tool when something raised. *)
Definition error_answer (q : pystr) : QAAnswer :=
  {| query := q; answer := PROCESSING_ERROR; sources := []; confidence := 0%float |}.

(** The prompt [answer_question] sends for a question and the hits found
    for it. *)
Definition qa_prompt_for {backend : Backend} (q : pystr)
    (hits : list VectorDB.SearchResult) : pystr :=
  replace (py "{{context}}") (_format_context hits)
    (replace (py "{{question}}") q qa_prompt).

(** A model call that gave the tool nothing to work with: it raised, or
    it returned an empty value. *)
Definition gave_nothing (reply : outcome pyval) : Prop :=
  match reply with
  | Ok response => truthy response = false
  | Raise _ => True
  end.

(** From [w] to [w'] at most [max_llm] calls to the model and
    [max_search] searches were made, and nothing else changed. *)
Definition calls_within (w w' : world) (max_llm max_search : nat) : Prop :=
  exists prompts queries,
    llm_calls w' = llm_calls w ++ prompts
    /\ searches w' = searches w ++ queries
    /\ (length prompts <= max_llm)%nat
    /\ (length queries <= max_search)%nat.

(** A model output that is something, but not a mapping. *)
Definition not_a_mapping (response : pyval) : bool :=
  truthy response && match response with PDict _ => false | _ => true end.

(** A computation that, from any world and however it ends, makes at most
    [max_llm] calls to the model and [max_search] searches. *)
Definition costs {A : Type} (m : M A) (max_llm max_search : nat) : Prop :=
  forall w o w', m w = (o, w') -> calls_within w w' max_llm max_search.

(** A model output with an answer, and one whose answer is a number. *)
Definition answer_reply : gmap pystr pyval :=
  {[ py "answer" := PStr (py "Restart the service.") ]}.

Definition number_reply : gmap pystr pyval := {[ py "answer" := PInt 42 ]}.

(** The summary of the issue tool when nothing could be extracted. *)
Definition empty_summary (issue_text : pystr) : IssueSummary :=
  {| raw_text := issue_text; reported_issues := []; affected_components := [];
     severity := py "Low"; suggestions := [] |}.

(** The prompt [_route_query] sends for a query. *)
Definition router_prompt_for {backend : Backend} (q : pystr) : pystr :=
  replace (py "{{query}}") q router_prompt.

(** [tool_input] with [key] set to the query when the model left it out. *)
Definition backfilled (key q : pystr) (ti : gmap pystr pyval) : gmap pystr pyval :=
  if bool_decide (is_Some (ti !! key)) then ti else <[key := PStr q]> ti.

(** The last resort of [process_query]. *)
Definition fallback_response (q : pystr) : RouterResponse :=
  {| decision := {| tool := py "qa";
                    rationale := py "Error occurred, falling back to QA tool.";
                    tool_input := {[ py "query" := PStr q ]} |};
     result := inl (error_answer q) |}.

(** A router output that sends an issue text of the model's own to the
    issue tool, and one that hands the Q&A tool a number as its query. *)
Definition issue_route_reply : gmap pystr pyval :=
  {[ py "tool" := PStr (py "issue_summary");
     py "rationale" := PStr (py "The user reports a problem.");
     py "tool_input" := PDict {[ py "issue_text" := PStr (py "Login fails.") ]} ]}.

Definition number_query_reply : gmap pystr pyval :=
  {[ py "tool" := PStr (py "qa");
     py "tool_input" := PDict {[ py "query" := PInt 7 ]} ]}.

(** An environment that sets the OpenAI variables only. *)
Definition openai_only : gmap pystr pystr :=
  {[ py "OPENAI_API_BASE" := py "https://api.openai.com/v1";
     py "OPENAI_API_KEY" := py "sk-test";
     py "OPENAI_MODEL" := py "gpt-4o-mini" ]}.

(** A transport for examples: ASCII lower case, a server that answers
    every request with the same body, no JSON parser. *)
Definition canned (body : pyval) : LLM.Transport :=
  {| LLM.lower := fun s =>
       (fun c => if ((65 <=? c) && (c <=? 90))%N then (c + 32)%N else c) <$> s;
     LLM.post := fun _ _ => Ok body;
     LLM.json_loads := fun _ => None;
     LLM.search_fenced := fun _ => None;
     LLM.search_braces := fun _ => None |}.

(** The body of a reply whose content is a list of parts, not a string. *)
Definition content_parts_body : pyval :=
  PDict {[ py "choices" :=
             PList [PDict {[ py "message" :=
               PDict {[ py "content" :=
                 PList [PDict {[ py "type" := PStr (py "text");
                                 py "text" := PStr (py "{}") ]}] ]} ]}] ]}.

(** The message the tools send: one user message with the prompt. *)
Definition user_message (prompt : pystr) : gmap pystr pystr :=
  {[ py "role" := py "user"; py "content" := prompt ]}.

(** * Part II: the properties *)

Import Ingestion.

(** ** The chunker *)

Lemma length_lstrip (s : pystr) : (length (lstrip s) <= length s)%nat.
Proof.
  induction s as [|c s IH]; simpl; [lia|].
  destruct (isspace c); simpl; lia.
Qed.

Lemma length_strip (s : pystr) : (length (strip s) <= length s)%nat.
Proof.
  unfold strip, rstrip. rewrite length_reverse.
  etransitivity; [apply length_lstrip|].
  rewrite length_reverse. apply length_lstrip.
Qed.

Lemma length_slice (s : pystr) (i n : Z) :
  0 <= i -> 0 < n -> Z.of_nat (length (slice s i (i + n))) <= n.
Proof.
  intros Hi Hn. unfold slice, slice_bound.
  rewrite length_take, length_drop.
  destruct (Z.ltb_spec i 0), (Z.ltb_spec (i + n) 0); lia.
Qed.

Lemma range_from_zero (hi step : Z) :
  match range 0 hi step with
  | Ok idx => step <> 0 /\ (0 < step -> Forall (fun i => 0 <= i) idx)
              /\ (step < 0 -> 0 <= hi -> idx = [])
  | Raise _ => step = 0
  end.
Proof.
  unfold range. destruct (Z.eqb_spec step 0) as [->|Hne]; [done|].
  split; [done|]. split.
  - intros Hpos. apply Forall_fmap, Forall_forall. intros k _. simpl. nia.
  - intros Hneg Hhi. unfold range_len.
    replace (0 <? step) with false by (symmetry; apply Z.ltb_ge; lia).
    replace (hi <? 0) with false by (symmetry; apply Z.ltb_ge; lia).
    rewrite andb_false_r. done.
Qed.

Section ChunkerInvariants.
Variable chunk_size : Z.
Variable src : pystr.

(** Any property of the loop state kept by one iteration is kept by the
    whole loop. *)
Lemma chunk_loop_invariant (I : chunker -> Prop) (ps : list pystr) :
  (forall st p st', I st -> chunk_step chunk_size src st p = Ok st' -> I st') ->
  forall st st', I st -> chunk_loop chunk_size src st ps = Ok st' -> I st'.
Proof.
  intros Hstep. induction ps as [|p ps IH]; intros st st' HI; simpl.
  - intros [= <-]. done.
  - destruct (chunk_step chunk_size src st p) as [st1|e] eqn:E; [|done].
    intros Hloop. eapply IH; [|exact Hloop]. eauto.
Qed.

(** The loop raises only through [range], that is only for a zero step. *)
Lemma chunk_step_raise (st : chunker) (p : pystr) (e : exn) :
  chunk_step chunk_size src st p = Raise e -> chunk_size = 0.
Proof.
  unfold chunk_step. destruct (strip p) as [|c q] eqn:Ep; [done|].
  destruct (_ >? chunk_size).
  - pose proof (range_from_zero (Z.of_nat (length (c :: q))) chunk_size) as Hr.
    destruct (range _ _ _) as [idx|e']; [|done].
    destruct (emit_slices _ _ _ _ _ _). done.
  - destruct (_ >? chunk_size); [done|]. by destruct (current_chunk st).
Qed.

Lemma chunk_loop_raise (ps : list pystr) (st : chunker) (e : exn) :
  chunk_loop chunk_size src st ps = Raise e -> chunk_size = 0.
Proof.
  revert st. induction ps as [|p ps IH]; intros st; simpl; [done|].
  destruct (chunk_step chunk_size src st p) as [st1|e'] eqn:E.
  - apply IH.
  - intros _. eapply chunk_step_raise, E.
Qed.

(** ** Size bound *)

Lemma flush_fits (st : chunker) :
  bounded chunk_size st -> Forall (fits chunk_size) (chunks (flush src st)).
Proof.
  intros [Hcs Hcur]. unfold flush.
  destruct (current_chunk st) as [|c q] eqn:E; [done|]. simpl.
  apply Forall_app. split; [done|]. apply Forall_singleton.
  unfold fits. simpl. destruct Hcur as [|Hle]; [done|].
  pose proof (length_strip (c :: q)). lia.
Qed.

Lemma emit_slices_fits (p : pystr) (idx : list Z) (cs : list DocumentChunk) (n : nat) :
  0 < chunk_size -> Forall (fun i => 0 <= i) idx -> Forall (fits chunk_size) cs ->
  Forall (fits chunk_size) (emit_slices chunk_size src p idx cs n).1.
Proof.
  intros Hpos. revert cs n. induction idx as [|i idx IH]; intros cs n Hidx Hcs; simpl; [done|].
  inversion Hidx; subst. apply IH; [done|].
  apply Forall_app. split; [done|]. apply Forall_singleton.
  unfold fits. simpl. by apply length_slice.
Qed.

Lemma chunk_step_bounded (st : chunker) (p : pystr) (st' : chunker) :
  bounded chunk_size st -> chunk_step chunk_size src st p = Ok st' -> bounded chunk_size st'.
Proof.
  intros Hb. pose proof (flush_fits st Hb) as Hfl. destruct Hb as [Hcs Hcur].
  unfold chunk_step. destruct (strip p) as [|c q] eqn:Ep; [by intros [= <-]|].
  destruct (Z.gtb_spec (Z.of_nat (length (c :: q))) chunk_size) as [Hbig|Hsmall].
  - pose proof (range_from_zero (Z.of_nat (length (c :: q))) chunk_size) as Hr.
    destruct (range _ _ _) as [idx|e]; [|done].
    destruct Hr as (Hne & Hpos & Hneg).
    destruct (emit_slices _ _ _ _ _ _) as [cs n] eqn:Es. intros [= <-].
    split; simpl; [|by left].
    destruct (Z.lt_trichotomy chunk_size 0) as [Hlt|[?|Hgt]]; [|done|].
    + rewrite Hneg in Es by lia. simpl in Es. by injection Es as <- <-.
    + change cs with (cs, n).1. rewrite <- Es. by apply emit_slices_fits; auto.
  - destruct (Z.gtb_spec (Z.of_nat (length (current_chunk st))
                          + Z.of_nat (length (c :: q)) + 2) chunk_size) as [Hfull|Hroom].
    + intros [= <-]. split; simpl; [done|right; simpl in *; lia].
    + destruct (current_chunk st) as [|d r] eqn:Ec; intros [= <-]; split; simpl; try done.
      * right. simpl in *. lia.
      * right. rewrite !length_app. simpl in *. lia.
Qed.

(** ** Numbering *)

Lemma numbered_snoc (cs : list DocumentChunk) (txt : pystr) :
  numbered src cs -> numbered src (cs ++ [emit txt src (length cs)]).
Proof.
  intros [Hid Hmeta]. unfold numbered.
  rewrite !fmap_app, length_app, seq_app, !fmap_app, <- Hid, <- Hmeta.
  done.
Qed.

Lemma flush_counted (st : chunker) : counted src st -> counted src (flush src st).
Proof.
  intros [Hn Hcs]. unfold flush. destruct (current_chunk st); [done|].
  split; simpl.
  - rewrite length_app. simpl. lia.
  - rewrite Hn. by apply numbered_snoc.
Qed.

Lemma emit_slices_counted (p : pystr) (idx : list Z) (cs : list DocumentChunk) (n : nat) :
  n = length cs -> numbered src cs ->
  (emit_slices chunk_size src p idx cs n).2 = length (emit_slices chunk_size src p idx cs n).1
  /\ numbered src (emit_slices chunk_size src p idx cs n).1.
Proof.
  revert cs n. induction idx as [|i idx IH]; intros cs n -> Hcs; simpl; [done|].
  apply IH.
  - rewrite length_app. simpl. lia.
  - by apply numbered_snoc.
Qed.

Lemma chunk_step_counted (st : chunker) (p : pystr) (st' : chunker) :
  counted src st -> chunk_step chunk_size src st p = Ok st' -> counted src st'.
Proof.
  intros Hc. pose proof (flush_counted st Hc) as [Hfn Hfc]. destruct Hc as [Hn Hcs].
  unfold chunk_step. destruct (strip p) as [|c q]; [by intros [= <-]|].
  destruct (_ >? chunk_size).
  - destruct (range _ _ _) as [idx|e]; [|done].
    pose proof (emit_slices_counted (c :: q) idx _ _ Hfn Hfc) as He.
    destruct (emit_slices _ _ _ _ _ _) as [cs n]. by intros [= <-].
  - destruct (_ >? chunk_size); [by intros [= <-]|].
    by destruct (current_chunk st); intros [= <-].
Qed.
End ChunkerInvariants.

(** C6. Every chunk that [chunk_text] produces, for any text, source name
    and configured maximum, has a text no longer than the maximum, the
    hard-split slices of an oversized paragraph included. The call fails
    only when the configured maximum is zero (the step of [range]), and
    then produces no chunk at all. *)
Theorem chunk_text_size_bound (chunk_size : Z) (txt src : pystr) :
  match chunk_text chunk_size txt src with
  | Ok cs => Forall (fun c => Z.of_nat (length (text c)) <= chunk_size) cs
  | Raise _ => chunk_size = 0
  end.
Proof.
  unfold chunk_text.
  destruct (chunk_loop _ _ _ _) as [st|e] eqn:E.
  - apply (flush_fits chunk_size src).
    eapply (chunk_loop_invariant chunk_size src (bounded chunk_size)); [|split|exact E].
    + apply chunk_step_bounded.
    + simpl. constructor.
    + by left.
  - eapply chunk_loop_raise, E.
Qed.

(** C7. The chunks that [chunk_text] returns carry, in emission order, the
    ids [source_chunk_0 .. source_chunk_(N-1)] and the metadata
    [{source, chunk_id: n}] with the numeric counter [n]; the call fails
    only for a zero maximum. *)
Theorem chunk_text_ids_consecutive (chunk_size : Z) (txt src : pystr) :
  match chunk_text chunk_size txt src with
  | Ok cs =>
      chunk_id <$> cs
        = (fun n => src ++ py "_chunk_" ++ str_of_int (Z.of_nat n)) <$> seq 0 (length cs)
      /\ metadata <$> cs
        = (fun n => {[ py "source" := PStr src; py "chunk_id" := PInt (Z.of_nat n) ]})
            <$> seq 0 (length cs)
  | Raise _ => chunk_size = 0
  end.
Proof.
  unfold chunk_text.
  destruct (chunk_loop _ _ _ _) as [st|e] eqn:E.
  - apply (flush_counted src).
    eapply (chunk_loop_invariant chunk_size src (counted src)); [|split|exact E].
    + apply chunk_step_counted.
    + done.
    + done.
  - eapply chunk_loop_raise, E.
Qed.

(** ** Paragraphs that share one chunk *)

Lemma lstrip_length_eq (s : pystr) : length (lstrip s) = length s -> lstrip s = s.
Proof.
  destruct s as [|c s]; simpl; [done|].
  destruct (isspace c); [|done].
  pose proof (length_lstrip s). lia.
Qed.

Lemma strip_fixed (s : pystr) : strip s = s -> lstrip s = s /\ rstrip s = s.
Proof.
  intros Hs.
  assert (lstrip s = s) as Hl.
  { apply lstrip_length_eq. apply Nat.le_antisymm; [apply length_lstrip|].
    rewrite <- Hs at 1. unfold strip, rstrip. rewrite length_reverse.
    etransitivity; [apply length_lstrip|]. by rewrite length_reverse. }
  split; [done|]. unfold strip in Hs. by rewrite Hl in Hs.
Qed.

Lemma lstrip_app (a b : pystr) : a <> [] -> lstrip a = a -> lstrip (a ++ b) = a ++ b.
Proof.
  destruct a as [|c a]; [done|]. intros _. simpl.
  destruct (isspace c); [|done].
  intros H. pose proof (length_lstrip a) as Hlen. rewrite H in Hlen. simpl in Hlen. lia.
Qed.

Lemma rstrip_app (a b : pystr) : b <> [] -> rstrip b = b -> rstrip (a ++ b) = a ++ b.
Proof.
  intros Hb Hr. unfold rstrip in *. rewrite reverse_app, lstrip_app.
  - by rewrite <- reverse_app, reverse_involutive.
  - intros H. apply (f_equal reverse) in H. rewrite reverse_involutive in H. done.
  - apply (f_equal reverse) in Hr. by rewrite reverse_involutive in Hr.
Qed.

Lemma rstrip_not_newline (p : pystr) : p <> [] -> rstrip p = p -> last p <> Some 10%N.
Proof.
  intros Hp Hr. destruct p as [|c p] using rev_ind; [done|].
  rewrite last_snoc. intros [= ->].
  unfold rstrip in Hr. rewrite reverse_snoc in Hr. simpl in Hr.
  apply (f_equal length) in Hr. rewrite length_reverse, length_app in Hr.
  pose proof (length_lstrip (reverse p)) as Hlen. rewrite length_reverse in Hlen.
  simpl in Hr. lia.
Qed.

Lemma contains_cons (sub : pystr) (c : N) (s : pystr) :
  contains sub (c :: s) = false -> startswith sub (c :: s) = false /\ contains sub s = false.
Proof. simpl. intros H. apply orb_false_elim in H. done. Qed.

Lemma startswith_blank_line (s : pystr) :
  startswith blank_line s
  = match s with a :: b :: _ => (10 =? a)%N && (10 =? b)%N | _ => false end.
Proof.
  unfold blank_line. destruct s as [|a [|b r]]; cbn [startswith];
    rewrite ?andb_true_r, ?andb_false_r; reflexivity.
Qed.

Lemma split_scan_piece (p rest cur : pystr) :
  contains blank_line p = false -> last p <> Some 10%N ->
  split_scan blank_line (p ++ blank_line ++ rest) 0 cur
  = (reverse cur ++ p) :: split_scan blank_line rest 0 [].
Proof.
  revert cur. induction p as [|c p IH]; intros cur Hc Hl.
  - simpl. by rewrite app_nil_r.
  - apply contains_cons in Hc as [Hs Hc].
    assert (startswith blank_line ((c :: p) ++ blank_line ++ rest) = false) as Hs'.
    { rewrite startswith_blank_line in *. destruct p as [|d p]; [|done].
      cbn [app]. destruct (N.eqb_spec 10 c) as [<-|]; done. }
    change (split_scan blank_line ((c :: p) ++ blank_line ++ rest) 0 cur)
      with (if startswith blank_line ((c :: p) ++ blank_line ++ rest)
            then reverse cur
                 :: split_scan blank_line (p ++ blank_line ++ rest) (length blank_line - 1) []
            else split_scan blank_line (p ++ blank_line ++ rest) 0 (c :: cur)).
    rewrite Hs', IH.
    + by rewrite reverse_cons, <- app_assoc.
    + done.
    + destruct p; [done|]. by rewrite last_cons_cons in Hl.
Qed.

Lemma split_scan_whole (p cur : pystr) :
  contains blank_line p = false -> split_scan blank_line p 0 cur = [reverse cur ++ p].
Proof.
  revert cur. induction p as [|c p IH]; intros cur Hc.
  - simpl. by rewrite app_nil_r.
  - apply contains_cons in Hc as [Hs Hc].
    change (split_scan blank_line (c :: p) 0 cur)
      with (if startswith blank_line (c :: p)
            then reverse cur :: split_scan blank_line p (length blank_line - 1) []
            else split_scan blank_line p 0 (c :: cur)).
    rewrite Hs, IH by done. by rewrite reverse_cons, <- app_assoc.
Qed.

Lemma split_three_paragraphs (p1 p2 p3 : pystr) :
  is_paragraph p1 -> is_paragraph p2 -> is_paragraph p3 ->
  split blank_line (p1 ++ blank_line ++ p2 ++ blank_line ++ p3) = [p1; p2; p3].
Proof.
  intros (N1 & S1 & C1) (N2 & S2 & C2) (N3 & S3 & C3).
  apply strip_fixed in S1 as [_ R1]. apply strip_fixed in S2 as [_ R2].
  unfold split.
  rewrite split_scan_piece by auto using rstrip_not_newline.
  rewrite split_scan_piece by auto using rstrip_not_newline.
  by rewrite split_scan_whole.
Qed.

Lemma strip_between (a m b : pystr) :
  a <> [] -> lstrip a = a -> b <> [] -> rstrip b = b ->
  strip (a ++ m ++ b) = a ++ m ++ b.
Proof.
  intros Ha La Hb Rb. unfold strip.
  rewrite lstrip_app by done. rewrite app_assoc. rewrite rstrip_app by done. done.
Qed.

(** A paragraph that fits next to the buffer is appended to it. *)
Lemma chunk_step_append (chunk_size : Z) (src : pystr) (st : chunker) (p : pystr) :
  is_paragraph p ->
  Z.of_nat (length (current_chunk st)) + Z.of_nat (length p) + 2 <= chunk_size ->
  chunk_step chunk_size src st p
  = Ok {| chunks := chunks st;
          current_chunk := match current_chunk st with
                           | [] => p
                           | _ :: _ => current_chunk st ++ blank_line ++ p
                           end;
          chunk_counter := chunk_counter st |}.
Proof.
  intros (Hne & Hs & _) Hroom. unfold chunk_step. rewrite Hs.
  destruct p as [|c q]; [done|].
  destruct (Z.gtb_spec (Z.of_nat (length (c :: q))) chunk_size); [lia|].
  destruct (Z.gtb_spec (Z.of_nat (length (current_chunk st))
                        + Z.of_nat (length (c :: q)) + 2) chunk_size); [lia|].
  by destruct (current_chunk st).
Qed.

Lemma flush_nonempty (src : pystr) (cs : list DocumentChunk) (cur : pystr) (n : nat) :
  cur <> [] ->
  chunks (flush src {| chunks := cs; current_chunk := cur; chunk_counter := n |})
  = cs ++ [emit (strip cur) src n].
Proof. unfold flush. by destruct cur. Qed.

(** C3, as the code has it. Three short paragraphs separated by blank
    lines whose joined length (the two 2-character separators included)
    is within the maximum chunk size share ONE chunk: its text is the
    three paragraphs joined by blank lines, its id is [source_chunk_0]
    and its counter is 0. *)
Theorem three_short_paragraphs_one_chunk
    (chunk_size : Z) (p1 p2 p3 src : pystr) :
  is_paragraph p1 -> is_paragraph p2 -> is_paragraph p3 ->
  Z.of_nat (length p1 + length p2 + length p3 + 4) <= chunk_size ->
  chunk_text chunk_size (p1 ++ blank_line ++ p2 ++ blank_line ++ p3) src
  = Ok [ {| text := p1 ++ blank_line ++ p2 ++ blank_line ++ p3;
            source := src;
            chunk_id := src ++ py "_chunk_0";
            metadata := {[ py "source" := PStr src; py "chunk_id" := PInt 0 ]} |} ].
Proof.
  intros H1 H2 H3 Hlen. unfold chunk_text.
  rewrite split_three_paragraphs by done. cbn [chunk_loop].
  rewrite (chunk_step_append _ _ _ p1) by (cbn; try done; lia).
  cbn [current_chunk chunks chunk_counter].
  rewrite (chunk_step_append _ _ _ p2) by (cbn [current_chunk]; try done; lia).
  cbn [current_chunk chunks chunk_counter].
  destruct H1 as (N1 & S1 & C1). destruct H3 as (N3 & S3 & C3).
  apply strip_fixed in S1 as [L1 _]. pose proof S3 as S3'.
  apply strip_fixed in S3' as [_ R3].
  destruct p1 as [|c1 q1] eqn:E1; [done|]. rewrite <- E1 in *.
  assert (p1 ++ blank_line ++ p2 <> []) as N12 by (rewrite E1; done).
  rewrite (chunk_step_append _ _ _ p3).
  - cbn [current_chunk chunks chunk_counter].
    destruct (p1 ++ blank_line ++ p2) as [|d r] eqn:E12; [done|]. rewrite <- E12.
    rewrite flush_nonempty by (rewrite E12; done).
    replace ((p1 ++ blank_line ++ p2) ++ blank_line ++ p3)
      with (p1 ++ (blank_line ++ p2 ++ blank_line) ++ p3)
      by (by rewrite <- !app_assoc).
    rewrite strip_between by done. by rewrite <- !app_assoc.
  - done.
  - cbn [current_chunk]. rewrite E1 at 1. rewrite <- E1.
    rewrite !length_app. unfold blank_line. simpl length. lia.
Qed.

(** The scenario at the default maximum, on the document of the test. *)
Lemma three_short_paragraphs_one_chunk_witness :
  chunk_text MAX_CHUNK_CHARS three_paragraphs (py "test_source")
  = Ok [ {| text := three_paragraphs;
            source := py "test_source";
            chunk_id := py "test_source" ++ py "_chunk_0";
            metadata := {[ py "source" := PStr (py "test_source");
                           py "chunk_id" := PInt 0 ]} |} ].
Proof.
  apply (three_short_paragraphs_one_chunk MAX_CHUNK_CHARS
           (py "First paragraph.") (py "Second paragraph.")
           (py "Third paragraph with some more content.") (py "test_source"));
    try (split; [discriminate | split; vm_compute; reflexivity]).
  vm_compute. discriminate.
Defined.

(** C3, as the specification words it, fails: the three short paragraphs
    of the test do not come out as three chunks. *)
Lemma three_paragraphs_not_three_chunks :
  ~ exists c0 c1 c2 : DocumentChunk,
      chunk_text MAX_CHUNK_CHARS three_paragraphs (py "test_source") = Ok [c0; c1; c2].
Proof.
  intros (c0 & c1 & c2 & H).
  assert (length <$> (match chunk_text MAX_CHUNK_CHARS three_paragraphs (py "test_source") with
                      | Ok cs => Some cs | Raise _ => None end) = Some 1%nat) as Hone
    by (vm_compute; reflexivity).
  rewrite H in Hone. discriminate.
Qed.

(** ** Exceptions and handlers *)

Section Handlers.

Context {backend : Backend}.

Lemma new_QAAnswer_str (q a : pystr) (srcs : list pystr) (c : float) :
  new_QAAnswer (PStr q) (PStr a) srcs c
  = Ok {| query := q; answer := a; sources := srcs; confidence := c |}.
Proof. reflexivity. Qed.

Lemma new_IssueSummary_empty (raw : pystr) (sev : pystr) :
  new_IssueSummary (PStr raw) (PList []) (PList []) sev (PList [])
  = Ok {| raw_text := raw; reported_issues := []; affected_components := [];
          severity := sev; suggestions := [] |}.
Proof. reflexivity. Qed.

Lemma new_RouterDecision_str (t r : pystr) (ti : gmap pystr pyval) :
  new_RouterDecision (PStr t) (PStr r) (PDict ti)
  = Ok {| tool := t; rationale := r; tool_input := ti |}.
Proof. reflexivity. Qed.

Lemma lift_bind {A B : Type} (r : outcome A) (k : A -> M B) (w : world) :
  (lift r ≫= k) w = match r with Ok a => k a w | Raise e => (Raise e, w) end.
Proof. unfold mbind, M_bind, lift. by destruct r. Qed.

Lemma call_llm_bind {B : Type} (prompt : pystr) (k : pyval -> M B) (w : world) :
  (call_llm prompt ≫= k) w
  = let w1 := {| llm_calls := llm_calls w ++ [prompt]; searches := searches w |} in
    match generate_structured_response (length (llm_calls w)) prompt with
    | Ok v => k v w1
    | Raise e => (Raise e, w1)
    end.
Proof. unfold mbind, M_bind, call_llm. by destruct (generate_structured_response _ _). Qed.

Lemma call_search_bind {B : Type} (q : pyval) (k : list VectorDB.SearchResult -> M B)
    (w : world) :
  (call_search q ≫= k) w
  = let w1 := {| llm_calls := llm_calls w; searches := searches w ++ [q] |} in
    match search (length (searches w)) q TOP_K with
    | Ok hits => k hits w1
    | Raise e => (Raise e, w1)
    end.
Proof. unfold mbind, M_bind, call_search. by destruct (search _ _ _). Qed.

Lemma new_QAAnswer_Ok (q : pystr) (a : pyval) (srcs : list pystr) (c : float)
    (r : QAAnswer) :
  new_QAAnswer (PStr q) a srcs c = Ok r ->
  query r = q /\ str_field a = Ok (answer r) /\ sources r = srcs /\ confidence r = c.
Proof.
  unfold new_QAAnswer. cbn [str_field mbind outcome_bind].
  destruct (str_field a); [|done]. by intros [= <-].
Qed.

End Handlers.


(** ** The router *)

Section Router.

Context {backend : Backend}.

Lemma qa_not_issue_summary : py "qa" <> py "issue_summary".
Proof. vm_compute. discriminate. Qed.

(** The tool after [if tool not in ["qa", "issue_summary"]: tool = "qa"]. *)
Lemma validated_tool (t : pyval) :
  exists s,
    (if in_strs t [py "qa"; py "issue_summary"] then t else PStr (py "qa")) = PStr s
    /\ (s = py "qa" \/ s = py "issue_summary")
    /\ (s = py "issue_summary" -> t = PStr (py "issue_summary")).
Proof.
  pose proof qa_not_issue_summary as Hne.
  unfold in_strs, existsb, is_str.
  assert (exists s, PStr (py "qa") = PStr s /\ (s = py "qa" \/ s = py "issue_summary")
                    /\ (s = py "issue_summary" -> t = PStr (py "issue_summary"))) as Hqa.
  { exists (py "qa"). split; [done|]. split; [by left|]. intros H. by destruct (Hne H). }
  destruct t as [|b|z|f|s0|l|d]; try exact Hqa.
  destruct (bool_decide_reflect (s0 = py "qa")) as [->|H1]; [exact Hqa|].
  destruct (bool_decide_reflect (s0 = py "issue_summary")) as [->|H2]; [|exact Hqa].
  exists (py "issue_summary"). cbn [orb]. by auto.
Qed.

Lemma new_RouterDecision_Ok (s : pystr) (r ti : pyval) (d : RouterDecision) :
  new_RouterDecision (PStr s) r ti = Ok d ->
  tool d = s /\ str_field r = Ok (rationale d) /\ dict_field ti = Ok (tool_input d).
Proof.
  unfold new_RouterDecision. cbn [str_field mbind outcome_bind].
  destruct (str_field r); [|done]. destruct (dict_field ti); [|done].
  by intros [= <-].
Qed.

Ltac fallback_decision :=
  unfold lift; rewrite new_RouterDecision_str; eexists;
  split; [reflexivity|]; cbn [tool]; by left.

(** [_route_query] calls the model once and returns a decision; the
    decision names [issue_summary] only if the model's reply did. *)
Lemma route_query_returns (q : pystr) (w : world) :
  let prompt := replace (py "{{query}}") q router_prompt in
  let reply := generate_structured_response (length (llm_calls w)) prompt in
  exists d,
    _route_query q w
    = (Ok d, {| llm_calls := llm_calls w ++ [prompt]; searches := searches w |})
    /\ (tool d = py "qa"
        \/ (tool d = py "issue_summary"
            /\ reply_field reply (py "tool") = Some (PStr (py "issue_summary")))).
Proof.
  pose proof qa_not_issue_summary as Hne. cbv zeta.
  unfold _route_query, try_except. rewrite call_llm_bind. cbv zeta.
  destruct (generate_structured_response _ _) as [response|e] eqn:Hllm;
    [|fallback_decision].
  destruct (truthy response); cbn [negb]; [|fallback_decision].
  rewrite lift_bind.
  destruct (py_get response (py "tool") (PStr (py "qa"))) as [t|e] eqn:Ht;
    [|fallback_decision].
  destruct (validated_tool t) as (s & -> & Hs & Hissue).
  rewrite lift_bind. destruct (py_get response (py "tool_input") _); [|fallback_decision].
  rewrite lift_bind. destruct (if is_str (py "qa") (PStr s) then _ else _);
    [|fallback_decision].
  rewrite lift_bind. destruct (py_get response (py "rationale") _) as [r|];
    [|fallback_decision].
  unfold lift at 1.
  destruct (new_RouterDecision (PStr s) r _) as [d|] eqn:Hd; [|fallback_decision].
  apply new_RouterDecision_Ok in Hd as (Htool & _ & _).
  eexists. split; [reflexivity|]. rewrite Htool.
  destruct Hs as [-> | ->]; [by left|right]. split; [done|].
  specialize (Hissue eq_refl). subst t.
  destruct response as [|?|?|?|?|?|d0]; try done.
  unfold py_get in Ht. unfold reply_field, field.
  destruct (d0 !! py "tool") as [t'|]; cbn [default from_option id] in Ht.
  - by injection Ht as ->.
  - injection Ht as Ht. by destruct Hne.
Qed.

Lemma backfill_dict (key q : pystr) (m : gmap pystr pyval) :
  backfill key q (PDict m)
  = Ok (PDict (if bool_decide (is_Some (m !! key)) then m else <[key := PStr q]> m)).
Proof.
  unfold backfill, py_in, py_setitem. cbn [mbind outcome_bind].
  by destruct (bool_decide _).
Qed.

End Router.

(** C8. Whatever the model does (a mapping, any other value, nothing, an
    exception), [_route_query] returns a decision whose tool is [qa] or
    [issue_summary]; and when the model's output has a tool field outside
    that set, or none, the tool is [qa]. *)
Theorem route_query_closed_set {backend : Backend} (q : pystr) (w : world) :
  exists d w', _route_query q w = (Ok d, w')
    /\ (tool d = py "qa" \/ tool d = py "issue_summary")
    /\ forall response,
         generate_structured_response (length (llm_calls w))
           (replace (py "{{query}}") q router_prompt) = Ok response ->
         field response (py "tool") <> Some (PStr (py "qa")) ->
         field response (py "tool") <> Some (PStr (py "issue_summary")) ->
         tool d = py "qa".
Proof.
  destruct (route_query_returns q w) as (d & Hrun & Htool).
  exists d. eexists. split; [exact Hrun|]. split.
  - destruct Htool as [Hqa|[Hissue _]]; by auto.
  - intros response Hllm _ Hnot.
    destruct Htool as [Hqa|[_ Hfield]]; [exact Hqa|].
    rewrite Hllm in Hfield. by destruct Hnot.
Qed.

(** C2, as the code has it. For a model response that is a mapping whose
    tool field is missing, unknown or malformed, the decision has tool
    [qa]. An empty mapping counts as no response: fixed rationale, input
    [{query: <original query>}]. Otherwise the rationale is the model's
    own (["No rationale provided"] when it gave none), and the tool input
    is the model's own ([{}] when it gave none) with [query] set to the
    original query only when that key is absent; this for a rationale
    that is a string and a tool input that is a mapping. *)
Theorem route_query_invalid_tool {backend : Backend} (q : pystr) (w : world)
    (r : gmap pystr pyval) :
  generate_structured_response (length (llm_calls w))
    (replace (py "{{query}}") q router_prompt) = Ok (PDict r) ->
  r !! py "tool" <> Some (PStr (py "qa")) ->
  r !! py "tool" <> Some (PStr (py "issue_summary")) ->
  exists d w', _route_query q w = (Ok d, w')
    /\ tool d = py "qa"
    /\ (r = ∅ ->
        rationale d = py "Unable to determine appropriate tool, defaulting to QA."
        /\ tool_input d = {[ py "query" := PStr q ]})
    /\ (r <> ∅ -> forall (ra : pystr) (m : gmap pystr pyval),
        default (PStr (py "No rationale provided")) (r !! py "rationale") = PStr ra ->
        default (PDict ∅) (r !! py "tool_input") = PDict m ->
        rationale d = ra
        /\ tool_input d
           = if bool_decide (is_Some (m !! py "query")) then m
             else <[py "query" := PStr q]> m).
Proof.
  intros Hllm Hqa Hiss.
  destruct (route_query_returns q w) as (d & Hrun & Htool).
  exists d. eexists. split; [exact Hrun|]. split.
  { destruct Htool as [Htool|[_ Hfield]]; [exact Htool|].
    rewrite Hllm in Hfield. by destruct Hiss. }
  clear Htool.
  unfold _route_query, try_except in Hrun. rewrite call_llm_bind in Hrun.
  cbv zeta in Hrun. rewrite Hllm in Hrun. cbn [truthy] in Hrun. split.
  - intros ->. rewrite map_size_empty in Hrun. cbn [Nat.eqb negb] in Hrun.
    unfold lift in Hrun. rewrite new_RouterDecision_str in Hrun.
    by injection Hrun as <-.
  - intros Hne ra m Hra Hm.
    destruct (size r) as [|n] eqn:E; [by apply map_size_empty_inv in E|].
    cbn [Nat.eqb negb] in Hrun.
    rewrite lift_bind in Hrun. unfold py_get in Hrun.
    destruct (validated_tool (default (PStr (py "qa")) (r !! py "tool")))
      as (s & Hs & Hset & Hissue).
    rewrite Hs in Hrun.
    assert (s = py "qa") as ->.
    { destruct Hset as [-> | ->]; [done|]. specialize (Hissue eq_refl).
      destruct (r !! py "tool"); cbn [default from_option id] in Hissue.
      - subst. by destruct Hiss.
      - injection Hissue as Hissue. by destruct qa_not_issue_summary. }
    rewrite lift_bind, Hm in Hrun.
    unfold is_str in Hrun. rewrite bool_decide_eq_true_2 in Hrun by done.
    rewrite lift_bind, backfill_dict, lift_bind, Hra in Hrun.
    unfold lift in Hrun. rewrite new_RouterDecision_str in Hrun.
    by injection Hrun as <-.
Qed.

Lemma invalid_tool_reply_nonempty : invalid_tool_reply <> ∅.
Proof.
  intros H. apply (f_equal (fun m => m !! py "tool")) in H.
  rewrite lookup_empty in H. vm_compute in H. discriminate.
Qed.

(** The amended C2 at the reply of the test. *)
Lemma route_query_invalid_tool_witness :
  exists d w',
    _route_query (backend := scripted [Ok (PDict invalid_tool_reply)] [])
      (py "Test query") fresh = (Ok d, w')
    /\ tool d = py "qa"
    /\ rationale d = py "Invalid tool choice."
    /\ tool_input d = {[ py "query" := PStr (py "What changed?") ]}.
Proof.
  destruct (route_query_invalid_tool
              (backend := scripted [Ok (PDict invalid_tool_reply)] [])
              (py "Test query") fresh invalid_tool_reply)
    as (d & w' & Hrun & Htool & _ & Hkept).
  - reflexivity.
  - vm_compute. discriminate.
  - vm_compute. discriminate.
  - exists d, w'. split; [exact Hrun|]. split; [exact Htool|].
    destruct (Hkept invalid_tool_reply_nonempty (py "Invalid tool choice.")
                {[ py "query" := PStr (py "What changed?") ]}) as [Hra Hti];
      [vm_compute; reflexivity..|].
    split; [exact Hra|]. rewrite Hti.
    rewrite bool_decide_eq_true_2; [reflexivity|].
    rewrite lookup_singleton_eq. eauto.
Defined.

(** C2, as the specification words it, fails: no fixed string is the
    rationale of every decision made on an invalid tool, and the tool
    input is not reset to [{query: <original query>}]: the decision keeps
    what the model wrote. *)
Lemma route_query_keeps_model_fields :
  ~ exists fixed : pystr,
      forall (backend : Backend) (q : pystr) (w : world) (response : pyval),
        generate_structured_response (length (llm_calls w))
          (replace (py "{{query}}") q router_prompt) = Ok response ->
        field response (py "tool") <> Some (PStr (py "qa")) ->
        field response (py "tool") <> Some (PStr (py "issue_summary")) ->
        exists d w', _route_query q w = (Ok d, w')
          /\ tool d = py "qa" /\ rationale d = fixed
          /\ tool_input d = {[ py "query" := PStr q ]}.
Proof.
  intros (fixed & H).
  destruct (H (scripted [Ok (PDict invalid_tool_reply)] []) (py "Test query") fresh
              (PDict invalid_tool_reply))
    as (d & w' & Hrun & _ & _ & Hinput).
  - reflexivity.
  - vm_compute. discriminate.
  - vm_compute. discriminate.
  - assert (match (_route_query (backend := scripted [Ok (PDict invalid_tool_reply)] [])
                     (py "Test query") fresh).1 with
            | Ok d0 => tool_input d0 !! py "query"
            | Raise _ => None
            end = Some (PStr (py "What changed?"))) as Hkept
      by (vm_compute; reflexivity).
    rewrite Hrun in Hkept. cbn [fst] in Hkept. rewrite Hinput in Hkept.
    vm_compute in Hkept. discriminate.
Qed.

(** C8 at the reply of the test: an unknown tool is routed to [qa]. *)
Lemma route_query_closed_set_witness :
  exists d w',
    _route_query (backend := scripted [Ok (PDict invalid_tool_reply)] [])
      (py "Test query") fresh = (Ok d, w')
    /\ tool d = py "qa".
Proof.
  destruct (route_query_closed_set
              (backend := scripted [Ok (PDict invalid_tool_reply)] [])
              (py "Test query") fresh)
    as (d & w' & Hrun & _ & Hqa).
  exists d, w'. split; [exact Hrun|].
  apply (Hqa (PDict invalid_tool_reply)).
  - reflexivity.
  - vm_compute. discriminate.
  - vm_compute. discriminate.
Defined.

(** ** The issue-summary tool *)

Section IssueSummaryTool.

Context {backend : Backend}.

Lemma low_is_valid : py "Low" ∈ valid_severities.
Proof. unfold valid_severities. apply list_elem_of_here. Qed.

(** The severity after [if severity not in valid_severities]. *)
Lemma validated_severity (sev : pyval) :
  let s := match sev with
           | PStr s => if bool_decide (s ∈ valid_severities) then s else py "Low"
           | _ => py "Low"
           end in
  s ∈ valid_severities
  /\ ((forall sv, sv ∈ valid_severities -> sev <> PStr sv) -> s = py "Low").
Proof.
  pose proof low_is_valid.
  destruct sev as [|b|z|f|s0|l|d]; cbv zeta; try done.
  destruct (bool_decide_reflect (s0 ∈ valid_severities)) as [Hin|Hout]; [|done].
  split; [done|]. intros Hnot. by destruct (Hnot s0 Hin).
Qed.

Lemma new_IssueSummary_Ok (raw : pystr) (issues components : pyval) (sev : pystr)
    (suggs : pyval) (s : IssueSummary) :
  new_IssueSummary (PStr raw) issues components sev suggs = Ok s ->
  raw_text s = raw /\ severity s = sev
  /\ str_list_field issues = Ok (reported_issues s)
  /\ str_list_field components = Ok (affected_components s)
  /\ str_list_field suggs = Ok (suggestions s).
Proof.
  unfold new_IssueSummary. cbn [str_field mbind outcome_bind].
  destruct (str_list_field issues); [|done].
  destruct (str_list_field components); [|done].
  destruct (str_list_field suggs); [|done].
  by intros [= <-].
Qed.

Ltac fallback_summary :=
  unfold lift; rewrite new_IssueSummary_empty; eexists;
  split; [reflexivity|]; split; [reflexivity|]; by left.

(** [summarize_issue] calls the model once and returns either the default
    summary or a summary built from the fields of the mapping the model
    returned. *)
Lemma summarize_issue_returns (issue_text : pystr) (w : world) :
  let prompt := replace (py "{{issue_text}}") issue_text issue_summary_prompt in
  let reply := generate_structured_response (length (llm_calls w)) prompt in
  exists s,
    summarize_issue (PStr issue_text) w
    = (Ok s, {| llm_calls := llm_calls w ++ [prompt]; searches := searches w |})
    /\ raw_text s = issue_text
    /\ (s = {| raw_text := issue_text; reported_issues := [];
               affected_components := []; severity := py "Low"; suggestions := [] |}
        \/ exists d0,
             reply = Ok (PDict d0)
             /\ severity s
                = match default (PStr (py "Low")) (d0 !! py "severity") with
                  | PStr sv => if bool_decide (sv ∈ valid_severities) then sv else py "Low"
                  | _ => py "Low"
                  end
             /\ str_list_field (default (PList []) (d0 !! py "reported_issues"))
                = Ok (reported_issues s)
             /\ str_list_field (default (PList []) (d0 !! py "affected_components"))
                = Ok (affected_components s)
             /\ str_list_field (default (PList []) (d0 !! py "suggestions"))
                = Ok (suggestions s)).
Proof.
  cbv zeta. unfold summarize_issue, try_except.
  rewrite lift_bind. cbn [py_prefix]. rewrite lift_bind. cbn [replace_with].
  rewrite call_llm_bind. cbv zeta.
  destruct (generate_structured_response _ _) as [response|e] eqn:Hllm;
    [|fallback_summary].
  destruct (truthy response); cbn [negb]; [|fallback_summary].
  destruct response as [|?|?|?|?|?|d0]; try fallback_summary.
  unfold py_get. repeat (rewrite lift_bind; cbv beta iota). unfold lift at 1.
  destruct (new_IssueSummary _ _ _ _ _) as [s|] eqn:Hs; [|fallback_summary].
  apply new_IssueSummary_Ok in Hs as (Hraw & Hsev & Hissues & Hcomps & Hsuggs).
  eexists. split; [reflexivity|]. split; [done|]. right. by exists d0.
Qed.

End IssueSummaryTool.

(** C9. Whatever the model returns for an issue text, the summary has a
    severity of the closed set; a severity field that is not exactly one
    of [Low], [Medium], [High], [Critical] (a case mismatch such as
    [medium], another label, another type, no field) gives [Low]; and a
    list field the output lacks is the empty list. *)
Theorem summarize_issue_coerces {backend : Backend} (issue_text : pystr) (w : world) :
  let reply := generate_structured_response (length (llm_calls w))
                 (replace (py "{{issue_text}}") issue_text issue_summary_prompt) in
  exists s w', summarize_issue (PStr issue_text) w = (Ok s, w')
    /\ raw_text s = issue_text
    /\ severity s ∈ valid_severities
    /\ ((forall sv, sv ∈ valid_severities ->
           reply_field reply (py "severity") <> Some (PStr sv)) ->
        severity s = py "Low")
    /\ (reply_field reply (py "reported_issues") = None -> reported_issues s = [])
    /\ (reply_field reply (py "affected_components") = None -> affected_components s = [])
    /\ (reply_field reply (py "suggestions") = None -> suggestions s = []).
Proof.
  cbv zeta. pose proof low_is_valid as Hlow_valid.
  destruct (summarize_issue_returns issue_text w) as (s & Hrun & Hraw & Hcases).
  exists s. eexists. split; [exact Hrun|]. split; [exact Hraw|].
  destruct Hcases as [-> | (d0 & Hreply & Hsev & Hissues & Hcomps & Hsuggs)].
  { cbn [severity reported_issues affected_components suggestions]. by auto 10. }
  rewrite Hreply. unfold reply_field, field. rewrite Hsev.
  destruct (validated_severity (default (PStr (py "Low")) (d0 !! py "severity")))
    as [Hvalid Hlow].
  split; [exact Hvalid|]. split.
  { intros Hnot. destruct (d0 !! py "severity") as [sev|] eqn:Hfield.
    - apply Hlow. intros sv Hsv Heq. apply (Hnot sv Hsv).
      cbn [default from_option id] in Heq. by subst.
    - cbn [default from_option id]. by destruct (bool_decide _). }
  assert (str_list_field (PList []) = Ok []) as Hnil by reflexivity.
  split; [|split]; intros Habsent.
  - rewrite Habsent in Hissues. cbn [default from_option id] in Hissues.
    rewrite Hnil in Hissues. by injection Hissues as <-.
  - rewrite Habsent in Hcomps. cbn [default from_option id] in Hcomps.
    rewrite Hnil in Hcomps. by injection Hcomps as <-.
  - rewrite Habsent in Hsuggs. cbn [default from_option id] in Hsuggs.
    rewrite Hnil in Hsuggs. by injection Hsuggs as <-.
Qed.

(** C9 at a reply with severity [medium] and no [suggestions]. *)
Lemma summarize_issue_coerces_witness :
  exists s w',
    summarize_issue (backend := scripted [Ok (PDict mismatched_severity_reply)] [])
      (PStr (py "Test issue")) fresh = (Ok s, w')
    /\ severity s = py "Low"
    /\ affected_components s = []
    /\ suggestions s = [].
Proof.
  destruct (summarize_issue_coerces
              (backend := scripted [Ok (PDict mismatched_severity_reply)] [])
              (py "Test issue") fresh)
    as (s & w' & Hrun & _ & _ & Hlow & _ & Hcomps & Hsuggs).
  exists s, w'. split; [exact Hrun|]. split; [|split].
  - apply Hlow. intros sv Hsv.
    assert (reply_field
              (generate_structured_response
                 (Backend := scripted [Ok (PDict mismatched_severity_reply)] [])
                 (length (llm_calls fresh))
                 (replace (py "{{issue_text}}") (py "Test issue")
                    (issue_summary_prompt
                       (Backend := scripted [Ok (PDict mismatched_severity_reply)] []))))
              (py "severity") = Some (PStr (py "medium"))) as ->
      by (vm_compute; reflexivity).
    intros [= <-]. apply list_elem_of_In in Hsv. vm_compute in Hsv.
    destruct Hsv as [Hsv|[Hsv|[Hsv|[Hsv|[]]]]]; discriminate Hsv.
  - apply Hcomps. vm_compute. reflexivity.
  - apply Hsuggs. vm_compute. reflexivity.
Defined.

(** ** The Q&A tool *)

Section QATool.

Context {backend : Backend}.

Lemma shown_default (m : gmap pystr pyval) (key : pystr) :
  format_value (default (PStr (py "unknown")) (m !! key)) = shown m key.
Proof. unfold shown. by destruct (m !! key). Qed.

End QATool.

(** C10. [_format_context] and [_extract_sources] are defined on every
    list of search results: each result gives the block
    ["[source:chunk_id]\n{text}"] and the reference ["source:chunk_id"],
    in order, one per result, and a key the metadata lacks is shown as
    ["unknown"]. *)
Theorem context_and_sources_total {backend : Backend}
    (hits : list VectorDB.SearchResult) :
  _format_context hits
  = join blank_line
      ((fun r => py "[" ++ shown (VectorDB.metadata r) (py "source") ++ py ":"
                 ++ shown (VectorDB.metadata r) (py "chunk_id") ++ py "]"
                 ++ [10%N] ++ VectorDB.text r) <$> hits)
  /\ _extract_sources hits
     = (fun r => shown (VectorDB.metadata r) (py "source") ++ py ":"
                 ++ shown (VectorDB.metadata r) (py "chunk_id")) <$> hits
  /\ length (_extract_sources hits) = length hits.
Proof.
  unfold _format_context, _extract_sources. split; [|split].
  - f_equal. apply list_fmap_ext. intros i r _. cbv zeta.
    by rewrite !shown_default.
  - apply list_fmap_ext. intros i r _. cbv zeta. by rewrite !shown_default.
  - by rewrite length_fmap.
Qed.

(** A result with empty metadata, between two well-formed ones. *)
Example format_context_missing_keys :
  let backend := scripted [] [] in
  _format_context [bare_hit] = py "[unknown:unknown]" ++ [10%N] ++ py "Some text."
  /\ _extract_sources [hit (py "a.txt") 0 (py "A") 0.1%float; bare_hit]
     = [py "a.txt:0"; py "unknown:unknown"].
Proof. split; vm_compute; reflexivity. Qed.

(** C5, as the code has it. When retrieval returns nothing,
    [answer_question] returns the fixed "insufficient information" answer
    with confidence [0.0] and no sources, and the model is not called.
    When retrieval returns results, the model is called once, with the
    prompt made of the question and the formatted results. If the call
    returns nothing ([None], which is how the client reports a failed
    request or a reply it could not parse, or any other empty value), the
    answer is the same fixed text, with the reference ["source:chunk_id"]
    of each retrieved result, in order, and confidence [0.1]. If the call
    raises, the answer is the fixed "processing error" text, with no
    sources and confidence [0.0]. *)
Theorem answer_question_fallbacks {backend : Backend} (q : pystr) (w : world) :
  (search (length (searches w)) (PStr q) TOP_K = Ok [] ->
   answer_question (PStr q) w
   = (Ok {| query := q; answer := NO_INFORMATION; sources := [];
            confidence := 0%float |},
      {| llm_calls := llm_calls w; searches := searches w ++ [PStr q] |}))
  /\ (forall hits,
        hits <> [] ->
        search (length (searches w)) (PStr q) TOP_K = Ok hits ->
        let reply :=
          generate_structured_response (length (llm_calls w)) (qa_prompt_for q hits) in
        let w' := {| llm_calls := llm_calls w ++ [qa_prompt_for q hits];
                     searches := searches w ++ [PStr q] |} in
        (forall response,
           reply = Ok response -> truthy response = false ->
           answer_question (PStr q) w
           = (Ok {| query := q; answer := NO_INFORMATION;
                    sources :=
                      (fun r => shown (VectorDB.metadata r) (py "source") ++ py ":"
                                ++ shown (VectorDB.metadata r) (py "chunk_id")) <$> hits;
                    confidence := 0.1%float |}, w'))
        /\ (forall e,
              reply = Raise e ->
              answer_question (PStr q) w
              = (Ok {| query := q; answer := PROCESSING_ERROR; sources := [];
                       confidence := 0%float |}, w'))).
Proof.
  split.
  - intros Hsearch. unfold answer_question, try_except.
    rewrite call_search_bind. cbv zeta. rewrite Hsearch.
    unfold lift. by rewrite new_QAAnswer_str.
  - intros hits Hhits Hsearch. cbv zeta. unfold qa_prompt_for. split.
    + intros response Hllm Hfalsy.
      unfold answer_question, try_except.
      rewrite call_search_bind. cbv zeta. rewrite Hsearch.
      destruct hits as [|h hits]; [done|].
      rewrite lift_bind. cbn [replace_with]. rewrite call_llm_bind. cbv zeta.
      cbn [llm_calls]. rewrite Hllm, Hfalsy. cbn [negb].
      unfold lift. rewrite new_QAAnswer_str. cbn [searches].
      do 3 f_equal. unfold _extract_sources.
      apply list_fmap_ext. intros i r _. cbv zeta. by rewrite !shown_default.
    + intros e Hllm.
      unfold answer_question, try_except.
      rewrite call_search_bind. cbv zeta. rewrite Hsearch.
      destruct hits as [|h hits]; [done|].
      rewrite lift_bind. cbn [replace_with]. rewrite call_llm_bind. cbv zeta.
      cbn [llm_calls]. rewrite Hllm.
      unfold lift. by rewrite new_QAAnswer_str.
Qed.

(** C5 on the two tests of the repository, an empty store and a model
    that returns [None], and on a model whose call raises. *)
Lemma answer_question_fallbacks_witness :
  answer_question (backend := scripted [] []) (PStr (py "What is this about?")) fresh
  = (Ok {| query := py "What is this about?"; answer := NO_INFORMATION;
           sources := []; confidence := 0%float |},
     {| llm_calls := []; searches := [PStr (py "What is this about?")] |})
  /\ (let backend := scripted [Ok PNone] test_hits in
      answer_question (PStr (py "Test question?")) fresh
      = (Ok {| query := py "Test question?"; answer := NO_INFORMATION;
               sources := [py "test.txt:0"]; confidence := 0.1%float |},
         {| llm_calls := [qa_prompt_for (py "Test question?") test_hits];
            searches := [PStr (py "Test question?")] |}))
  /\ (let backend := scripted [Raise BackendError] test_hits in
      answer_question (PStr (py "Test question?")) fresh
      = (Ok {| query := py "Test question?"; answer := PROCESSING_ERROR;
               sources := []; confidence := 0%float |},
         {| llm_calls := [qa_prompt_for (py "Test question?") test_hits];
            searches := [PStr (py "Test question?")] |})).
Proof.
  split; [|split].
  - apply (proj1 (answer_question_fallbacks (backend := scripted [] [])
                    (py "What is this about?") fresh)).
    reflexivity.
  - cbv zeta. etransitivity.
    + apply (proj1 (proj2 (answer_question_fallbacks
                             (backend := scripted [Ok PNone] test_hits)
                             (py "Test question?") fresh)
                      test_hits ltac:(discriminate) eq_refl) PNone eq_refl eq_refl).
    + vm_compute. reflexivity.
  - cbv zeta.
    apply (proj2 (proj2 (answer_question_fallbacks
                           (backend := scripted [Raise BackendError] test_hits)
                           (py "Test question?") fresh)
                    test_hits ltac:(discriminate) eq_refl) BackendError eq_refl).
Defined.

(** C5, as the specification words it, fails: a model call that fails by
    raising (the client lets through what [json.loads] raises besides a
    decoding error) gives the "processing error" answer, not the
    "insufficient information" answer with the retrieved sources and
    confidence [0.1], though results were retrieved. *)
Lemma answer_question_failed_call_not_insufficient :
  ~ forall (backend : Backend) (q : pystr) (w : world)
      (hits : list VectorDB.SearchResult),
      hits <> [] ->
      search (length (searches w)) (PStr q) TOP_K = Ok hits ->
      gave_nothing
        (generate_structured_response (length (llm_calls w)) (qa_prompt_for q hits)) ->
      exists a w',
        answer_question (PStr q) w = (Ok a, w')
        /\ answer a = NO_INFORMATION
        /\ sources a = _extract_sources hits
        /\ confidence a = 0.1%float.
Proof.
  intros H.
  destruct (H (scripted [Raise BackendError] test_hits) (py "Test question?") fresh
              test_hits ltac:(discriminate) eq_refl I)
    as (a & w' & Hrun & _ & Hsources & _).
  vm_compute in Hrun. injection Hrun as <- _.
  vm_compute in Hsources. discriminate Hsources.
Qed.

(** ** No exception escapes *)

Section ProcessQuery.

Context {backend : Backend}.

Ltac qa_leaf :=
  unfold lift; rewrite ?new_QAAnswer_str; eexists _, _; split; [reflexivity|done].

Lemma answer_question_returns (q : pystr) (w : world) :
  exists a w', answer_question (PStr q) w = (Ok a, w') /\ query a = q.
Proof.
  unfold answer_question, try_except. rewrite call_search_bind. cbv zeta.
  destruct (search _ _ _) as [hits|e]; [|qa_leaf].
  destruct hits as [|h hits]; [qa_leaf|].
  rewrite lift_bind. cbn [replace_with]. rewrite call_llm_bind. cbv zeta.
  destruct (generate_structured_response _ _) as [response|e]; [|qa_leaf].
  destruct (truthy response); cbn [negb]; [|qa_leaf].
  rewrite lift_bind. destruct (py_get response _ _) as [a|e]; [|qa_leaf].
  unfold lift at 1.
  destruct (new_QAAnswer (PStr q) a _ _) as [r|e] eqn:Hr; [|qa_leaf].
  apply new_QAAnswer_Ok in Hr as (Hq & _). eauto.
Qed.

(** The kind of record [_execute_tool] returns follows the decision. *)
Lemma execute_tool_kind (d : RouterDecision) (w : world)
    (r : QAAnswer + IssueSummary) (w' : world) :
  _execute_tool d w = (Ok r, w') ->
  match r with
  | inl _ => tool d = py "qa"
  | inr _ => tool d <> py "qa"
  end.
Proof.
  unfold _execute_tool, try_except.
  destruct (bool_decide_reflect (tool d = py "qa")) as [Hqa|Hqa].
  - unfold mbind at 1, M_bind at 1.
    destruct (answer_question _ w) as [[a|e] w1]; [by intros [= <- <-]|].
    rewrite lift_bind. destruct (new_QAAnswer _ _ _ _); [|done].
    by intros [= <- <-].
  - destruct (bool_decide (tool d = py "issue_summary")).
    + unfold mbind at 1, M_bind at 1.
      destruct (summarize_issue _ w) as [[s|e] w1]; [by intros [= <- <-]|].
      rewrite lift_bind. destruct (new_IssueSummary _ _ _ _ _); [|done].
      by intros [= <- <-].
    + unfold lift at 1. rewrite lift_bind.
      destruct (new_IssueSummary _ _ _ _ _); [|done].
      by intros [= <- <-].
Qed.

Lemma process_query_returns (q : pystr) (w : world) :
  exists r w', process_query q w = (Ok r, w')
    /\ match result r with
       | inl _ => tool (decision r) = py "qa"
       | inr _ => tool (decision r) = py "issue_summary"
       end.
Proof.
  destruct (route_query_returns q w) as (d & Hrun & Hset).
  unfold process_query, try_except. unfold mbind at 1, M_bind at 1. rewrite Hrun.
  unfold mbind at 1, M_bind at 1.
  destruct (_execute_tool d _) as [[r|e] w2] eqn:He.
  - eexists _, _. split; [reflexivity|]. cbn [result decision].
    apply execute_tool_kind in He. destruct r; [done|].
    by destruct Hset as [Hqa|[Hissue _]].
  - rewrite lift_bind, new_RouterDecision_str, lift_bind, new_QAAnswer_str.
    eexists _, _. split; [reflexivity|]. done.
Qed.

End ProcessQuery.

(** C1. For every query, and whatever the language model does (returns a
    mapping or any other value, returns nothing, raises), whatever the
    store returns and whatever pydantic coerces, [answer_question],
    [summarize_issue] and [process_query] each return a record of their
    declared type: a [QAAnswer] for the query, an [IssueSummary] for the
    issue text, and a decision with the result of the tool it names. None
    of them raises. *)
Theorem no_exception_escapes {backend : Backend} (q : pystr) (w : world) :
  (exists a w', answer_question (PStr q) w = (Ok a, w') /\ query a = q)
  /\ (exists s w', summarize_issue (PStr q) w = (Ok s, w') /\ raw_text s = q)
  /\ (exists r w', process_query q w = (Ok r, w')
        /\ match result r with
           | inl _ => tool (decision r) = py "qa"
           | inr _ => tool (decision r) = py "issue_summary"
           end).
Proof.
  split; [|split].
  - apply answer_question_returns.
  - destruct (summarize_issue_returns q w) as (s & Hrun & Hraw & _). eauto.
  - apply process_query_returns.
Qed.

(** ** The confidence score *)

Lemma digits2_pos_bounds (m : positive) :
  2 ^ (Zpos (digits2_pos m) - 1) <= Zpos m < 2 ^ Zpos (digits2_pos m).
Proof.
  induction m as [p IH|p IH|]; cbn [digits2_pos].
  - rewrite Pos2Z.inj_succ. replace (Z.succ (Z.pos (digits2_pos p)) - 1)
      with (Z.succ (Z.pos (digits2_pos p) - 1)) by lia.
    rewrite !Z.pow_succ_r by lia. lia.
  - rewrite Pos2Z.inj_succ. replace (Z.succ (Z.pos (digits2_pos p)) - 1)
      with (Z.succ (Z.pos (digits2_pos p) - 1)) by lia.
    rewrite !Z.pow_succ_r by lia. lia.
  - done.
Qed.

Lemma compare_cont_not_lt (p q : positive) :
  match Pos.compare_cont Eq p q with Lt => true | _ => false end = false ->
  Zpos q <= Zpos p.
Proof.
  change (Pos.compare_cont Eq p q) with (Pos.compare p q).
  destruct (Pos.compare_spec p q); intros Hc; try discriminate Hc; lia.
Qed.

(** The finite positive floats between 0.1 and 1. *)
Lemma unit_range_mantissa (a : float) :
  PrimFloat.is_nan a = false ->
  PrimFloat.ltb a 0.1 = false -> PrimFloat.ltb 1 a = false ->
  exists m e, Prim2SF a = S754_finite false m e
    /\ -56 <= e <= -52
    /\ 2 ^ 52 <= Zpos m < 2 ^ 53
    /\ (e = -56 -> 7205759403792794 <= Zpos m)
    /\ (e = -52 -> Zpos m <= 2 ^ 52).
Proof.
  unfold PrimFloat.is_nan. rewrite FloatAxioms.eqb_spec, !FloatAxioms.ltb_spec.
  assert (Prim2SF 0.1 = S754_finite false 7205759403792794 (-56)) as -> by (vm_compute; reflexivity).
  assert (Prim2SF 1 = S754_finite false 4503599627370496 (-52)) as -> by (vm_compute; reflexivity).
  pose proof (Prim2SF_valid a) as Hvalid.
  intros Hnan Hlo Hhi.
  destruct (Prim2SF a) as [s|s| |s0 m e].
  - by destruct s.
  - by destruct s.
  - done.
  - destruct s0; [done|].
    unfold SFltb, SFcompare in Hlo, Hhi.
    exists m, e. split; [reflexivity|].
    unfold valid_binary, bounded, canonical_mantissa in Hvalid.
    pose proof (digits2_pos_bounds m) as Hd.
    apply andb_prop in Hvalid as [Hc _]. apply Z.eqb_eq in Hc.
    unfold SpecFloat.fexp, SpecFloat.emin, prec, emax in Hc.
    assert (-56 <= e <= -52) as He.
    { destruct (Z.compare_spec e (-56)); [|discriminate Hlo|];
        destruct (Z.compare_spec (-52) e); try discriminate Hhi; lia. }
    assert (Z.pos (digits2_pos m) = 53) as Hdigits by lia.
    rewrite Hdigits in Hd. change (2 ^ (53 - 1)) with (2 ^ 52) in Hd.
    split; [exact He|]. split; [exact Hd|]. split.
    + intros ->. rewrite Z.compare_refl in Hlo.
      apply compare_cont_not_lt in Hlo. lia.
    + intros ->. rewrite Z.compare_refl in Hhi.
      apply compare_cont_not_lt in Hhi. lia.
Qed.

Lemma round_half_even_unit_range (m : positive) (e : Z) :
  -56 <= e <= -52 ->
  2 ^ 52 <= Zpos m < 2 ^ 53 ->
  (e = -56 -> 7205759403792794 <= Zpos m) ->
  (e = -52 -> Zpos m <= 2 ^ 52) ->
  10 <= round_half_even (Zpos m * 100) (2 ^ (- e)) <= 100.
Proof.
  intros He Hm Hlo Hhi. unfold round_half_even.
  change (2 ^ 52) with 4503599627370496 in *.
  change (2 ^ 53) with 9007199254740992 in *.
  assert (e = -56 \/ e = -55 \/ e = -54 \/ e = -53 \/ e = -52) as Hcases by lia.
  destruct Hcases as [->|[->|[->|[->| ->]]]];
    [specialize (Hlo eq_refl)|clear Hlo..]; try specialize (Hhi eq_refl).
  all: match goal with
       | |- context [2 ^ (- ?k)] =>
           let d := eval vm_compute in (2 ^ (- k)) in
           change (2 ^ (- k)) with d
       end; cbv zeta.
  all: match goal with
       | |- context [Z.ltb (2 * ?r) ?d] =>
           destruct (Z.ltb_spec (2 * r) d);
           [|destruct (Z.ltb_spec d (2 * r)); [|destruct (Z.even _)]]
       end.
  all: Z.div_mod_to_equations; lia.
Qed.

Lemma centi_unit_range (q : Z) :
  10 <= q <= 100 ->
  PrimFloat.leb 0.1 (SF2Prim (centi false q)) = true
  /\ PrimFloat.leb (SF2Prim (centi false q)) 1 = true.
Proof.
  intros Hq.
  assert (forallb (fun q => PrimFloat.leb 0.1 (SF2Prim (centi false q))
                            && PrimFloat.leb (SF2Prim (centi false q)) 1)
            (seqZ 10 91) = true) as Hall by (vm_compute; reflexivity).
  rewrite forallb_forall in Hall. apply andb_prop, Hall.
  apply list_elem_of_In, elem_of_seqZ. lia.
Qed.

Lemma round2_unit_range (a : float) :
  PrimFloat.is_nan a = false ->
  PrimFloat.ltb a 0.1 = false -> PrimFloat.ltb 1 a = false ->
  PrimFloat.leb 0.1 (py_round2 a) = true /\ PrimFloat.leb (py_round2 a) 1 = true.
Proof.
  intros Hnan Hlo Hhi.
  destruct (unit_range_mantissa a Hnan Hlo Hhi) as (m & e & Ha & He & Hm & H56 & H52).
  unfold py_round2. rewrite Ha.
  destruct (Z.leb_spec 0 e); [lia|].
  apply centi_unit_range. by apply round_half_even_unit_range.
Qed.

(** [round(min(max(x, 0.1), 1.0), 2)] of a number lies between [0.1] and [1.0]. *)
Lemma clamp_round_bounds (x : float) :
  PrimFloat.is_nan x = false ->
  let c := py_round2 (py_min (py_max x 0.1) 1) in
  PrimFloat.leb 0.1 c = true /\ PrimFloat.leb c 1 = true.
Proof.
  intros Hnan. cbv zeta. unfold py_max.
  destruct (PrimFloat.ltb x 0.1) eqn:Hlo.
  { vm_compute. done. }
  unfold py_min. destruct (PrimFloat.ltb 1 x) eqn:Hhi.
  { vm_compute. done. }
  by apply round2_unit_range.
Qed.

Lemma nan_Prim2SF (x : float) : PrimFloat.is_nan x = true -> Prim2SF x = S754_nan.
Proof.
  unfold PrimFloat.is_nan. rewrite FloatAxioms.eqb_spec.
  destruct (Prim2SF x) as [s|s| |s m e]; try done.
  - by destruct s.
  - unfold SFeqb, SFcompare. rewrite Z.compare_refl.
    change (Pos.compare_cont Eq m m) with (Pos.compare m m).
    rewrite Pos.compare_refl. by destruct s.
Qed.

(** *** Numbers stay numbers

    Rounding a mantissa that is not negative gives a zero, a finite number
    or an infinity, so that the sum, the quotient and the product of the
    confidence formula are NaN only if an operand is, or if the operation
    itself is undefined ([inf - inf], [0 / 0], [inf / inf], [0 * inf]). *)

Lemma shr_1_nonneg (mrs : shr_record) : 0 <= shr_m mrs -> 0 <= shr_m (shr_1 mrs).
Proof. destruct mrs as [[|[p|p|]|p] r s]; cbn; lia. Qed.

Lemma iter_pos_invariant {A : Type} (f : A -> A) (P : A -> Prop) :
  (forall x, P x -> P (f x)) -> forall n x, P x -> P (SpecFloat.iter_pos f n x).
Proof. intros Hf n. induction n as [n IH|n IH|]; intros x Hx; cbn; auto. Qed.

Lemma shr_fexp_nonneg (m e : Z) (l : location) :
  0 <= m -> 0 <= shr_m (fst (shr_fexp prec emax m e l)).
Proof.
  intros Hm. unfold shr_fexp, shr.
  assert (0 <= shr_m (shr_record_of_loc m l)) as H0 by (by destruct l as [|[]]).
  destruct (SpecFloat.fexp prec emax (Zdigits2 m + e) - e); cbn [fst]; try exact H0.
  by apply (iter_pos_invariant shr_1 (fun mrs => 0 <= shr_m mrs) shr_1_nonneg).
Qed.

Lemma round_nearest_even_nonneg (m : Z) (l : location) :
  0 <= m -> 0 <= round_nearest_even m l.
Proof. intros Hm. destruct l as [|[]]; cbn; try done; [destruct (Z.even m)|]; lia. Qed.

(** Rounding a mantissa that is not negative never gives NaN. *)
Lemma binary_round_aux_number (s : bool) (m e : Z) (l : location) :
  0 <= m -> binary_round_aux prec emax s m e l <> S754_nan.
Proof.
  intros Hm. unfold binary_round_aux.
  pose proof (shr_fexp_nonneg m e l Hm) as H1.
  destruct (shr_fexp prec emax m e l) as [mrs' e'].
  cbn [fst] in H1.
  pose proof (shr_fexp_nonneg _ e' loc_Exact
                (round_nearest_even_nonneg _ (loc_of_shr_record mrs') H1)) as H2.
  destruct (shr_fexp prec emax _ e' loc_Exact) as [mrs'' e''].
  cbn [fst] in H2.
  destruct (shr_m mrs'') as [|p|p]; [done| |lia].
  by destruct (e'' <=? emax - prec).
Qed.

Lemma binary_normalize_number (z e : Z) :
  binary_normalize prec emax z e false <> S754_nan.
Proof.
  destruct z as [|p|p]; [done| |]; cbn [binary_normalize]; unfold binary_round;
    destruct (shl_align _ _ _) as [mz ez]; by apply binary_round_aux_number.
Qed.

(** What [is_nan] and [is_finite] say of the value. *)
Lemma number_Prim2SF (x : float) :
  PrimFloat.is_nan x = false <-> Prim2SF x <> S754_nan.
Proof.
  split.
  - intros Hx Hnan. unfold PrimFloat.is_nan in Hx.
    by rewrite FloatAxioms.eqb_spec, Hnan in Hx.
  - intros Hx. destruct (PrimFloat.is_nan x) eqn:Hnan; [|done].
    by apply nan_Prim2SF in Hnan.
Qed.

Lemma finite_Prim2SF (x : float) :
  PrimFloat.is_finite x = true <-> finite_value (Prim2SF x).
Proof.
  unfold PrimFloat.is_finite, PrimFloat.is_infinity.
  rewrite negb_true_iff, orb_false_iff.
  rewrite FloatAxioms.eqb_spec, FloatAxioms.abs_spec.
  assert (Prim2SF infinity = S754_infinity false) as -> by reflexivity.
  split.
  - intros [Hnan Hinf]. apply number_Prim2SF in Hnan.
    destruct (Prim2SF x) as [s|s| |s m e]; try done.
  - intros Hfin. split.
    + apply number_Prim2SF. by destruct (Prim2SF x).
    + by destruct (Prim2SF x).
Qed.

Lemma add_number (a b : float) :
  PrimFloat.is_nan a = false -> PrimFloat.is_finite b = true ->
  PrimFloat.is_nan (a + b) = false.
Proof.
  rewrite !number_Prim2SF, finite_Prim2SF, FloatAxioms.add_spec.
  unfold SF64add.
  destruct (Prim2SF a) as [sa|sa| |sa ma ea], (Prim2SF b) as [sb|sb| |sb mb eb];
    try done; intros _ _.
  - by destruct sa, sb.
  - cbn [SFadd]. apply binary_normalize_number.
Qed.

Lemma naive_sum_number (l : list float) :
  Forall (fun x => PrimFloat.is_finite x = true) l ->
  PrimFloat.is_nan (naive_sum l) = false.
Proof.
  unfold naive_sum.
  assert (PrimFloat.is_nan 0 = false) as H0 by reflexivity.
  revert H0. generalize 0%float as acc.
  induction l as [|x l IH]; intros acc Hacc Hl; [exact Hacc|].
  inversion Hl as [|? ? Hx Hl']; subst. cbn [fold_left].
  apply IH; [by apply add_number|exact Hl'].
Qed.

Lemma mul_number (a b : float) :
  PrimFloat.is_nan a = false ->
  (exists s m e, Prim2SF b = S754_finite s m e) ->
  PrimFloat.is_nan (a * b) = false.
Proof.
  rewrite !number_Prim2SF, FloatAxioms.mul_spec. unfold SF64mul.
  intros Ha (s & m & e & ->).
  destruct (Prim2SF a) as [sa|sa| |sa ma ea]; try done.
  cbn [SFmul]. by apply binary_round_aux_number.
Qed.

Lemma div_number (a b : float) :
  PrimFloat.is_nan a = false ->
  (exists s m e, Prim2SF b = S754_finite s m e) ->
  PrimFloat.is_nan (a / b) = false.
Proof.
  rewrite !number_Prim2SF, FloatAxioms.div_spec. unfold SF64div.
  intros Ha (s & m & e & ->).
  destruct (Prim2SF a) as [sa|sa| |sa ma ea]; try done.
  cbn [SFdiv]. unfold SFdiv_core_binary. cbv zeta.
  match goal with |- context [Z.div_eucl ?n ?d] =>
    pose proof (Z.div_pos n d) as Hq;
    change (Z.div n d) with (fst (Z.div_eucl n d)) in Hq;
    assert (0 <= n) as Hn; [|destruct (Z.div_eucl n d) as [q r]]
  end.
  { destruct (ea - e - _) as [|p|p]; [lia| |lia]. apply Z.shiftl_nonneg. lia. }
  apply binary_round_aux_number. cbn [fst] in Hq. apply Hq; [exact Hn|lia].
Qed.

(** *** The number of results as a float *)

Lemma shr_1_div2 (mrs : shr_record) :
  0 <= shr_m mrs -> shr_m (shr_1 mrs) = shr_m mrs / 2.
Proof.
  intros H. rewrite <- Z.div2_div.
  destruct mrs as [[|[p|p|]|p] r s]; cbn [shr_m] in H; try reflexivity; lia.
Qed.

Lemma pow2_xI (n : positive) : 2 ^ Zpos n~1 = 2 * 2 ^ Zpos n * 2 ^ Zpos n.
Proof.
  rewrite (Pos2Z.inj_xI n). replace (2 * Zpos n + 1) with (Zpos n + Zpos n + 1) by lia.
  rewrite Z.pow_add_r by lia. rewrite Z.pow_add_r by lia. change (2 ^ 1) with 2. lia.
Qed.

Lemma pow2_xO (n : positive) : 2 ^ Zpos n~0 = 2 ^ Zpos n * 2 ^ Zpos n.
Proof.
  rewrite (Pos2Z.inj_xO n). replace (2 * Zpos n) with (Zpos n + Zpos n) by lia.
  rewrite Z.pow_add_r by lia. reflexivity.
Qed.

Lemma iter_shr_1_div (n : positive) (mrs : shr_record) :
  0 <= shr_m mrs ->
  0 <= shr_m (SpecFloat.iter_pos shr_1 n mrs)
  /\ shr_m (SpecFloat.iter_pos shr_1 n mrs) = shr_m mrs / 2 ^ Zpos n.
Proof.
  revert mrs. induction n as [n IH|n IH|]; intros mrs Hm; cbn [SpecFloat.iter_pos].
  - pose proof (shr_1_div2 mrs Hm) as H1.
    assert (0 <= shr_m (shr_1 mrs)) as H1' by (rewrite H1; apply Z.div_pos; lia).
    destruct (IH _ H1') as [H2' H2]. destruct (IH _ H2') as [H3' H3].
    split; [exact H3'|]. rewrite H3, H2, H1.
    assert (0 < 2 ^ Zpos n) by (apply Z.pow_pos_nonneg; lia).
    rewrite pow2_xI. rewrite Z.div_div by lia. rewrite Z.div_div by lia. f_equal. lia.
  - destruct (IH _ Hm) as [H2' H2]. destruct (IH _ H2') as [H3' H3].
    split; [exact H3'|]. rewrite H3, H2.
    assert (0 < 2 ^ Zpos n) by (apply Z.pow_pos_nonneg; lia).
    rewrite pow2_xO. rewrite Z.div_div by lia. reflexivity.
  - pose proof (shr_1_div2 mrs Hm) as H1. split.
    + rewrite H1. apply Z.div_pos; lia.
    + rewrite H1. reflexivity.
Qed.

(** [shr_fexp] divides the mantissa by a power of two and raises the
    exponent by as much. *)
Lemma shr_fexp_div (m e : Z) (l : location) :
  0 <= m ->
  let n := Z.max 0 (SpecFloat.fexp prec emax (Zdigits2 m + e) - e) in
  shr_m (fst (shr_fexp prec emax m e l)) = m / 2 ^ n
  /\ snd (shr_fexp prec emax m e l) = e + n.
Proof.
  intros Hm. cbv zeta. unfold shr_fexp, shr.
  assert (shr_m (shr_record_of_loc m l) = m) as H0 by (by destruct l as [|[]]).
  destruct (SpecFloat.fexp prec emax (Zdigits2 m + e) - e) as [|k|k]; cbn [fst snd].
  - rewrite H0, Z.div_1_r. split; [reflexivity|lia].
  - rewrite Z.max_r by lia.
    destruct (iter_shr_1_div k (shr_record_of_loc m l)) as [_ ->]; [by rewrite H0|].
    by rewrite H0.
  - rewrite Z.max_l by lia. rewrite H0, Z.div_1_r. split; [reflexivity|lia].
Qed.

Lemma Zdigits2_bounds (m : Z) :
  0 < m -> 2 ^ (Zdigits2 m - 1) <= m < 2 ^ Zdigits2 m.
Proof. destruct m as [|p|p]; try lia. intros _. apply digits2_pos_bounds. Qed.

Lemma Zdigits2_le (m k : Z) : 0 < m -> 0 <= k -> m < 2 ^ k -> Zdigits2 m <= k.
Proof.
  intros Hm Hk Hlt. pose proof (Zdigits2_bounds m Hm) as [Hlo _].
  destruct (Z.le_gt_cases (Zdigits2 m) k) as [|Hgt]; [done|].
  assert (2 ^ k <= 2 ^ (Zdigits2 m - 1)) by (apply Z.pow_le_mono_r; lia). lia.
Qed.

Lemma Zdigits2_pos (m : Z) : 0 < m -> 0 < Zdigits2 m.
Proof. by destruct m. Qed.

(** Rounding a positive integer below [2^64] at an exponent between
    [emin] and [0] gives a finite number that is not zero. *)
Lemma binary_round_aux_finite (s : bool) (m e : Z) :
  0 < m < 2 ^ 64 -> -1074 <= e <= 0 ->
  exists m' e', binary_round_aux prec emax s m e loc_Exact = S754_finite s m' e'.
Proof.
  intros Hm He. unfold binary_round_aux.
  set (d := Zdigits2 m).
  assert (0 < d <= 64) as Hd
    by (split; [apply Zdigits2_pos; lia|apply Zdigits2_le; lia]).
  pose proof (Zdigits2_bounds m ltac:(lia)) as Hbounds. fold d in Hbounds.
  destruct (shr_fexp_div m e loc_Exact ltac:(lia)) as [Hm1 He1]. fold d in Hm1, He1.
  destruct (shr_fexp prec emax m e loc_Exact) as [mrs' e']. cbn [fst snd] in Hm1, He1.
  set (n := Z.max 0 (SpecFloat.fexp prec emax (d + e) - e)) in *.
  assert (n = Z.max 0 (d - 53)) as Hn
    by (unfold n, SpecFloat.fexp, SpecFloat.emin, prec, emax; lia).
  (* the shifted mantissa *)
  assert (1 <= shr_m mrs' < 2 ^ 53) as Hshifted.
  { rewrite Hm1. destruct (Z.le_gt_cases d 53) as [Hle|Hgt].
    - assert (n = 0) as -> by lia. rewrite Z.div_1_r.
      assert (2 ^ d <= 2 ^ 53) by (apply Z.pow_le_mono_r; lia). lia.
    - assert (n = d - 53) as -> by lia.
      assert (2 ^ (d - 1) = 2 ^ 52 * 2 ^ (d - 53)) as Hlo
        by (rewrite <- Z.pow_add_r by lia; f_equal; lia).
      assert (2 ^ d = 2 ^ 53 * 2 ^ (d - 53)) as Hhi
        by (rewrite <- Z.pow_add_r by lia; f_equal; lia).
      assert (0 < 2 ^ (d - 53)) by (apply Z.pow_pos_nonneg; lia).
      split.
      + assert (2 ^ 52 <= m / 2 ^ (d - 53)); [|lia].
        apply Z.div_le_lower_bound; lia.
      + apply Z.div_lt_upper_bound; lia. }
  (* the rounded mantissa *)
  set (m1 := round_nearest_even (shr_m mrs') (loc_of_shr_record mrs')).
  assert (shr_m mrs' <= m1 <= shr_m mrs' + 1) as Hm1'.
  { unfold m1. destruct (loc_of_shr_record mrs') as [|[]]; cbn [round_nearest_even];
      try lia. destruct (Z.even _); lia. }
  assert (0 < m1 <= 2 ^ 53) as Hround by lia.
  destruct (shr_fexp_div m1 e' loc_Exact ltac:(lia)) as [Hm2 He2].
  destruct (shr_fexp prec emax m1 e' loc_Exact) as [mrs'' e'']. cbn [fst snd] in Hm2, He2.
  set (d1 := Zdigits2 m1) in *.
  assert (0 < d1 <= 54) as Hd1
    by (split; [apply Zdigits2_pos; lia|apply Zdigits2_le; lia]).
  pose proof (Zdigits2_bounds m1 ltac:(lia)) as Hbounds1. fold d1 in Hbounds1.
  set (n1 := Z.max 0 (SpecFloat.fexp prec emax (d1 + e') - e')) in *.
  assert (n1 = Z.max 0 (d1 - 53)) as Hn1
    by (unfold n1, SpecFloat.fexp, SpecFloat.emin, prec, emax; lia).
  assert (0 < shr_m mrs'') as Hpos.
  { rewrite Hm2. destruct (Z.le_gt_cases d1 53) as [Hle|Hgt].
    - assert (n1 = 0) as -> by lia. rewrite Z.div_1_r. lia.
    - assert (d1 = 54) as Hd54 by lia. assert (n1 = 1) as -> by lia.
      rewrite Hd54 in Hbounds1. change (2 ^ (54 - 1)) with (2 ^ 53) in Hbounds1.
      change (2 ^ 1) with 2. change (2 ^ 53) with 9007199254740992 in *.
      apply Z.div_str_pos. lia. }
  destruct (shr_m mrs'') as [|p|p]; [lia| |lia].
  assert ((e'' <=? emax - prec) = true) as ->
    by (apply Z.leb_le; unfold emax, prec; lia).
  by eexists _, _.
Qed.

Lemma float_of_len_finite (n : nat) :
  0 < Z.of_nat n < 2 ^ 63 ->
  exists m e, Prim2SF (float_of_len n) = S754_finite false m e.
Proof.
  intros Hn. unfold float_of_len. rewrite FloatAxioms.of_uint63_spec.
  rewrite Uint63.of_Z_spec.
  change Uint63.wB with (2 ^ 63). rewrite Z.mod_small by lia.
  destruct (Z.of_nat n) as [|p|p]; try lia.
  cbn [binary_normalize]. unfold binary_round.
  set (d := Zpos (digits2_pos p)).
  pose proof (digits2_pos_bounds p) as Hbounds. fold d in Hbounds.
  assert (0 < d <= 63) as Hd
    by (split; [done|apply (Zdigits2_le (Zpos p)); lia]).
  assert (2 ^ 63 < 2 ^ 64) as H64 by done.
  assert (SpecFloat.fexp prec emax (d + 0) = d - 53) as ->
    by (unfold SpecFloat.fexp, SpecFloat.emin, prec, emax; lia).
  unfold shl_align. rewrite Z.sub_0_r.
  destruct (d - 53) as [|k|k] eqn:Hk.
  - apply binary_round_aux_finite; [clear Hbounds|]; lia.
  - apply binary_round_aux_finite; [clear Hbounds|]; lia.
  - apply binary_round_aux_finite; [|lia].
    change (Pos.iter xO p k) with (shift_pos k p).
    rewrite shift_pos_correct. change (Zpower_pos 2 k) with (2 ^ Zpos k).
    assert (Zpos k = 53 - d) as -> by lia.
    assert (0 < 2 ^ (53 - d)) as Hpow by (apply Z.pow_pos_nonneg; lia).
    assert (2 ^ 53 = 2 ^ (53 - d) * 2 ^ d) as H53
      by (rewrite <- Z.pow_add_r by lia; f_equal; lia).
    assert (2 ^ 53 < 2 ^ 64) as H53' by done.
    split; [lia|]. apply Z.lt_trans with (2 ^ 53); [|exact H53'].
    rewrite H53. apply Z.mul_lt_mono_pos_l; [exact Hpow|lia].
Qed.

(** *** One minus a distance *)

(** Rounding a positive mantissa below [B * 2^(971 - e)], [B] a mantissa
    of 53 bits at most, does not overflow. *)
Lemma binary_round_aux_no_overflow (s : bool) (m e B : Z) (l : location) :
  0 < m -> e <= 971 -> 0 < B < 2 ^ 53 -> m < B * 2 ^ (971 - e) ->
  finite_value (binary_round_aux prec emax s m e l).
Proof.
  intros Hm He HB Hlt. unfold binary_round_aux.
  set (d := Zdigits2 m).
  pose proof (Zdigits2_pos m Hm) as Hd0. fold d in Hd0.
  pose proof (Zdigits2_bounds m Hm) as Hbounds. fold d in Hbounds.
  assert (0 < 2 ^ (971 - e)) as Hk by (apply Z.pow_pos_nonneg; lia).
  assert (m < 2 ^ (1024 - e)) as Hm'.
  { replace (1024 - e) with (53 + (971 - e)) by lia. rewrite Z.pow_add_r by lia.
    apply Z.lt_trans with (B * 2 ^ (971 - e)); [exact Hlt|].
    apply Z.mul_lt_mono_pos_r; lia. }
  assert (d + e <= 1024) as Hde.
  { assert (d <= 1024 - e); [|lia]. apply Zdigits2_le; lia. }
  destruct (shr_fexp_div m e l ltac:(lia)) as [Hm1 He1]. fold d in Hm1, He1.
  destruct (shr_fexp prec emax m e l) as [mrs' e']. cbn [fst snd] in Hm1, He1.
  set (n := Z.max 0 (SpecFloat.fexp prec emax (d + e) - e)) in *.
  assert (n = Z.max 0 (Z.max (d - 53) (-1074 - e))) as Hn
    by (unfold n, SpecFloat.fexp, SpecFloat.emin, prec, emax; lia).
  assert (0 < 2 ^ n) as Hn0 by (apply Z.pow_pos_nonneg; lia).
  assert (0 <= shr_m mrs') as Hm1nn by (rewrite Hm1; apply Z.div_pos; lia).
  (* the shifted mantissa is below [2^53], and below [B] in the top binade *)
  assert (shr_m mrs' < 2 ^ 53 /\ (d + e = 1024 -> shr_m mrs' < B)) as [Hshift Htop].
  { rewrite Hm1. split.
    - destruct (Z.le_gt_cases d 53) as [Hle|Hgt].
      + apply Z.le_lt_trans with m.
        * apply Z.div_le_upper_bound; [lia|]. nia.
        * apply Z.lt_le_trans with (2 ^ d); [lia|]. apply Z.pow_le_mono_r; lia.
      + apply Z.div_lt_upper_bound; [lia|].
        apply Z.lt_le_trans with (2 ^ d); [lia|].
        rewrite <- Z.pow_add_r by lia. apply Z.pow_le_mono_r; lia.
    - intros Htop. assert (n = 971 - e) as -> by lia.
      apply Z.div_lt_upper_bound; lia. }
  set (m1 := round_nearest_even (shr_m mrs') (loc_of_shr_record mrs')).
  assert (shr_m mrs' <= m1 <= shr_m mrs' + 1) as Hm1'.
  { unfold m1. destruct (loc_of_shr_record mrs') as [|[]]; cbn [round_nearest_even];
      try lia. destruct (Z.even _); lia. }
  destruct (shr_fexp_div m1 e' loc_Exact ltac:(lia)) as [Hm2 He2].
  destruct (shr_fexp prec emax m1 e' loc_Exact) as [mrs'' e'']. cbn [fst snd] in Hm2, He2.
  destruct (shr_m mrs'') as [|p|p] eqn:Hp; [done| |].
  2:{ assert (0 <= Z.neg p); [|lia]. rewrite Hm2. apply Z.div_pos; [lia|].
      apply Z.pow_pos_nonneg; lia. }
  assert (0 < m1) as Hm1pos.
  { destruct (Z.eq_dec m1 0) as [H0|]; [|lia].
    rewrite H0 in Hm2. by rewrite Z.div_0_l in Hm2 by (apply Z.pow_nonzero; lia). }
  set (d1 := Zdigits2 m1) in *.
  pose proof (Zdigits2_pos m1 Hm1pos) as Hd1. fold d1 in Hd1.
  assert ((n <= d -> d1 <= d - n + 1) /\ (d < n -> d1 <= 1)
          /\ (d + e = 1024 -> d1 <= 53)) as (Hshifted & Hlost & Hd53).
  { split; [|split].
    - intros Hnd. apply Zdigits2_le; [lia|lia|].
      assert (shr_m mrs' < 2 ^ (d - n)) as Hlt'.
      { rewrite Hm1. apply Z.div_lt_upper_bound; [lia|].
        rewrite <- Z.pow_add_r by lia. replace (n + (d - n)) with d by lia. lia. }
      replace (d - n + 1) with (1 + (d - n)) by lia. rewrite Z.pow_add_r by lia.
      change (2 ^ 1) with 2. lia.
    - intros Hdn. apply Zdigits2_le; [lia|lia|]. change (2 ^ 1) with 2.
      assert (shr_m mrs' = 0) as Hzero; [|lia].
      rewrite Hm1. apply Z.div_small. split; [lia|].
      apply Z.lt_le_trans with (2 ^ d); [lia|]. apply Z.pow_le_mono_r; lia.
    - intros Htop'. apply Zdigits2_le; [lia|lia|].
      specialize (Htop Htop'). lia. }
  assert ((e'' <=? emax - prec) = true) as ->; [|done].
  apply Z.leb_le. rewrite He2, He1.
  unfold SpecFloat.fexp, SpecFloat.emin, prec, emax. lia.
Qed.

Lemma shl_align_value (mx : positive) (ex ex' : Z) :
  snd (shl_align mx ex ex') = Z.min ex ex'
  /\ Zpos (fst (shl_align mx ex ex')) = Zpos mx * 2 ^ (ex - Z.min ex ex').
Proof.
  unfold shl_align. destruct (ex' - ex) as [|k|k] eqn:Hk; cbn [fst snd].
  - rewrite Z.min_l by lia. rewrite Z.sub_diag. split; [reflexivity|lia].
  - rewrite Z.min_l by lia. rewrite Z.sub_diag. split; [reflexivity|lia].
  - rewrite Z.min_r by lia. split; [reflexivity|].
    change (Pos.iter xO mx k) with (shift_pos k mx).
    rewrite shift_pos_correct. change (Zpower_pos 2 k) with (2 ^ Zpos k).
    replace (ex - ex') with (Zpos k) by lia. lia.
Qed.

Lemma binary_round_no_overflow (s : bool) (m : positive) (e B : Z) :
  e <= 971 -> 0 < B < 2 ^ 53 -> Zpos m < B * 2 ^ (971 - e) ->
  finite_value (binary_round prec emax s m e).
Proof.
  intros He HB Hlt. unfold binary_round.
  destruct (shl_align_value m e (SpecFloat.fexp prec emax (Zpos (digits2_pos m) + e)))
    as [Hez Hmz].
  destruct (shl_align m e _) as [mz ez]. cbn [fst snd] in Hez, Hmz.
  rewrite <- Hez in Hmz.
  apply (binary_round_aux_no_overflow s (Zpos mz) ez B); [done|lia|exact HB|].
  rewrite Hmz.
  assert (0 < 2 ^ (e - ez)) by (apply Z.pow_pos_nonneg; lia).
  assert (2 ^ (971 - ez) = 2 ^ (971 - e) * 2 ^ (e - ez)) as ->
    by (rewrite <- Z.pow_add_r by lia; f_equal; lia).
  rewrite Z.mul_assoc. apply Z.mul_lt_mono_pos_r; lia.
Qed.

(** The similarity [1 - distance] of a finite distance that is not
    negative is a finite number. *)
Lemma one_minus_distance_finite (d : float) :
  PrimFloat.is_finite d = true -> PrimFloat.leb 0 d = true ->
  PrimFloat.is_finite (1 - d) = true.
Proof.
  rewrite !finite_Prim2SF, FloatAxioms.leb_spec, FloatAxioms.sub_spec.
  unfold SF64sub.
  assert (Prim2SF 1 = S754_finite false 4503599627370496 (-52)) as -> by reflexivity.
  assert (Prim2SF 0 = S754_zero false) as -> by reflexivity.
  pose proof (Prim2SF_valid d) as Hvalid.
  destruct (Prim2SF d) as [sd|sd| |sd md ed]; try done.
  destruct sd; [done|]. intros _ _.
  unfold valid_binary, SpecFloat.bounded, canonical_mantissa in Hvalid.
  apply andb_prop in Hvalid as [Hcanonical Hed].
  apply Z.eqb_eq in Hcanonical. apply Z.leb_le in Hed.
  pose proof (digits2_pos_bounds md) as Hdigits.
  assert (Zpos md < 2 ^ 53) as Hmd.
  { apply Z.lt_le_trans with (2 ^ Zpos (digits2_pos md)); [lia|].
    apply Z.pow_le_mono_r; [lia|].
    revert Hcanonical. unfold SpecFloat.fexp, SpecFloat.emin, prec, emax. lia. }
  unfold emax, prec in Hed.
  cbn [SFsub cond_Zopp]. set (ez := Z.min (-52) ed).
  destruct (shl_align_value 4503599627370496 (-52) ez) as [_ Ha].
  destruct (shl_align_value md ed ez) as [_ Hb].
  rewrite (Z.min_r (-52) ez) in Ha by lia. rewrite (Z.min_r ed ez) in Hb by lia.
  set (a := Zpos (fst (shl_align 4503599627370496 (-52) ez))) in *.
  set (b := Zpos (fst (shl_align md ed ez))) in *.
  assert (0 < a) by done. assert (0 < b) by done.
  destruct (a - b) as [|p|p] eqn:Hz; [done| |]; cbn [binary_normalize].
  - apply (binary_round_no_overflow false p ez (2 ^ 52)); [lia|done|].
    apply Z.lt_le_trans with a; [lia|]. rewrite Ha.
    change 4503599627370496 with (2 ^ 52).
    apply Z.mul_le_mono_nonneg_l; [done|]. apply Z.pow_le_mono_r; lia.
  - apply (binary_round_no_overflow true p ez (Zpos md)); [lia|lia|].
    apply Z.lt_le_trans with b; [lia|]. rewrite Hb.
    apply Z.mul_le_mono_nonneg_l; [done|]. apply Z.pow_le_mono_r; lia.
Qed.

Lemma format_results_finite (results : Store.QueryResult) (row : list pystr) (i : nat)
    (acc out : list VectorDB.SearchResult) :
  metric_distances results ->
  Store.format_results results row i acc = Some out ->
  finite_similarities acc -> finite_similarities out.
Proof.
  intros Hmetric. revert i acc.
  induction row as [|id_i row IH]; intros i acc; cbn [Store.format_results].
  - by intros [= <-].
  - destruct (Store.row_item (Store.result_documents results) i []) as [text|]; [|done].
    destruct (Store.row_item (Store.result_metadatas results) i ∅) as [metadata|]; [|done].
    destruct (Store.row_item (Store.result_distances results) i 0%float)
      as [distance|] eqn:Hdistance; [|done].
    intros Hout Hacc. apply (IH _ _ Hout). apply Forall_app. split; [exact Hacc|].
    apply Forall_singleton. cbn [VectorDB.formatted VectorDB.similarity].
    assert (PrimFloat.is_finite distance = true /\ PrimFloat.leb 0 distance = true)
      as [Hfinite Hpos]; [|by apply one_minus_distance_finite].
    unfold Store.row_item, metric_distances in *.
    destruct (Store.result_distances results) as [[|[|d0 row0] rows]|];
      try (injection Hdistance as <-; by split).
    apply Forall_cons_1 in Hmetric as [Hrow0 _].
    by apply (Forall_lookup_1 _ _ _ _ Hrow0 Hdistance).
Qed.

(** The results of [VectorDB.search] have finite similarities when the
    distances of the collection are finite and not negative. *)
Lemma search_similarities_finite {chroma : Store.Chroma} (TOP_K : Z) (query : pyval)
    (top_k : option Z) (s : Store.store) :
  (forall s' embedding k results,
     Store.collection_query s' embedding k = Ok results -> metric_distances results) ->
  finite_similarities (Store.search TOP_K query top_k s).1.
Proof.
  intros Hmetric. unfold Store.search.
  destruct (Store.encode s [query]) as [query_embedding|e]; [|by constructor].
  destruct (Store.collection_query _ _ _) as [results|e] eqn:Hquery; [|by constructor].
  destruct (Store.result_ids results) as [|[|id0 row] rest]; try by constructor.
  destruct (Store.format_results results (id0 :: row) 0 []) as [out|] eqn:Hout;
    [|by constructor].
  cbn [fst]. apply (format_results_finite results (id0 :: row) 0 [] out); [|exact Hout|].
  - by apply (Hmetric _ _ _ _ Hquery).
  - by constructor.
Qed.

(** C4. On an empty list the confidence is [0.0]; on a non-empty list it
    is [round(min(max(mean * 1.2, 0.1), 1.0), 2)], [mean] being the sum of
    the similarities over their number; and it lies in [[0.1, 1.0]] for
    every non-empty list of results whose similarities are finite numbers
    (no more results than a Python list can hold), [sum] making a number
    of finite numbers. The left-to-right sum does ([naive_sum_number]),
    and the results of [VectorDB.search] have finite similarities when
    the distances of the collection are finite and not negative
    ([search_similarities_finite]). *)
Theorem calculate_confidence_bounds {backend : Backend}
    (hits : list VectorDB.SearchResult) :
  _calculate_confidence [] = 0%float
  /\ (hits <> [] ->
      let mean := (py_sum (VectorDB.similarity <$> hits)
                   / float_of_len (length hits))%float in
      _calculate_confidence hits
      = py_round2 (py_min (py_max (mean * 1.2)%float 0.1%float) 1%float))
  /\ (hits <> [] ->
      Z.of_nat (length hits) < 2 ^ 63 ->
      finite_similarities hits ->
      sum_of_numbers py_sum ->
      PrimFloat.leb 0.1 (_calculate_confidence hits) = true
      /\ PrimFloat.leb (_calculate_confidence hits) 1 = true).
Proof.
  split; [reflexivity|].
  assert (hits <> [] ->
          _calculate_confidence hits
          = py_round2 (py_min (py_max
              (py_sum (VectorDB.similarity <$> hits) / float_of_len (length hits) * 1.2)%float
              0.1%float) 1%float)) as Heq.
  { intros Hhits. destruct hits as [|h hits]; [done|].
    unfold _calculate_confidence. cbv zeta. by rewrite length_fmap. }
  split; [exact Heq|].
  intros Hhits Hlen Hfinite Hsum. rewrite (Heq Hhits).
  apply clamp_round_bounds, mul_number; [|by eexists _, _, _].
  apply div_number.
  - apply Hsum. by apply Forall_fmap.
  - destruct (float_of_len_finite (length hits)) as (m & e & Hn).
    + split; [|exact Hlen]. destruct hits; [done|]. cbn [length]. lia.
    + by eexists _, _, _.
Qed.

(** C4 on the scenario of the specification: three results at distances
    [0.1], [0.2] and [0.15], of similarities [0.9], [0.8] and [0.85],
    give the confidence [1.0]. *)
Lemma calculate_confidence_bounds_witness :
  let backend := scripted [] [] in
  let hits := [at_distance 0.1; at_distance 0.2; at_distance 0.15] in
  VectorDB.similarity <$> hits = [0.9; 0.8; 0.85]%float
  /\ _calculate_confidence hits = 1%float
  /\ PrimFloat.leb 0.1 (_calculate_confidence hits) = true
  /\ PrimFloat.leb (_calculate_confidence hits) 1 = true.
Proof.
  cbv zeta.
  pose proof (proj2 (proj2 (calculate_confidence_bounds (backend := scripted [] [])
                     [at_distance 0.1; at_distance 0.2; at_distance 0.15])))
    as Hbounds.
  split; [vm_compute; reflexivity|]. split; [vm_compute; reflexivity|].
  apply Hbounds.
  - discriminate.
  - reflexivity.
  - repeat constructor.
  - exact naive_sum_number.
Defined.

(** ** More of the chunker *)

(** *** Whitespace and [strip] *)

Lemma lstrip_head (s : pystr) (c : N) (t : pystr) : lstrip s = c :: t -> isspace c = false.
Proof.
  induction s as [|a s IH]; simpl; [done|].
  destruct (isspace a) eqn:Ea; [done|]. by intros [= <- _].
Qed.

Lemma lstrip_nil_iff (s : pystr) : lstrip s = [] <-> forallb isspace s = true.
Proof.
  induction s as [|a s IH]; simpl; [done|].
  destruct (isspace a); simpl; [done|]. split; done.
Qed.

Lemma forallb_isspace_reverse (s : pystr) :
  forallb isspace (reverse s) = forallb isspace s.
Proof.
  induction s as [|a s IH]; [done|].
  rewrite reverse_cons, forallb_app, IH. simpl. rewrite andb_true_r. apply andb_comm.
Qed.

Lemma strip_nil_iff (s : pystr) : strip s = [] <-> forallb isspace s = true.
Proof.
  unfold strip, rstrip. split.
  - intros H. apply (f_equal reverse) in H. rewrite reverse_involutive in H.
    change (reverse []) with (@nil N) in H.
    apply lstrip_nil_iff in H. rewrite forallb_isspace_reverse in H.
    destruct (lstrip s) as [|c t] eqn:E; [by apply lstrip_nil_iff|].
    apply lstrip_head in E. simpl in H. by rewrite E in H.
  - intros H. apply lstrip_nil_iff in H. by rewrite H.
Qed.

Lemma lstrip_suffix (s : pystr) : exists t, s = t ++ lstrip s.
Proof.
  induction s as [|a s [t IH]]; simpl; [by exists []|].
  destruct (isspace a); [|by exists []].
  exists (a :: t). simpl. by rewrite <- IH.
Qed.

Lemma rstrip_prefix (s : pystr) : exists t, s = rstrip s ++ t.
Proof.
  destruct (lstrip_suffix (reverse s)) as [t Ht]. exists (reverse t).
  unfold rstrip. rewrite <- reverse_app, <- Ht. by rewrite reverse_involutive.
Qed.

Lemma lstrip_idem (s : pystr) : lstrip (lstrip s) = lstrip s.
Proof.
  destruct (lstrip s) as [|c t] eqn:E; [done|].
  apply lstrip_head in E. simpl. by rewrite E.
Qed.

Lemma rstrip_idem (s : pystr) : rstrip (rstrip s) = rstrip s.
Proof. unfold rstrip. by rewrite reverse_involutive, lstrip_idem. Qed.

(** What [strip] returns has nothing left to strip. *)
Lemma strip_stripped (s : pystr) :
  lstrip (strip s) = strip s /\ rstrip (strip s) = strip s.
Proof.
  unfold strip. split; [|apply rstrip_idem].
  destruct (rstrip (lstrip s)) as [|c t] eqn:E; [done|].
  destruct (rstrip_prefix (lstrip s)) as [u Hu]. rewrite E in Hu.
  apply lstrip_head in Hu. simpl. by rewrite Hu.
Qed.

Lemma strip_idem (s : pystr) : strip (strip s) = strip s.
Proof.
  destruct (strip_stripped s) as [Hl Hr]. unfold strip at 1. by rewrite Hl, Hr.
Qed.

(** *** [split] and [join] *)

Lemma split_scan_nonempty (sep s : pystr) (k : nat) (cur : pystr) :
  split_scan sep s k cur <> [].
Proof.
  revert k cur. induction s as [|c s IH]; intros k cur; simpl; [done|].
  destruct k; [|apply IH]. destruct (startswith sep (c :: s)); [done|apply IH].
Qed.

Lemma join_cons (sep p : pystr) (rest : list pystr) :
  rest <> [] -> join sep (p :: rest) = p ++ sep ++ join sep rest.
Proof. by destruct rest. Qed.

Lemma startswith_app (p s : pystr) : startswith p s = true -> s = p ++ drop (length p) s.
Proof.
  revert s. induction p as [|a p IH]; intros s; simpl; [done|].
  destruct s as [|b s]; [done|].
  intros H. apply andb_true_iff in H as [Hab Hp]. apply N.eqb_eq in Hab as ->.
  simpl. f_equal. by apply IH.
Qed.

(** Joining the pieces of a split with the separator gives the string
    back. *)
Lemma join_split_scan (sep s : pystr) (k : nat) (cur : pystr) :
  sep <> [] -> (k <= length s)%nat ->
  join sep (split_scan sep s k cur) = reverse cur ++ drop k s.
Proof.
  intros Hsep. revert k cur. induction s as [|c s IH]; intros k cur Hk.
  - simpl in Hk. replace k with 0%nat by lia. simpl. by rewrite app_nil_r.
  - destruct k as [|k].
    + change (split_scan sep (c :: s) 0 cur)
        with (if startswith sep (c :: s)
              then reverse cur :: split_scan sep s (length sep - 1) []
              else split_scan sep s 0 (c :: cur)).
      destruct (startswith sep (c :: s)) eqn:Es.
      * apply startswith_app in Es.
        destruct sep as [|a sep]; [done|]. simpl in Es. injection Es as <- Es.
        rewrite join_cons by apply split_scan_nonempty.
        assert (length sep <= length s)%nat as Hlen.
        { rewrite Es, length_app. lia. }
        rewrite IH by (simpl; lia).
        simpl. rewrite Nat.sub_0_r. by rewrite <- Es.
      * rewrite IH by lia. by rewrite reverse_cons, <- app_assoc.
    + simpl. apply IH. simpl in Hk. lia.
Qed.

Lemma join_split (sep s : pystr) : sep <> [] -> join sep (split sep s) = s.
Proof. intros Hsep. unfold split. by rewrite join_split_scan by (done || lia). Qed.

Lemma forallb_isspace_join (ps : list pystr) :
  forallb isspace (join blank_line ps) = forallb (forallb isspace) ps.
Proof.
  induction ps as [|p ps IH]; [done|].
  destruct ps as [|q ps].
  - simpl. by rewrite andb_true_r.
  - rewrite join_cons by done. rewrite !forallb_app, IH. done.
Qed.

(** A text is blank exactly when each of its paragraphs is. *)
Lemma blank_paragraphs (txt : pystr) :
  forallb (forallb isspace) (split blank_line txt) = forallb isspace txt.
Proof. by rewrite <- forallb_isspace_join, join_split. Qed.

(** *** Steps of the loop *)

Lemma chunk_step_blank (chunk_size : Z) (src : pystr) (st : chunker) (p : pystr) :
  forallb isspace p = true -> chunk_step chunk_size src st p = Ok st.
Proof. intros H. apply strip_nil_iff in H. unfold chunk_step. by rewrite H. Qed.

Lemma chunk_loop_blank (chunk_size : Z) (src : pystr) (st : chunker) (ps : list pystr) :
  forallb (forallb isspace) ps = true -> chunk_loop chunk_size src st ps = Ok st.
Proof.
  induction ps as [|p ps IH]; simpl; [done|].
  intros H. apply andb_true_iff in H as [Hp Hps].
  rewrite chunk_step_blank by done. by apply IH.
Qed.

Lemma strip_not_blank (p : pystr) : forallb isspace p = false -> strip p <> [].
Proof. intros H E. apply strip_nil_iff in E. congruence. Qed.

Lemma emit_slices_texts (chunk_size : Z) (src p : pystr) (idx : list Z)
    (cs : list DocumentChunk) (n : nat) :
  text <$> (emit_slices chunk_size src p idx cs n).1
  = (text <$> cs) ++ ((fun i => slice p i (i + chunk_size)) <$> idx).
Proof.
  revert cs n. induction idx as [|i idx IH]; intros cs n; simpl.
  - by rewrite app_nil_r.
  - rewrite IH, fmap_app. simpl. by rewrite <- app_assoc.
Qed.

Lemma emit_slices_sources (chunk_size : Z) (src p : pystr) (idx : list Z)
    (cs : list DocumentChunk) (n : nat) :
  source <$> (emit_slices chunk_size src p idx cs n).1
  = (source <$> cs) ++ ((fun _ => src) <$> idx).
Proof.
  revert cs n. induction idx as [|i idx IH]; intros cs n; simpl.
  - by rewrite app_nil_r.
  - rewrite IH, fmap_app. simpl. by rewrite <- app_assoc.
Qed.

(** [range(0, hi, step)] for a positive step and a positive bound. *)
Lemma range_positive (hi step : Z) :
  0 < step -> 0 < hi ->
  range 0 hi step
  = Ok ((fun k => Z.of_nat k * step) <$> seq 0 (Z.to_nat (1 + (hi - 1) / step))).
Proof.
  intros Hs Hh. unfold range, range_len.
  destruct (Z.eqb_spec step 0); [lia|].
  destruct (Z.ltb_spec 0 step); [|lia]. destruct (Z.ltb_spec 0 hi); [|lia].
  simpl. by rewrite Z.sub_0_r.
Qed.

(** *** Degenerate maximum sizes *)

Lemma chunk_step_zero (src : pystr) (st : chunker) (p : pystr) :
  forallb isspace p = false -> chunk_step 0 src st p = Raise ValueError.
Proof.
  intros H. apply strip_not_blank in H. unfold chunk_step.
  destruct (strip p) as [|c q]; [done|].
  destruct (Z.gtb_spec (Z.of_nat (length (c :: q))) 0) as [_|Hle]; [done|].
  simpl in Hle. lia.
Qed.

Lemma chunk_loop_zero (src : pystr) (st : chunker) (ps : list pystr) :
  chunk_loop 0 src st ps
  = if forallb (forallb isspace) ps then Ok st else Raise ValueError.
Proof.
  induction ps as [|p ps IH]; simpl; [done|].
  destruct (forallb isspace p) eqn:Ep; simpl.
  - by rewrite chunk_step_blank.
  - by rewrite chunk_step_zero.
Qed.

(** A blank text gives no chunk, whatever the maximum size. *)
Lemma chunk_text_blank (chunk_size : Z) (txt src : pystr) :
  forallb isspace txt = true -> chunk_text chunk_size txt src = Ok [].
Proof.
  intros Hb. unfold chunk_text.
  rewrite chunk_loop_blank by by rewrite blank_paragraphs. done.
Qed.

Lemma chunk_text_zero_raises (txt src : pystr) :
  forallb isspace txt = false -> chunk_text 0 txt src = Raise ValueError.
Proof.
  intros Hb. unfold chunk_text. by rewrite chunk_loop_zero, blank_paragraphs, Hb.
Qed.

(** X1. With a maximum chunk size of zero, [chunk_text] returns no chunk
    for a text that is all whitespace (the empty text included) and raises
    [ValueError] for every other text. *)
Theorem chunk_text_zero_size (txt src : pystr) :
  chunk_text 0 txt src = if forallb isspace txt then Ok [] else Raise ValueError.
Proof.
  destruct (forallb isspace txt) eqn:Hb.
  - by apply chunk_text_blank.
  - by apply chunk_text_zero_raises.
Qed.

Lemma chunk_step_negative (chunk_size : Z) (src : pystr) (st : chunker) (p : pystr)
    (st' : chunker) :
  chunk_size < 0 ->
  chunks st = [] /\ current_chunk st = [] ->
  chunk_step chunk_size src st p = Ok st' ->
  chunks st' = [] /\ current_chunk st' = [].
Proof.
  intros Hneg [Hcs Hcur]. unfold chunk_step.
  destruct (strip p) as [|c q]; [by intros [= <-]|].
  destruct (Z.gtb_spec (Z.of_nat (length (c :: q))) chunk_size) as [_|Hle]; [|lia].
  pose proof (range_from_zero (Z.of_nat (length (c :: q))) chunk_size) as Hr.
  destruct (range _ _ _) as [idx|e]; [|done].
  destruct Hr as (_ & _ & Hidx). rewrite Hidx by lia.
  unfold flush. rewrite Hcur. simpl. by intros [= <-].
Qed.

(** X2. With a negative maximum chunk size, [chunk_text] returns no chunk
    at all, whatever the text: every paragraph counts as oversized and its
    hard split is empty. *)
Theorem chunk_text_negative_size (chunk_size : Z) (txt src : pystr) :
  chunk_size < 0 -> chunk_text chunk_size txt src = Ok [].
Proof.
  intros Hneg. unfold chunk_text.
  destruct (chunk_loop _ _ _ _) as [st|e] eqn:E.
  - assert (chunks st = [] /\ current_chunk st = []) as [Hcs Hcur].
    { eapply (chunk_loop_invariant chunk_size src
                (fun st => chunks st = [] /\ current_chunk st = [])); [| |exact E].
      - intros st0 p st1. by apply chunk_step_negative.
      - done. }
    unfold flush. by rewrite Hcur, Hcs.
  - apply chunk_loop_raise in E. lia.
Qed.

Lemma chunk_text_negative_size_witness :
  chunk_text (-1) three_paragraphs (py "doc.txt") = Ok [].
Proof. apply chunk_text_negative_size. lia. Defined.

(** *** What a positive maximum size guarantees *)

Lemma chunk_loop_returns (chunk_size : Z) (src : pystr) (st : chunker) (ps : list pystr) :
  chunk_size <> 0 -> exists st', chunk_loop chunk_size src st ps = Ok st'.
Proof.
  intros Hne. destruct (chunk_loop chunk_size src st ps) as [st'|e] eqn:E; [by eexists|].
  apply chunk_loop_raise in E. done.
Qed.

Lemma slice_nonempty (s : pystr) (i n : Z) :
  0 <= i < Z.of_nat (length s) -> 0 < n -> slice s i (i + n) <> [].
Proof.
  intros Hi Hn H. apply (f_equal length) in H. revert H.
  unfold slice, slice_bound. rewrite length_take, length_drop. simpl.
  destruct (Z.ltb_spec i 0), (Z.ltb_spec (i + n) 0); lia.
Qed.

Lemma range_positive_bounds (hi step : Z) (k : nat) :
  0 < step -> 0 < hi -> (k < Z.to_nat (1 + (hi - 1) / step))%nat ->
  0 <= Z.of_nat k * step < hi.
Proof.
  intros Hs Hh Hk.
  assert (0 <= (hi - 1) / step) by (apply Z.div_pos; lia).
  assert (Z.of_nat k <= (hi - 1) / step) as Hk' by lia.
  assert (step * ((hi - 1) / step) <= hi - 1) by (apply Z.mul_div_le; lia).
  nia.
Qed.

(** The state after a paragraph that is not blank: something has been
    collected, every chunk has a text, and the buffer is stripped. *)
Lemma chunk_step_collects (chunk_size : Z) (src : pystr) (st : chunker) (p : pystr)
    (st' : chunker) :
  0 < chunk_size -> forallb isspace p = false ->
  chunk_step chunk_size src st p = Ok st' ->
  chunks st' <> [] \/ current_chunk st' <> [].
Proof.
  intros Hpos Hp. apply strip_not_blank in Hp. unfold chunk_step.
  destruct (strip p) as [|c q] eqn:Ep; [done|].
  destruct (_ >? chunk_size).
  - rewrite range_positive by (simpl; lia).
    destruct (emit_slices _ _ _ _ _ _) as [cs n] eqn:Es. intros [= <-]. simpl. left.
    intros ->.
    assert (0 <= (Z.of_nat (length (c :: q)) - 1) / chunk_size) as Hq
      by (apply Z.div_pos; simpl; lia).
    apply (f_equal (fun x => length (text <$> x.1))) in Es.
    rewrite emit_slices_texts, length_app, !length_fmap, length_seq in Es.
    change (length (([] : list DocumentChunk), n).1) with 0%nat in Es.
    lia.
  - destruct (_ >? chunk_size); [intros [= <-]; by right|].
    destruct (current_chunk st); intros [= <-]; right; done.
Qed.

Lemma chunk_step_keeps (chunk_size : Z) (src : pystr) (st : chunker) (p : pystr)
    (st' : chunker) :
  0 < chunk_size ->
  chunks st <> [] \/ current_chunk st <> [] ->
  chunk_step chunk_size src st p = Ok st' ->
  chunks st' <> [] \/ current_chunk st' <> [].
Proof.
  intros Hpos Hst Hstep.
  destruct (forallb isspace p) eqn:Ep.
  - rewrite chunk_step_blank in Hstep by done. by injection Hstep as <-.
  - by eapply chunk_step_collects.
Qed.

Lemma chunk_loop_collects (chunk_size : Z) (src : pystr) (ps : list pystr)
    (st st' : chunker) :
  0 < chunk_size -> forallb (forallb isspace) ps = false ->
  chunk_loop chunk_size src st ps = Ok st' ->
  chunks st' <> [] \/ current_chunk st' <> [].
Proof.
  intros Hpos. revert st. induction ps as [|p ps IH]; intros st; simpl; [done|].
  destruct (forallb isspace p) eqn:Ep; simpl.
  - rewrite chunk_step_blank by done. apply IH.
  - intros _. destruct (chunk_step chunk_size src st p) as [st1|e] eqn:E; [|done].
    apply (chunk_loop_invariant chunk_size src
             (fun st => chunks st <> [] \/ current_chunk st <> [])).
    + intros ???. by apply chunk_step_keeps.
    + by eapply chunk_step_collects.
Qed.

Lemma flush_collected (src : pystr) (st : chunker) :
  chunks st <> [] \/ current_chunk st <> [] -> chunks (flush src st) <> [].
Proof.
  unfold flush. destruct (current_chunk st) as [|c q]; simpl.
  - by intros [|].
  - intros _ H. by apply app_eq_nil in H as [_ ?].
Qed.

(** X3. With a positive maximum chunk size [chunk_text] always returns,
    and it returns no chunk exactly for the texts that are all whitespace
    (the empty text included). *)
Theorem chunk_text_empty_iff_blank (chunk_size : Z) (txt src : pystr) :
  0 < chunk_size ->
  exists cs, chunk_text chunk_size txt src = Ok cs
             /\ (cs = [] <-> forallb isspace txt = true).
Proof.
  intros Hpos.
  destruct (forallb isspace txt) eqn:Eb.
  - rewrite chunk_text_blank by done. by eexists.
  - unfold chunk_text.
    destruct (chunk_loop_returns chunk_size src
                {| chunks := []; current_chunk := []; chunk_counter := 0 |}
                (split blank_line txt)) as [st E]; [lia|].
    rewrite E. eexists. split; [done|]. split; [|done].
    intros H. exfalso. revert H. apply flush_collected.
    eapply chunk_loop_collects; [done| |exact E]. by rewrite blank_paragraphs.
Qed.

Lemma chunk_text_empty_iff_blank_witness :
  exists cs, chunk_text 1024 (py "   ") (py "doc.txt") = Ok cs
             /\ (cs = [] <-> forallb isspace (py "   ") = true).
Proof. apply chunk_text_empty_iff_blank. lia. Defined.

(** *** Chunks with a text, from this document *)

Lemma stripped_strip (s : pystr) : stripped (strip s).
Proof. apply strip_stripped. Qed.

Lemma strip_of_stripped (s : pystr) : stripped s -> strip s = s.
Proof. intros [Hl Hr]. unfold strip. by rewrite Hl, Hr. Qed.

Lemma stripped_join (a b : pystr) :
  a <> [] -> stripped a -> b <> [] -> stripped b -> stripped (a ++ blank_line ++ b).
Proof.
  intros Ha [La _] Hb [_ Rb].
  apply strip_fixed. by apply strip_between.
Qed.

Lemma emit_slices_Forall (P : DocumentChunk -> Prop) (chunk_size : Z) (src p : pystr)
    (idx : list Z) (cs : list DocumentChunk) (n : nat) :
  Forall P cs ->
  (forall i k, i ∈ idx -> P (emit (slice p i (i + chunk_size)) src k)) ->
  Forall P (emit_slices chunk_size src p idx cs n).1.
Proof.
  revert cs n. induction idx as [|i idx IH]; intros cs n Hcs Hidx; simpl; [done|].
  apply IH.
  - apply Forall_app. split; [done|]. apply Forall_singleton, Hidx. by left.
  - intros j k Hj. apply Hidx. by right.
Qed.

Lemma chunk_step_texts (chunk_size : Z) (src : pystr) (st : chunker) (p : pystr)
    (st' : chunker) :
  0 < chunk_size ->
  Forall (fun c => text c <> [] /\ source c = src) (chunks st)
  /\ (current_chunk st = [] \/ stripped (current_chunk st)) ->
  chunk_step chunk_size src st p = Ok st' ->
  Forall (fun c => text c <> [] /\ source c = src) (chunks st')
  /\ (current_chunk st' = [] \/ stripped (current_chunk st')).
Proof.
  intros Hpos [Hcs Hcur].
  assert (Forall (fun c => text c <> [] /\ source c = src) (chunks (flush src st))) as Hfl.
  { unfold flush. destruct (current_chunk st) as [|a r] eqn:Ec; [done|]. simpl.
    apply Forall_app. split; [done|]. apply Forall_singleton. simpl. split; [|done].
    destruct Hcur as [|Hs]; [done|]. by rewrite strip_of_stripped. }
  unfold chunk_step. pose proof (stripped_strip p) as Hp.
  destruct (strip p) as [|c q] eqn:Ep; [by intros [= <-]|].
  destruct (_ >? chunk_size).
  - rewrite range_positive by (simpl; lia).
    destruct (emit_slices _ _ _ _ _ _) as [cs n] eqn:Es. intros [= <-]. simpl.
    split; [|by left]. change cs with (cs, n).1. rewrite <- Es.
    apply emit_slices_Forall; [done|].
    intros i k Hi. apply list_elem_of_fmap in Hi as (j & -> & Hj).
    apply elem_of_seq in Hj. simpl. split; [|done].
    apply slice_nonempty; [|done].
    apply range_positive_bounds; [done|simpl; lia|lia].
  - destruct (_ >? chunk_size); [intros [= <-]; split; [done|by right]|].
    destruct (current_chunk st) as [|a r] eqn:Ec; intros [= <-];
      (split; [done|right]); [done|].
    destruct Hcur as [|Hs]; [done|]. by apply (stripped_join (a :: r) (c :: q)).
Qed.

Lemma chunk_loop_texts (chunk_size : Z) (src : pystr) (ps : list pystr) (st : chunker) :
  0 < chunk_size ->
  chunk_loop chunk_size src {| chunks := []; current_chunk := []; chunk_counter := 0 |} ps
  = Ok st ->
  Forall (fun c => text c <> [] /\ source c = src) (chunks st)
  /\ (current_chunk st = [] \/ stripped (current_chunk st)).
Proof.
  intros Hpos E.
  eapply (chunk_loop_invariant chunk_size src
            (fun st => Forall (fun c => text c <> [] /\ source c = src) (chunks st)
                       /\ (current_chunk st = [] \/ stripped (current_chunk st))));
    [| |exact E].
  - intros ???. by apply chunk_step_texts.
  - split; [done|by left].
Qed.

(** X4. With a positive maximum chunk size, every chunk [chunk_text]
    returns has a text that is not empty and carries the source name it
    was called with. *)
Theorem chunk_text_no_empty_chunk (chunk_size : Z) (txt src : pystr)
    (cs : list DocumentChunk) :
  0 < chunk_size -> chunk_text chunk_size txt src = Ok cs ->
  Forall (fun c => text c <> [] /\ source c = src) cs.
Proof.
  intros Hpos. unfold chunk_text.
  destruct (chunk_loop _ _ _ _) as [st|e] eqn:E; [|done]. intros [= <-].
  apply chunk_loop_texts in E as [Hcs Hcur]; [|done].
  unfold flush. destruct (current_chunk st) as [|a r] eqn:Ec; [done|]. simpl.
  apply Forall_app. split; [done|]. apply Forall_singleton. simpl. split; [|done].
  destruct Hcur as [|Hs]; [done|]. by rewrite strip_of_stripped.
Qed.

Lemma chunk_text_no_empty_chunk_witness :
  exists cs, chunk_text 20 three_paragraphs (py "doc.txt") = Ok cs
             /\ length cs = 4%nat
             /\ Forall (fun c => text c <> [] /\ source c = py "doc.txt") cs.
Proof.
  eexists. split; [vm_compute; reflexivity|]. split; [reflexivity|].
  apply (chunk_text_no_empty_chunk 20 three_paragraphs (py "doc.txt")); [lia|].
  vm_compute. reflexivity.
Defined.

(** *** Nothing visible is lost *)

Lemma visible_app (a b : pystr) : visible (a ++ b) = visible a ++ visible b.
Proof. unfold visible, pystr. apply filter_app. Qed.

Lemma visible_blank (s : pystr) : forallb isspace s = true -> visible s = [].
Proof.
  unfold visible, pystr. induction s as [|c s IH]; [done|].
  intros H. simpl in H. apply andb_true_iff in H as [Hc Hs].
  rewrite filter_cons. rewrite decide_False by (rewrite Hc; done). by apply IH.
Qed.

Lemma visible_lstrip (s : pystr) : visible (lstrip s) = visible s.
Proof.
  unfold visible, pystr. induction s as [|c s IH]; [done|].
  cbn [lstrip]. destruct (isspace c) eqn:Ec; [|done].
  rewrite (filter_cons _ c s). by rewrite decide_False by (rewrite Ec; done).
Qed.

Lemma visible_reverse (s : pystr) : visible (reverse s) = reverse (visible s).
Proof. unfold visible, pystr. apply filter_reverse. Qed.

Lemma visible_strip (s : pystr) : visible (strip s) = visible s.
Proof.
  unfold strip, rstrip.
  by rewrite visible_reverse, visible_lstrip, visible_reverse, reverse_involutive,
    visible_lstrip.
Qed.

Lemma visible_join (ps : list pystr) :
  visible (join blank_line ps) = concat (visible <$> ps).
Proof.
  induction ps as [|p ps IH]; [done|].
  destruct ps as [|q ps].
  - simpl. by rewrite app_nil_r.
  - rewrite join_cons by done. rewrite !visible_app, IH. done.
Qed.

(** The slices of a hard split, put together, are the paragraph. *)
Lemma take_slice (p : pystr) (c : Z) (k : nat) :
  0 < c ->
  take (k * Z.to_nat c) p ++ slice p (Z.of_nat k * c) (Z.of_nat k * c + c)
  = take (S k * Z.to_nat c) p.
Proof.
  intros Hc. unfold slice, slice_bound.
  destruct (Z.ltb_spec (Z.of_nat k * c) 0); [nia|].
  destruct (Z.ltb_spec (Z.of_nat k * c + c) 0); [nia|].
  assert (Z.to_nat (Z.of_nat k * c) = (k * Z.to_nat c)%nat) as ->
    by (rewrite Z2Nat.inj_mul by lia; by rewrite Nat2Z.id).
  assert (Z.to_nat (Z.of_nat k * c + c) = (S k * Z.to_nat c)%nat) as ->
    by (rewrite Z2Nat.inj_add, Z2Nat.inj_mul by (try apply Z.mul_nonneg_nonneg; lia);
        rewrite Nat2Z.id; simpl; lia).
  destruct (Nat.le_gt_cases (length p) (k * Z.to_nat c)) as [Hge|Hlt].
  - rewrite (Nat.min_r (k * Z.to_nat c) (length p)) by lia.
    rewrite (Nat.min_r (S k * Z.to_nat c) (length p)) by lia.
    rewrite Nat.sub_diag, take_0, app_nil_r.
    rewrite !take_ge by lia. done.
  - rewrite (Nat.min_l (k * Z.to_nat c) (length p)) by lia.
    rewrite take_take_drop.
    destruct (Nat.le_gt_cases (S k * Z.to_nat c) (length p)).
    + rewrite Nat.min_l by lia. f_equal. lia.
    + rewrite Nat.min_r by lia. rewrite !take_ge by lia. done.
Qed.

Lemma concat_slices (p : pystr) (c : Z) (n : nat) :
  0 < c ->
  concat ((fun i => slice p i (i + c)) <$> ((fun k => Z.of_nat k * c) <$> seq 0 n))
  = take (n * Z.to_nat c) p.
Proof.
  intros Hc. induction n as [|n IH]; [done|].
  rewrite seq_S, !fmap_app, concat_app, IH. simpl concat.
  rewrite app_nil_r. by apply take_slice.
Qed.

Lemma hard_split_whole (p : pystr) (c : Z) :
  0 < c -> p <> [] ->
  concat ((fun i => slice p i (i + c))
            <$> ((fun k => Z.of_nat k * c)
                   <$> seq 0 (Z.to_nat (1 + (Z.of_nat (length p) - 1) / c))))
  = p.
Proof.
  intros Hc Hp. rewrite concat_slices by done. apply take_ge.
  assert (0 < Z.of_nat (length p)) as Hlen by (destruct p; [done|simpl; lia]).
  assert (0 <= (Z.of_nat (length p) - 1) / c) by (apply Z.div_pos; lia).
  pose proof (Z.mod_pos_bound (Z.of_nat (length p) - 1) c Hc).
  pose proof (Z.div_mod (Z.of_nat (length p) - 1) c ltac:(lia)).
  nia.
Qed.

Lemma collected_flush (src : pystr) (st : chunker) :
  visible (concat (text <$> chunks (flush src st))) = visible (collected st).
Proof.
  unfold flush, collected. destruct (current_chunk st) as [|a r]; simpl.
  - by rewrite app_nil_r.
  - rewrite fmap_app, concat_app, !visible_app. simpl. rewrite app_nil_r.
    by rewrite (visible_strip (a :: r)).
Qed.

Lemma chunk_step_visible (chunk_size : Z) (src : pystr) (st : chunker) (p : pystr)
    (st' : chunker) :
  0 < chunk_size -> chunk_step chunk_size src st p = Ok st' ->
  visible (collected st') = visible (collected st) ++ visible p.
Proof.
  intros Hpos. pose proof (collected_flush src st) as Hfl.
  rewrite <- (visible_strip p). unfold chunk_step.
  destruct (strip p) as [|c q] eqn:Ep; [intros [= <-]; by rewrite app_nil_r|].
  destruct (_ >? chunk_size).
  - rewrite range_positive by (simpl; lia).
    destruct (emit_slices _ _ _ _ _ _) as [cs n] eqn:Es. intros [= <-].
    unfold collected at 1. cbn [chunks current_chunk]. rewrite app_nil_r.
    change cs with (cs, n).1. rewrite <- Es, emit_slices_texts, concat_app, visible_app.
    rewrite Hfl. f_equal. by rewrite hard_split_whole.
  - destruct (_ >? chunk_size).
    + intros [= <-]. unfold collected at 1. cbn [chunks current_chunk].
      by rewrite visible_app, Hfl.
    + destruct (current_chunk st) as [|a r] eqn:Ec; intros [= <-];
        unfold collected; cbn [chunks current_chunk]; rewrite Ec.
      * by rewrite app_nil_r, visible_app.
      * change (a :: r ++ 10%N :: 10%N :: c :: q)
          with ((a :: r) ++ blank_line ++ c :: q).
        rewrite !visible_app. rewrite (visible_blank blank_line) by done.
        rewrite app_nil_l. by rewrite <- !app_assoc.
Qed.

Lemma chunk_loop_visible (chunk_size : Z) (src : pystr) (ps : list pystr)
    (st st' : chunker) :
  0 < chunk_size -> chunk_loop chunk_size src st ps = Ok st' ->
  visible (collected st') = visible (collected st) ++ concat (visible <$> ps).
Proof.
  intros Hpos. revert st. induction ps as [|p ps IH]; intros st; simpl.
  - intros [= <-]. by rewrite app_nil_r.
  - destruct (chunk_step chunk_size src st p) as [st1|e] eqn:E; [|done].
    intros Hloop. rewrite (IH _ Hloop), (chunk_step_visible _ _ _ _ _ Hpos E).
    by rewrite <- app_assoc.
Qed.

(** X5. With a positive maximum chunk size, the texts of the chunks of a
    document, put end to end, hold exactly the non-whitespace characters
    of the document, in the same order: chunking drops and moves only
    whitespace. *)
Theorem chunk_text_keeps_visible (chunk_size : Z) (txt src : pystr) :
  0 < chunk_size ->
  exists cs, chunk_text chunk_size txt src = Ok cs
             /\ visible (concat (text <$> cs)) = visible txt.
Proof.
  intros Hpos. unfold chunk_text.
  destruct (chunk_loop_returns chunk_size src
              {| chunks := []; current_chunk := []; chunk_counter := 0 |}
              (split blank_line txt)) as [st E]; [lia|].
  rewrite E. eexists. split; [done|].
  rewrite collected_flush, (chunk_loop_visible _ _ _ _ _ Hpos E).
  rewrite <- visible_join, join_split by done. done.
Qed.

Lemma chunk_text_keeps_visible_witness :
  exists cs, chunk_text 20 three_paragraphs (py "doc.txt") = Ok cs
             /\ visible (concat (text <$> cs)) = visible three_paragraphs.
Proof. apply chunk_text_keeps_visible. lia. Defined.

(** *** A text without a blank line *)

Lemma ceil_div (n c : Z) : 0 < c -> 0 < n -> 1 + (n - 1) / c = (n + c - 1) / c.
Proof.
  intros Hc Hn. replace (n + c - 1) with (n - 1 + 1 * c) by lia.
  rewrite Z.div_add by lia. lia.
Qed.

Lemma emit_slices_length (chunk_size : Z) (src p : pystr) (idx : list Z)
    (cs : list DocumentChunk) (n : nat) :
  length (emit_slices chunk_size src p idx cs n).1 = (length cs + length idx)%nat.
Proof.
  rewrite <- (length_fmap text), emit_slices_texts, length_app, !length_fmap. done.
Qed.

(** X6. A text with no blank line is one paragraph: with a positive
    maximum chunk size it is cut into the least number of chunks of at
    most that size that can hold its stripped form, and their texts put
    end to end are the stripped text. *)
Theorem chunk_text_single_paragraph (chunk_size : Z) (txt src : pystr) :
  0 < chunk_size -> contains blank_line txt = false ->
  exists cs, chunk_text chunk_size txt src = Ok cs
    /\ concat (text <$> cs) = strip txt
    /\ Z.of_nat (length cs)
       = (Z.of_nat (length (strip txt)) + chunk_size - 1) / chunk_size.
Proof.
  intros Hpos Hc. unfold chunk_text, split.
  rewrite split_scan_whole by done. cbn [reverse rev_append app chunk_loop].
  pose proof (strip_idem txt) as Hidem.
  unfold chunk_step. destruct (strip txt) as [|c q] eqn:Ep.
  - eexists. split; [done|]. split; [done|].
    simpl. rewrite Z.div_small by lia. done.
  - destruct (Z.gtb_spec (Z.of_nat (length (c :: q))) chunk_size) as [Hbig|Hsmall].
    + rewrite range_positive by (simpl; lia).
      cbn [flush chunks current_chunk chunk_counter].
      destruct (emit_slices _ _ _ _ _ _) as [cs n] eqn:Es.
      cbn [flush chunks current_chunk]. eexists. split; [done|].
      change cs with (cs, n).1. rewrite <- Es. split.
      * by rewrite emit_slices_texts, concat_app, hard_split_whole.
      * rewrite emit_slices_length, !length_fmap, length_seq.
        assert (0 <= (Z.of_nat (length (c :: q)) - 1) / chunk_size)
          by (apply Z.div_pos; simpl; lia).
        rewrite <- ceil_div by (simpl; lia). simpl length at 1. lia.
    + assert (Z.of_nat (length (c :: q)) + chunk_size - 1 = 1 * chunk_size
              + (Z.of_nat (length (c :: q)) - 1)) as Hsum by lia.
      assert ((Z.of_nat (length (c :: q)) + chunk_size - 1) / chunk_size = 1) as Hone.
      { rewrite Hsum, Z.div_add_l, Z.div_small by (simpl in *; lia). done. }
      rewrite Hone.
      destruct (_ >? chunk_size); cbn [flush chunks current_chunk chunk_counter];
        rewrite Hidem; eexists; (split; [done|]); simpl; by rewrite app_nil_r.
Qed.

Lemma chunk_text_single_paragraph_witness :
  exists cs, chunk_text 20 (py "  Third paragraph with some more content. ") (py "doc.txt")
             = Ok cs
    /\ concat (text <$> cs) = strip (py "  Third paragraph with some more content. ")
    /\ Z.of_nat (length cs)
       = (Z.of_nat (length (strip (py "  Third paragraph with some more content. ")))
          + 20 - 1) / 20.
Proof. apply chunk_text_single_paragraph; [lia|]. vm_compute. reflexivity. Defined.

(** *** Two paragraphs *)

Lemma split_two_paragraphs (p1 p2 : pystr) :
  is_paragraph p1 -> is_paragraph p2 ->
  split blank_line (p1 ++ blank_line ++ p2) = [p1; p2].
Proof.
  intros (N1 & S1 & C1) (N2 & S2 & C2).
  apply strip_fixed in S1 as [_ R1].
  unfold split.
  rewrite split_scan_piece by auto using rstrip_not_newline.
  by rewrite split_scan_whole.
Qed.

(** The first paragraph of a buffer: it is taken whole when it fits the
    maximum size, with or without room for a separator. *)
Lemma chunk_step_first (chunk_size : Z) (src : pystr) (cs : list DocumentChunk)
    (n : nat) (p : pystr) :
  is_paragraph p -> Z.of_nat (length p) <= chunk_size ->
  chunk_step chunk_size src {| chunks := cs; current_chunk := []; chunk_counter := n |} p
  = Ok {| chunks := cs; current_chunk := p; chunk_counter := n |}.
Proof.
  intros (Hne & Hs & _) Hfit. unfold chunk_step. rewrite Hs.
  destruct p as [|c q]; [done|].
  destruct (Z.gtb_spec (Z.of_nat (length (c :: q))) chunk_size); [lia|].
  cbn [current_chunk flush chunks chunk_counter]. by destruct (_ >? chunk_size).
Qed.

(** A paragraph that fits the maximum size but not the buffer closes the
    buffer and opens the next one. *)
Lemma chunk_step_full (chunk_size : Z) (src : pystr) (cs : list DocumentChunk)
    (cur : pystr) (n : nat) (p : pystr) :
  is_paragraph p -> cur <> [] -> Z.of_nat (length p) <= chunk_size ->
  chunk_size < Z.of_nat (length cur) + Z.of_nat (length p) + 2 ->
  chunk_step chunk_size src {| chunks := cs; current_chunk := cur; chunk_counter := n |} p
  = Ok {| chunks := cs ++ [emit (strip cur) src n]; current_chunk := p;
          chunk_counter := S n |}.
Proof.
  intros (Hne & Hs & _) Hcur Hfit Hfull. unfold chunk_step. rewrite Hs.
  destruct p as [|c q]; [done|].
  destruct (Z.gtb_spec (Z.of_nat (length (c :: q))) chunk_size); [lia|].
  cbn [current_chunk].
  destruct (Z.gtb_spec (Z.of_nat (length cur) + Z.of_nat (length (c :: q)) + 2) chunk_size);
    [|lia].
  unfold flush. cbn [current_chunk chunks chunk_counter]. by destruct cur.
Qed.

(** X7. Two paragraphs that each fit the maximum chunk size share one
    chunk exactly when their lengths and the two characters of the
    separator fit together; otherwise each gets a chunk of its own, in
    order. *)
Theorem two_paragraphs_share_or_split (chunk_size : Z) (p1 p2 src : pystr) :
  is_paragraph p1 -> is_paragraph p2 ->
  Z.of_nat (length p1) <= chunk_size -> Z.of_nat (length p2) <= chunk_size ->
  chunk_text chunk_size (p1 ++ blank_line ++ p2) src
  = Ok (if Z.of_nat (length p1) + Z.of_nat (length p2) + 2 <=? chunk_size
        then [emit (p1 ++ blank_line ++ p2) src 0]
        else [emit p1 src 0; emit p2 src 1]).
Proof.
  intros H1 H2 F1 F2. unfold chunk_text. rewrite split_two_paragraphs by done.
  cbn [chunk_loop]. rewrite chunk_step_first by done.
  pose proof H1 as (N1 & S1 & _). pose proof H2 as (N2 & S2 & _).
  destruct (Z.leb_spec (Z.of_nat (length p1) + Z.of_nat (length p2) + 2) chunk_size)
    as [Hroom|Hfull].
  - rewrite chunk_step_append by done. cbn [current_chunk chunks chunk_counter].
    destruct p1 as [|c q]; [done|].
    rewrite flush_nonempty by done.
    apply strip_fixed in S1 as [L1 _]. apply strip_fixed in S2 as [_ R2].
    by rewrite strip_between.
  - rewrite chunk_step_full by done.
    rewrite flush_nonempty by done. by rewrite S1, S2.
Qed.

Lemma two_paragraphs_share_or_split_witness :
  chunk_text 35 (py "First paragraph." ++ blank_line ++ py "Second paragraph.") (py "doc.txt")
  = Ok [emit (py "First paragraph." ++ blank_line ++ py "Second paragraph.") (py "doc.txt") 0]
  /\ chunk_text 34 (py "First paragraph." ++ blank_line ++ py "Second paragraph.")
       (py "doc.txt")
     = Ok [emit (py "First paragraph.") (py "doc.txt") 0;
           emit (py "Second paragraph.") (py "doc.txt") 1].
Proof.
  split.
  - apply (two_paragraphs_share_or_split 35 (py "First paragraph.") (py "Second paragraph."));
      try (split; [discriminate | split; vm_compute; reflexivity]);
      vm_compute; discriminate.
  - apply (two_paragraphs_share_or_split 34 (py "First paragraph.") (py "Second paragraph."));
      try (split; [discriminate | split; vm_compute; reflexivity]);
      vm_compute; discriminate.
Defined.

(** *** Chunk ids *)

(** On ASCII text a literal is its own characters. *)
Lemma utf8_decode_ascii (bs : list N) :
  Forall (fun b => (b < 128)%N) bs -> utf8_decode bs = bs.
Proof.
  induction 1 as [|b bs Hb _ IH]; simpl; [done|].
  destruct (N.ltb_spec b 128); [|lia]. by rewrite IH.
Qed.

Lemma uint_digits (d : Decimal.uint) :
  Forall (fun b => (48 <= b <= 57)%N) (bytes_of_string (NilEmpty.string_of_uint d)).
Proof.
  unfold bytes_of_string.
  induction d; simpl; constructor; try done; vm_compute; split; discriminate.
Qed.

Lemma uint_digits_zero (d : Decimal.uint) :
  Forall (fun b => (48 <= b <= 57)%N) (bytes_of_string (NilZero.string_of_uint d)).
Proof.
  destruct d; try apply uint_digits.
  repeat constructor; vm_compute; discriminate.
Qed.

(** [str(n)] is made of digits, after a minus sign when [n] is negative. *)
Lemma str_of_int_bytes (z : Z) :
  Forall (fun b => (b = 45 \/ 48 <= b <= 57)%N)
    (bytes_of_string (NilZero.string_of_int (Z.to_int z))).
Proof.
  assert (forall d, Forall (fun b => (b = 45 \/ 48 <= b <= 57)%N)
                      (bytes_of_string (NilZero.string_of_uint d))) as Hd.
  { intros d. eapply Forall_impl; [apply uint_digits_zero|]. intros b Hb. by right. }
  destruct (Z.to_int z) as [d|d]; simpl; [apply Hd|].
  constructor; [by left|apply Hd].
Qed.

Lemma str_of_int_chars (z : Z) :
  str_of_int z = bytes_of_string (NilZero.string_of_int (Z.to_int z))
  /\ Forall (fun b => (b = 45 \/ 48 <= b <= 57)%N) (str_of_int z).
Proof.
  assert (str_of_int z = bytes_of_string (NilZero.string_of_int (Z.to_int z))) as E.
  { unfold str_of_int, py. apply utf8_decode_ascii.
    eapply Forall_impl; [apply str_of_int_bytes|]. intros b Hb. simpl in Hb. lia. }
  split; [done|]. rewrite E. apply str_of_int_bytes.
Qed.

Lemma bytes_of_string_inj (s t : string) : bytes_of_string s = bytes_of_string t -> s = t.
Proof.
  unfold bytes_of_string. revert t.
  induction s as [|a s IH]; intros [|b t]; simpl; try done.
  intros [= Hab Hst]. f_equal; [|by apply IH].
  rewrite <- (ascii_N_embedding a), <- (ascii_N_embedding b). by rewrite Hab.
Qed.

(** [str] tells two integers apart. *)
Lemma str_of_int_inj (a b : Z) : str_of_int a = str_of_int b -> a = b.
Proof.
  destruct (str_of_int_chars a) as [-> _]. destruct (str_of_int_chars b) as [-> _].
  intros H. apply bytes_of_string_inj in H. apply to_int_inj.
  assert (forall z, NilZero.int_of_string (NilZero.string_of_int (Z.to_int z))
                    = Some (Z.to_int z)) as Hisi.
  { intros z. apply NilZero.isi; destruct z; simpl; try done;
      intros [= E]; by apply Unsigned.to_uint_nonnil in E. }
  pose proof (Hisi a) as Ha. rewrite H, Hisi in Ha. by injection Ha.
Qed.

(** An id [source_chunk_n] determines both the source and the counter:
    the digits of the counter hold no [_]. *)
Lemma unsnoc_tail (a b r1 r2 : list N) (x : N) :
  x ∉ a -> x ∉ b -> a ++ x :: r1 = b ++ x :: r2 -> a = b /\ r1 = r2.
Proof.
  revert b. induction a as [|c a IH]; intros [|d b] Ha Hb; simpl.
  - by intros [= ->].
  - intros [= -> _]. exfalso. apply Hb. by left.
  - intros [= -> _]. exfalso. apply Ha. by left.
  - intros [= -> H]. apply IH in H as [-> ->]; [done| |].
    + intros ?. apply Ha. by right.
    + intros ?. apply Hb. by right.
Qed.

Lemma chunk_id_inj (src1 src2 : pystr) (n1 n2 : Z) :
  src1 ++ py "_chunk_" ++ str_of_int n1 = src2 ++ py "_chunk_" ++ str_of_int n2 ->
  src1 = src2 /\ n1 = n2.
Proof.
  intros H.
  assert (forall z, 95%N ∉ reverse (str_of_int z)) as Hno.
  { intros z Hin. rewrite elem_of_reverse in Hin.
    destruct (str_of_int_chars z) as [_ Hd].
    rewrite Forall_forall in Hd. apply Hd in Hin. lia. }
  apply (f_equal reverse) in H. rewrite !reverse_app in H.
  change (reverse (py "_chunk_")) with ([95%N] ++ reverse (py "_chunk")) in H.
  remember (reverse (py "_chunk")) as tail eqn:Et. clear Et.
  rewrite <- !app_assoc in H. cbn [app] in H.
  apply unsnoc_tail in H as [Hn Hs]; [|apply Hno..].
  apply (f_equal reverse) in Hn. rewrite !reverse_involutive in Hn.
  apply str_of_int_inj in Hn.
  apply app_inv_head in Hs.
  apply (f_equal reverse) in Hs. rewrite !reverse_involutive in Hs. done.
Qed.

Lemma chunk_text_numbered (chunk_size : Z) (txt src : pystr) (cs : list DocumentChunk) :
  chunk_text chunk_size txt src = Ok cs -> numbered src cs.
Proof.
  unfold chunk_text.
  destruct (chunk_loop _ _ _ _) as [st|e] eqn:E; [|done]. intros [= <-].
  apply (flush_counted src).
  eapply (chunk_loop_invariant chunk_size src (counted src)); [|split|exact E].
  - apply chunk_step_counted.
  - done.
  - done.
Qed.

Lemma numbered_NoDup (src : pystr) (cs : list DocumentChunk) :
  numbered src cs -> NoDup (chunk_id <$> cs).
Proof.
  intros [-> _]. apply NoDup_fmap_2_strong; [|apply NoDup_seq].
  intros a b _ _ H. apply chunk_id_inj in H as [_ H]. lia.
Qed.

(** X8. The chunks of one document have pairwise distinct ids. *)
Theorem chunk_text_ids_distinct (chunk_size : Z) (txt src : pystr) :
  match chunk_text chunk_size txt src with
  | Ok cs => NoDup (chunk_id <$> cs)
  | Raise _ => chunk_size = 0
  end.
Proof.
  destruct (chunk_text chunk_size txt src) as [cs|e] eqn:E.
  - by eapply numbered_NoDup, chunk_text_numbered.
  - unfold chunk_text in E.
    destruct (chunk_loop _ _ _ _) as [st|e'] eqn:El; [done|].
    eapply chunk_loop_raise, El.
Qed.

(** ** The ingestion pipeline *)

Lemma chunk_text_raise (chunk_size : Z) (txt src : pystr) (e : exn) :
  chunk_text chunk_size txt src = Raise e ->
  chunk_size = 0 /\ e = ValueError /\ forallb isspace txt = false.
Proof.
  intros E.
  assert (chunk_size = 0) as ->.
  { unfold chunk_text in E. destruct (chunk_loop _ _ _ _) as [st|e'] eqn:El; [done|].
    eapply chunk_loop_raise, El. }
  destruct (forallb isspace txt) eqn:Eb.
  - by rewrite chunk_text_blank in E.
  - rewrite chunk_text_zero_raises in E by done. by injection E as <-.
Qed.

Lemma chunk_text_first (chunk_size : Z) (txt src : pystr) :
  0 < chunk_size -> forallb isspace txt = false ->
  exists c cs, chunk_text chunk_size txt src = Ok (c :: cs)
               /\ chunk_id c = src ++ py "_chunk_" ++ str_of_int 0.
Proof.
  intros Hpos Hb.
  destruct (chunk_text chunk_size txt src) as [[|c cs]|e] eqn:E.
  - exfalso. revert E. unfold chunk_text.
    destruct (chunk_loop _ _ _ _) as [st|e] eqn:El; [|done].
    intros [= E]. revert E. apply flush_collected.
    eapply chunk_loop_collects; [done| |exact El]. by rewrite blank_paragraphs.
  - exists c, cs. split; [done|].
    apply chunk_text_numbered in E as [Hid _]. simpl in Hid. by injection Hid as ->.
  - apply chunk_text_raise in E. lia.
Qed.

Section Pipeline.

Context {fs : FileSystem}.
Variable chunk_size : Z.

Lemma process_document_skips (acc : list (gmap pystr pyval)) (p : pystr) :
  has_content p = false -> process_document chunk_size acc p = Ok acc.
Proof.
  unfold has_content, process_document.
  destruct (read_file p) as [[|c content]|]; [done| |done].
  intros H. apply negb_false_iff in H. by rewrite chunk_text_blank.
Qed.

Lemma collect_chunks_skips (acc : list (gmap pystr pyval)) (paths : list pystr) :
  existsb has_content paths = false -> collect_chunks chunk_size acc paths = Ok acc.
Proof.
  induction paths as [|p paths IH]; simpl; [done|].
  intros H. apply orb_false_elim in H as [Hp Hps].
  rewrite process_document_skips by done. by apply IH.
Qed.

(** What one document adds: nothing, or the records of its chunks. *)
Lemma process_document_Ok (acc acc' : list (gmap pystr pyval)) (p : pystr) :
  process_document chunk_size acc p = Ok acc' ->
  acc' = acc
  \/ exists content cs,
       chunk_text chunk_size content (path_name p) = Ok cs
       /\ acc' = acc ++ (chunk_record <$> cs).
Proof.
  unfold process_document.
  destruct (read_file p) as [[|a content]|]; [intros [= <-]; by left| |intros [= <-]; by left].
  destruct (chunk_text _ _ _) as [[|c cs]|e] eqn:E; simpl; [| |done].
  - intros [= <-]. by left.
  - intros [= <-]. right. by exists (a :: content), (c :: cs).
Qed.

Lemma process_document_raise (acc : list (gmap pystr pyval)) (p : pystr) (e : exn) :
  process_document chunk_size acc p = Raise e ->
  chunk_size = 0 /\ e = ValueError /\ has_content p = true.
Proof.
  unfold process_document, has_content.
  destruct (read_file p) as [[|a content]|]; [done| |done].
  destruct (chunk_text _ _ _) as [[|c cs]|e'] eqn:E; [done|done|].
  intros [= <-]. apply chunk_text_raise in E as (-> & -> & ->). done.
Qed.

Lemma process_document_content (acc : list (gmap pystr pyval)) (p : pystr) :
  0 < chunk_size -> has_content p = true ->
  exists c cs,
    process_document chunk_size acc p = Ok (acc ++ (chunk_record <$> c :: cs))
    /\ Ingestion.chunk_id c = path_name p ++ py "_chunk_" ++ str_of_int 0.
Proof.
  intros Hpos. unfold has_content, process_document.
  destruct (read_file p) as [[|a content]|]; [done| |done].
  intros Hb. apply negb_true_iff in Hb.
  destruct (chunk_text_first chunk_size (a :: content) (path_name p) Hpos Hb)
    as (c & cs & -> & Hid).
  by exists c, cs.
Qed.

Lemma collect_chunks_raise (acc : list (gmap pystr pyval)) (paths : list pystr) (e : exn) :
  collect_chunks chunk_size acc paths = Raise e ->
  chunk_size = 0 /\ e = ValueError /\ existsb has_content paths = true.
Proof.
  revert acc. induction paths as [|p paths IH]; intros acc; simpl; [done|].
  destruct (process_document chunk_size acc p) as [acc'|e'] eqn:E.
  - intros H. apply IH in H as (? & ? & ->). by rewrite orb_true_r.
  - intros [= <-]. apply process_document_raise in E as (? & ? & ->). done.
Qed.

Lemma collect_chunks_app (acc : list (gmap pystr pyval)) (l1 l2 : list pystr) :
  collect_chunks chunk_size acc (l1 ++ l2)
  = match collect_chunks chunk_size acc l1 with
    | Ok acc' => collect_chunks chunk_size acc' l2
    | Raise e => Raise e
    end.
Proof.
  revert acc. induction l1 as [|p l1 IH]; intros acc; simpl; [done|].
  by destruct (process_document chunk_size acc p).
Qed.

Lemma collect_chunks_extends (acc B : list (gmap pystr pyval)) (paths : list pystr) :
  collect_chunks chunk_size acc paths = Ok B -> exists B', B = acc ++ B'.
Proof.
  revert acc. induction paths as [|p paths IH]; intros acc; simpl.
  - intros [= <-]. exists []. by rewrite app_nil_r.
  - destruct (process_document chunk_size acc p) as [acc'|e] eqn:E; [|done].
    intros H. apply IH in H as [B' ->].
    apply process_document_Ok in E as [->|(content & cs & _ & ->)]; [by eexists|].
    eexists. by rewrite <- app_assoc.
Qed.

End Pipeline.

(** X9. When none of the documents can be read, or those that can hold
    only whitespace, [process_documents] returns [False] and makes no call
    to the embedding model or to the collection. *)
Theorem process_documents_nothing_to_add {fs : FileSystem} {chroma : Store.Chroma}
    (chunk_size : Z) (doc_paths : list pystr) (s : Store.store) :
  existsb has_content doc_paths = false ->
  process_documents chunk_size doc_paths s = (Ok false, s).
Proof.
  intros H. unfold process_documents. by rewrite collect_chunks_skips.
Qed.

Lemma process_documents_nothing_to_add_witness :
  process_documents (fs := listed two_reports) (chroma := accepting) 1024
    [py "c/blank.txt"; py "missing.txt"] empty_store
  = (Ok false, empty_store).
Proof. apply process_documents_nothing_to_add. vm_compute. reflexivity. Defined.

(** X10. [process_documents] lets an exception escape in one case only:
    the maximum chunk size is zero and some document can be read and is
    not blank. It is then the [ValueError] of the chunker, and no call has
    been made to the embedding model or to the collection. *)
Theorem process_documents_raises {fs : FileSystem} {chroma : Store.Chroma}
    (chunk_size : Z) (doc_paths : list pystr) (s : Store.store) :
  match process_documents chunk_size doc_paths s with
  | (Raise e, s') =>
      chunk_size = 0 /\ existsb has_content doc_paths = true /\ e = ValueError /\ s' = s
  | (Ok _, _) => chunk_size <> 0 \/ existsb has_content doc_paths = false
  end.
Proof.
  unfold process_documents.
  destruct (collect_chunks chunk_size [] doc_paths) as [B|e] eqn:E.
  - assert (chunk_size <> 0 \/ existsb has_content doc_paths = false) as H.
    { destruct (Z.eq_dec chunk_size 0) as [->|]; [|by left]. right.
      destruct (existsb has_content doc_paths) eqn:Ex; [|done]. exfalso.
      revert E. generalize (@nil (gmap pystr pyval)).
      induction doc_paths as [|p paths IH]; intros acc; simpl in *; [done|].
      destruct (has_content p) eqn:Hp.
      - unfold process_document. unfold has_content in Hp.
        destruct (read_file p) as [[|a content]|]; [done| |done].
        apply negb_true_iff in Hp. by rewrite chunk_text_zero_raises.
      - rewrite process_document_skips by done. by apply IH. }
    destruct B; [done|]. by destruct (Store.add_documents _ _).
  - apply collect_chunks_raise in E as (? & ? & ?). done.
Qed.

(** *** Ids across documents *)

Lemma chunk_record_id (c : DocumentChunk) :
  chunk_record c !! py "id" = Some (PStr (chunk_id c)).
Proof. unfold chunk_record. by rewrite lookup_insert_eq. Qed.

Lemma record_ids_chunks (cs : list DocumentChunk) :
  record_ids (chunk_record <$> cs) = (fun c => Some (PStr (chunk_id c))) <$> cs.
Proof.
  unfold record_ids. rewrite <- list_fmap_compose. apply list_fmap_ext.
  intros i c _. apply chunk_record_id.
Qed.

Section PipelineIds.

Context {fs : FileSystem}.
Variable chunk_size : Z.

Lemma collect_chunks_returns (acc : list (gmap pystr pyval)) (paths : list pystr) :
  chunk_size <> 0 -> exists B, collect_chunks chunk_size acc paths = Ok B.
Proof.
  intros Hne. destruct (collect_chunks chunk_size acc paths) as [B|e] eqn:E; [by eexists|].
  apply collect_chunks_raise in E as [? _]. done.
Qed.

Lemma collect_chunks_ids (paths seen : list pystr) (acc B : list (gmap pystr pyval)) :
  NoDup (seen ++ (path_name <$> paths)) ->
  NoDup (record_ids acc) ->
  Forall (fun r => exists nm k, nm ∈ seen
                     /\ r !! py "id" = Some (PStr (nm ++ py "_chunk_" ++ str_of_int k))) acc ->
  collect_chunks chunk_size acc paths = Ok B ->
  NoDup (record_ids B).
Proof.
  revert seen acc. induction paths as [|p paths IH]; intros seen acc Hnames Hacc Hfrom; simpl.
  - by intros [= <-].
  - destruct (process_document chunk_size acc p) as [acc'|e] eqn:E; [|done].
    rewrite fmap_cons, cons_middle, app_assoc in Hnames.
    assert (path_name p ∉ seen) as Hnew.
    { apply NoDup_app in Hnames as [Hn _]. apply NoDup_app in Hn as (_ & Hn & _).
      intros Hin. apply (Hn _ Hin). by left. }
    apply (IH (seen ++ [path_name p])); [done| |].
    + apply process_document_Ok in E as [->|(content & cs & Hcs & ->)]; [done|].
      unfold record_ids. rewrite fmap_app. apply NoDup_app. split; [done|].
      fold (record_ids (chunk_record <$> cs)). rewrite record_ids_chunks.
      apply chunk_text_numbered in Hcs. split.
      * intros x Hx Hx'.
        apply list_elem_of_fmap in Hx as (r & -> & Hr).
        rewrite Forall_forall in Hfrom. destruct (Hfrom r Hr) as (nm & k & Hnm & Hid).
        apply list_elem_of_fmap in Hx' as (c & Hc & Hin). rewrite Hid in Hc.
        injection Hc as Hc.
        assert (chunk_id c ∈ chunk_id <$> cs) as Hcid by by apply list_elem_of_fmap_2.
        destruct Hcs as [Hids _]. rewrite Hids in Hcid.
        apply list_elem_of_fmap in Hcid as (n & Hn & _). rewrite Hn in Hc.
        apply chunk_id_inj in Hc as [-> _]. done.
      * rewrite (list_fmap_compose chunk_id (fun i => Some (PStr i))).
        apply NoDup_fmap_2; [|by eapply numbered_NoDup].
        by intros a b [= ->].
    + apply process_document_Ok in E as [->|(content & cs & Hcs & ->)].
      * eapply Forall_impl; [exact Hfrom|]. intros r (nm & k & Hnm & Hid).
        exists nm, k. split; [|done]. apply elem_of_app. by left.
      * apply Forall_app. split.
        -- eapply Forall_impl; [exact Hfrom|]. intros r (nm & k & Hnm & Hid).
           exists nm, k. split; [|done]. apply elem_of_app. by left.
        -- apply Forall_forall. intros r Hr.
           apply list_elem_of_fmap in Hr as (c & -> & Hc).
           apply chunk_text_numbered in Hcs as [Hids _].
           assert (chunk_id c ∈ chunk_id <$> cs) as Hcid by by apply list_elem_of_fmap_2.
           rewrite Hids in Hcid. apply list_elem_of_fmap in Hcid as (n & Hn & _).
           exists (path_name p), (Z.of_nat n). split.
           ++ apply elem_of_app. right. by left.
           ++ by rewrite chunk_record_id, Hn.
Qed.

End PipelineIds.

(** X11. When the documents given to [process_documents] have pairwise
    distinct file names, the chunk records it collects for the vector
    store have pairwise distinct ids. *)
Theorem process_documents_ids_distinct {fs : FileSystem} (chunk_size : Z)
    (doc_paths : list pystr) (all_chunks : list (gmap pystr pyval)) :
  NoDup (path_name <$> doc_paths) ->
  collect_chunks chunk_size [] doc_paths = Ok all_chunks ->
  NoDup (record_ids all_chunks).
Proof.
  intros Hnames Hcollect.
  apply (collect_chunks_ids chunk_size doc_paths [] [] all_chunks); try done.
  constructor.
Qed.

Lemma process_documents_ids_distinct_witness :
  NoDup (record_ids
           match collect_chunks (fs := listed two_reports) 10 []
                   [py "a/report.txt"; py "c/blank.txt"; py "missing.txt"] with
           | Ok all_chunks => all_chunks
           | Raise _ => []
           end).
Proof.
  apply (process_documents_ids_distinct (fs := listed two_reports) 10
           [py "a/report.txt"; py "c/blank.txt"; py "missing.txt"]).
  - apply (bool_decide_unpack _). vm_compute. exact I.
  - vm_compute. reflexivity.
Defined.

(** X12. Two documents with the same file name that both have content get
    colliding chunk ids: among the records [process_documents] collects,
    the id [name_chunk_0] occurs twice. *)
Theorem process_documents_same_name_collides {fs : FileSystem} (chunk_size : Z)
    (l1 l2 l3 : list pystr) (p1 p2 : pystr) :
  0 < chunk_size -> path_name p1 = path_name p2 ->
  has_content p1 = true -> has_content p2 = true ->
  exists all_chunks,
    collect_chunks chunk_size [] (l1 ++ p1 :: l2 ++ p2 :: l3) = Ok all_chunks
    /\ ~ NoDup (record_ids all_chunks).
Proof.
  intros Hpos Hname H1 H2.
  destruct (collect_chunks_returns chunk_size [] l1) as [B1 E1]; [lia|].
  destruct (process_document_content chunk_size B1 p1 Hpos H1) as (c1 & cs1 & P1 & I1).
  destruct (collect_chunks_returns chunk_size (B1 ++ (chunk_record <$> c1 :: cs1)) l2)
    as [B2 E2]; [lia|].
  destruct (process_document_content chunk_size B2 p2 Hpos H2) as (c2 & cs2 & P2 & I2).
  destruct (collect_chunks_returns chunk_size (B2 ++ (chunk_record <$> c2 :: cs2)) l3)
    as [B3 E3]; [lia|].
  exists B3. split.
  - rewrite collect_chunks_app, E1. simpl. rewrite P1.
    rewrite collect_chunks_app, E2. simpl. by rewrite P2.
  - apply collect_chunks_extends in E2 as [B2' ->].
    apply collect_chunks_extends in E3 as [B3' ->].
    unfold record_ids. rewrite !fmap_app, !fmap_cons, !chunk_record_id, I1, I2, Hname.
    rewrite <- !app_assoc. intros Hnd.
    apply NoDup_app in Hnd as (_ & _ & Hnd).
    rewrite <- app_comm_cons in Hnd. apply NoDup_cons in Hnd as [Hnd _].
    apply Hnd. rewrite !elem_of_app. right. right. left. by left.
Qed.

Lemma process_documents_same_name_collides_witness :
  exists all_chunks,
    collect_chunks (fs := listed two_reports) 1024 []
      ([] ++ py "a/report.txt" :: [py "c/blank.txt"] ++ py "b/report.txt" :: [])
    = Ok all_chunks
    /\ ~ NoDup (record_ids all_chunks).
Proof.
  apply (process_documents_same_name_collides (fs := listed two_reports) 1024
           [] [py "c/blank.txt"] [] (py "a/report.txt") (py "b/report.txt"));
    [lia|vm_compute; reflexivity..].
Defined.

(** ** The vector store *)

Lemma mapM_getitem_raise (key : pystr) (chunks : list (gmap pystr pyval))
    (chunk : gmap pystr pyval) :
  chunk ∈ chunks -> chunk !! key = None ->
  mapM (fun c => Store.getitem c key) chunks = Raise KeyError.
Proof.
  intros Hin Hnone. unfold Store.getitem.
  induction chunks as [|c chunks IH]; [by apply elem_of_nil in Hin|].
  simpl. destruct (c !! key) as [v|] eqn:Ec; [|reflexivity].
  apply elem_of_cons in Hin as [->|Hin]; [congruence|].
  by rewrite IH.
Qed.

Lemma mapM_getitem_Ok (key : pystr) (chunks : list (gmap pystr pyval)) (vs : list pyval) :
  mapM (fun c => Store.getitem c key) chunks = Ok vs ->
  Some <$> vs = (fun c => c !! key) <$> chunks.
Proof.
  unfold Store.getitem. revert vs. induction chunks as [|c chunks IH]; intros vs; simpl.
  - by intros [= <-].
  - destruct (c !! key) as [v|] eqn:Ec; [|done]. simpl.
    destruct (mapM _ chunks) as [vs'|e]; [|done]. simpl.
    intros [= <-]. simpl. f_equal. by apply IH.
Qed.

(** X13. [add_documents] takes a batch whole or not at all: if a single
    chunk record lacks its text, its metadata or its id, it returns
    [False] and neither the embedding model nor the collection is
    called. *)
Theorem add_documents_malformed_chunk {chroma : Store.Chroma}
    (chunks : list (gmap pystr pyval)) (chunk : gmap pystr pyval) (s : Store.store) :
  chunk ∈ chunks ->
  chunk !! py "text" = None \/ chunk !! py "metadata" = None \/ chunk !! py "id" = None ->
  Store.add_documents chunks s = (false, s).
Proof.
  intros Hin Hkey. unfold Store.add_documents.
  destruct chunks as [|c0 chunks]; [done|].
  destruct (mapM (fun c => Store.getitem c (py "text")) (c0 :: chunks)) as [texts|e] eqn:Et;
    [|done].
  destruct (mapM (fun c => Store.getitem c (py "metadata")) (c0 :: chunks)) as [metas|e] eqn:Em;
    [|done].
  destruct (mapM (fun c => Store.getitem c (py "id")) (c0 :: chunks)) as [idents|e] eqn:Ei;
    [|done].
  exfalso. destruct Hkey as [H|[H|H]].
  - by rewrite (mapM_getitem_raise _ _ _ Hin H) in Et.
  - by rewrite (mapM_getitem_raise _ _ _ Hin H) in Em.
  - by rewrite (mapM_getitem_raise _ _ _ Hin H) in Ei.
Qed.

Lemma add_documents_malformed_chunk_witness :
  Store.add_documents (chroma := accepting) broken_batch empty_store = (false, empty_store).
Proof.
  apply (add_documents_malformed_chunk (chroma := accepting) broken_batch
           {[ py "id" := PStr (py "a_chunk_1"); py "metadata" := PDict ∅ ]}).
  - right. left.
  - left. vm_compute. reflexivity.
Defined.

(** X14. When [add_documents] returns [True] it has asked the model once
    for the embeddings of the chunks' texts and has made one
    [collection.add], with those embeddings and with the text, the
    metadata and the id of every chunk record, in the order given. *)
Theorem add_documents_true {chroma : Store.Chroma}
    (chunks : list (gmap pystr pyval)) (s s' : Store.store) :
  Store.add_documents chunks s = (true, s') ->
  exists b,
    Store.add_calls s' = Store.add_calls s ++ [b]
    /\ Store.encode_calls s' = Store.encode_calls s ++ [Store.documents b]
    /\ Store.query_calls s' = Store.query_calls s
    /\ Store.encode s (Store.documents b) = Ok (Store.embeddings b)
    /\ Some <$> Store.documents b = (fun c => c !! py "text") <$> chunks
    /\ Some <$> Store.metadatas b = (fun c => c !! py "metadata") <$> chunks
    /\ Some <$> Store.ids b = (fun c => c !! py "id") <$> chunks.
Proof.
  unfold Store.add_documents.
  destruct chunks as [|c0 chunks]; [done|].
  destruct (mapM (fun c => Store.getitem c (py "text")) (c0 :: chunks)) as [texts|e] eqn:Et;
    [|done].
  destruct (mapM (fun c => Store.getitem c (py "metadata")) (c0 :: chunks)) as [metas|e] eqn:Em;
    [|done].
  destruct (mapM (fun c => Store.getitem c (py "id")) (c0 :: chunks)) as [idents|e] eqn:Ei;
    [|done].
  cbn [mbind outcome_bind].
  destruct (Store.encode s texts) as [vectors|e] eqn:Ee; [|done].
  destruct (Store.collection_add _ _) as [[]|e]; [|done].
  intros [= <-]. eexists.
  cbn [Store.add_calls Store.encode_calls Store.query_calls Store.documents
       Store.embeddings Store.metadatas Store.ids].
  repeat split; try done; by apply mapM_getitem_Ok.
Qed.

Lemma add_documents_true_witness :
  exists b,
    Store.add_calls (Store.add_documents (chroma := accepting) sound_batch empty_store).2
    = Store.add_calls empty_store ++ [b]
    /\ Store.encode_calls (Store.add_documents (chroma := accepting) sound_batch empty_store).2
       = Store.encode_calls empty_store ++ [Store.documents b]
    /\ Store.query_calls (Store.add_documents (chroma := accepting) sound_batch empty_store).2
       = Store.query_calls empty_store
    /\ Store.encode (Chroma := accepting) empty_store (Store.documents b)
       = Ok (Store.embeddings b)
    /\ Some <$> Store.documents b = (fun c => c !! py "text") <$> sound_batch
    /\ Some <$> Store.metadatas b = (fun c => c !! py "metadata") <$> sound_batch
    /\ Some <$> Store.ids b = (fun c => c !! py "id") <$> sound_batch.
Proof.
  apply (add_documents_true (chroma := accepting) sound_batch empty_store).
  vm_compute. reflexivity.
Defined.

Lemma format_results_Some (results : Store.QueryResult) (row : list pystr) (i : nat)
    (acc out : list VectorDB.SearchResult) :
  Store.format_results results row i acc = Some out ->
  VectorDB.id <$> out = (VectorDB.id <$> acc) ++ row
  /\ (Forall (fun h => VectorDB.similarity h = (1 - VectorDB.distance h)%float) acc ->
      Forall (fun h => VectorDB.similarity h = (1 - VectorDB.distance h)%float) out).
Proof.
  revert i acc. induction row as [|id_i row IH]; intros i acc; simpl.
  - intros [= <-]. by rewrite app_nil_r.
  - destruct (Store.row_item (Store.result_documents results) i []) as [text|]; [|done].
    destruct (Store.row_item (Store.result_metadatas results) i ∅) as [metadata|]; [|done].
    destruct (Store.row_item (Store.result_distances results) i 0%float) as [distance|];
      [|done].
    intros H. apply IH in H as [Hid Hsim]. split.
    + rewrite Hid, fmap_app. simpl. by rewrite <- app_assoc.
    + intros Hacc. apply Hsim. apply Forall_app. split; [done|].
      by apply Forall_singleton.
Qed.

(** X15. A search returns all or nothing: either no hit, or one hit for
    each id of the first row the collection returned, in the same order,
    each with a similarity of one minus its distance. The collection was
    then asked for [top_k] results, or for [config.TOP_K] when [top_k] is
    missing or zero, with the embedding of the query alone. *)
Theorem search_all_or_nothing {chroma : Store.Chroma} (TOP_K : Z) (query : pyval)
    (top_k : option Z) (s : Store.store) :
  (Store.search TOP_K query top_k s).1 = []
  \/ exists query_embedding results row rest,
       Store.encode s [query] = Ok query_embedding
       /\ Store.collection_query
            {| Store.encode_calls := Store.encode_calls s ++ [[query]];
               Store.add_calls := Store.add_calls s;
               Store.query_calls := Store.query_calls s |}
            query_embedding (asked TOP_K top_k) = Ok results
       /\ Store.result_ids results = row :: rest
       /\ VectorDB.id <$> (Store.search TOP_K query top_k s).1 = row
       /\ Forall (fun h => VectorDB.similarity h = (1 - VectorDB.distance h)%float)
            (Store.search TOP_K query top_k s).1.
Proof.
  unfold Store.search. fold (asked TOP_K top_k).
  destruct (Store.encode s [query]) as [query_embedding|e] eqn:Ee; [|by left].
  destruct (Store.collection_query _ _ _) as [results|e] eqn:Eq; [|by left].
  destruct (Store.result_ids results) as [|[|id0 row] rest] eqn:Er; [by left|by left|].
  destruct (Store.format_results results (id0 :: row) 0 []) as [out|] eqn:Ef; [|by left].
  right. exists query_embedding, results, (id0 :: row), rest.
  apply format_results_Some in Ef as [Hid Hsim].
  repeat split; try done. by apply Hsim.
Qed.

(** X16. A search whose collection returns fewer documents than ids for
    the query returns no hit at all, not the hits it could have
    formatted. *)
Theorem search_misaligned_rows {chroma : Store.Chroma} (TOP_K : Z) (query : pyval)
    (top_k : option Z) (s : Store.store) (query_embedding : list (list float))
    (results : Store.QueryResult) (row : list pystr) (rest : list (list pystr))
    (texts : list pystr) (others : list (list pystr)) :
  Store.encode s [query] = Ok query_embedding ->
  Store.collection_query
    {| Store.encode_calls := Store.encode_calls s ++ [[query]];
       Store.add_calls := Store.add_calls s;
       Store.query_calls := Store.query_calls s |}
    query_embedding (asked TOP_K top_k) = Ok results ->
  Store.result_ids results = row :: rest ->
  Store.result_documents results = Some (texts :: others) ->
  (0 < length texts < length row)%nat ->
  (Store.search TOP_K query top_k s).1 = [].
Proof.
  intros Ee Eq Er Ed Hlen. unfold Store.search. fold (asked TOP_K top_k).
  rewrite Ee, Eq, Er.
  destruct row as [|id0 row]; [done|].
  assert (forall r i acc, (i <= length texts < i + length r)%nat ->
            Store.format_results results r i acc = None) as Hnone.
  { induction r as [|id_i r IH]; intros i acc Hi; simpl in *; [lia|].
    unfold Store.row_item at 1. rewrite Ed.
    destruct texts as [|t texts]; [simpl in Hlen; lia|].
    destruct ((t :: texts) !! i) as [text|] eqn:Et.
    - destruct (Store.row_item (Store.result_metadatas results) i ∅); [|done].
      destruct (Store.row_item (Store.result_distances results) i 0%float); [|done].
      apply IH. apply lookup_lt_Some in Et. lia.
    - done. }
  rewrite Hnone by (simpl in *; lia). done.
Qed.

Lemma search_misaligned_rows_witness :
  (Store.search (chroma := misaligned) 4 (PStr (py "login")) None empty_store).1 = [].
Proof.
  eapply (search_misaligned_rows (chroma := misaligned) 4 (PStr (py "login")) None
            empty_store).
  - reflexivity.
  - reflexivity.
  - reflexivity.
  - reflexivity.
  - simpl. lia.
Defined.

(** ** Calls to the model and to the store *)

Lemma calls_within_refl (w : world) : calls_within w w 0 0.
Proof. exists [], []. by rewrite !app_nil_r. Qed.

Lemma calls_within_trans (w1 w2 w3 : world) (a b c d : nat) :
  calls_within w1 w2 a b -> calls_within w2 w3 c d ->
  calls_within w1 w3 (a + c) (b + d).
Proof.
  intros (p1 & q1 & Hp1 & Hq1 & ? & ?) (p2 & q2 & Hp2 & Hq2 & ? & ?).
  exists (p1 ++ p2), (q1 ++ q2).
  rewrite Hp2, Hp1, Hq2, Hq1, <- !app_assoc, !length_app. repeat split; lia.
Qed.

Lemma costs_weaken {A : Type} (m : M A) (a b a' b' : nat) :
  costs m a b -> (a <= a')%nat -> (b <= b')%nat -> costs m a' b'.
Proof.
  intros Hm Ha Hb w o w' Hrun.
  destruct (Hm w o w' Hrun) as (p & q & ? & ? & ? & ?).
  exists p, q. repeat split; try done; lia.
Qed.

Lemma costs_lift {A : Type} (r : outcome A) : costs (lift r) 0 0.
Proof. intros w o w' [= _ <-]. apply calls_within_refl. Qed.

Lemma costs_ret {A : Type} (a : A) : costs (mret a : M A) 0 0.
Proof. intros w o w' [= _ <-]. apply calls_within_refl. Qed.

Lemma costs_bind {A B : Type} (m : M A) (k : A -> M B) (a b c d : nat) :
  costs m a b -> (forall x, costs (k x) c d) -> costs (m ≫= k) (a + c) (b + d).
Proof.
  intros Hm Hk w o w'. unfold mbind, M_bind.
  destruct (m w) as [[x|e] w1] eqn:E.
  - intros Hrun. eapply calls_within_trans; [by eapply Hm|by eapply Hk].
  - intros [= _ <-]. rewrite <- (Nat.add_0_r (a + c)), <- (Nat.add_0_r (b + d)).
    eapply calls_within_trans; [|apply calls_within_refl].
    eapply (costs_weaken m a b); [done|lia|lia|exact E].
Qed.

Lemma costs_try_except {A : Type} (m : M A) (h : exn -> M A) (a b c d : nat) :
  costs m a b -> (forall e, costs (h e) c d) -> costs (try_except m h) (a + c) (b + d).
Proof.
  intros Hm Hh w o w'. unfold try_except.
  destruct (m w) as [[x|e] w1] eqn:E.
  - intros [= _ <-]. eapply (costs_weaken m a b); [done|lia|lia|exact E].
  - intros Hrun. eapply calls_within_trans; [by eapply Hm|by eapply Hh].
Qed.

Section Costs.

Context {backend : Backend}.

Lemma costs_call_llm (prompt : pystr) : costs (call_llm prompt) 1 0.
Proof.
  intros w o w' [= _ <-]. exists [prompt], []. simpl. rewrite app_nil_r.
  repeat split; lia.
Qed.

Lemma costs_call_search (q : pyval) : costs (call_search q) 0 1.
Proof.
  intros w o w' [= _ <-]. exists [], [q]. simpl. rewrite app_nil_r.
  repeat split; lia.
Qed.

Lemma costs_answer_question (v : pyval) : costs (answer_question v) 1 1.
Proof.
  unfold answer_question.
  apply (costs_try_except _ _ 1 1 0 0); [|intros; apply costs_lift].
  apply (costs_bind _ _ 0 1 1 0); [apply costs_call_search|].
  intros [|h hits].
  { eapply costs_weaken; [apply costs_lift|lia..]. }
  apply (costs_bind _ _ 0 0 1 0); [apply costs_lift|]. intros prompt.
  apply (costs_bind _ _ 1 0 0 0); [apply costs_call_llm|]. intros response.
  destruct (negb (truthy response)); [apply costs_lift|].
  apply (costs_bind _ _ 0 0 0 0); [apply costs_lift|]. intros a. apply costs_lift.
Qed.

Lemma costs_summarize_issue (v : pyval) : costs (summarize_issue v) 1 0.
Proof.
  unfold summarize_issue.
  apply (costs_try_except _ _ 1 0 0 0); [|intros; apply costs_lift].
  apply (costs_bind _ _ 0 0 1 0); [apply costs_lift|]. intros _.
  apply (costs_bind _ _ 0 0 1 0); [apply costs_lift|]. intros prompt.
  apply (costs_bind _ _ 1 0 0 0); [apply costs_call_llm|]. intros response.
  destruct (negb (truthy response)); [apply costs_lift|].
  repeat (apply (costs_bind _ _ 0 0 0 0); [apply costs_lift|]; intros ?).
  apply costs_lift.
Qed.

Lemma costs_route_query (q : pystr) : costs (_route_query q) 1 0.
Proof.
  unfold _route_query.
  apply (costs_try_except _ _ 1 0 0 0); [|intros; apply costs_lift].
  apply (costs_bind _ _ 1 0 0 0); [apply costs_call_llm|]. intros response.
  destruct (negb (truthy response)); [apply costs_lift|].
  repeat (apply (costs_bind _ _ 0 0 0 0); [apply costs_lift|]; intros ?).
  apply costs_lift.
Qed.

Lemma costs_execute_tool (d : RouterDecision) :
  costs (_execute_tool d) 1 (if bool_decide (tool d = py "qa") then 1 else 0).
Proof.
  unfold _execute_tool.
  destruct (bool_decide (tool d = py "qa")).
  - apply (costs_try_except _ _ 1 1 0 0).
    + apply (costs_bind _ _ 1 1 0 0); [apply costs_answer_question|].
      intros a. apply costs_ret.
    + intros e. apply (costs_bind _ _ 0 0 0 0); [apply costs_lift|].
      intros a. apply costs_ret.
  - apply (costs_try_except _ _ 1 0 0 0).
    + destruct (bool_decide (tool d = py "issue_summary")).
      * apply (costs_bind _ _ 1 0 0 0); [apply costs_summarize_issue|].
        intros s. apply costs_ret.
      * eapply costs_weaken; [apply costs_lift|lia..].
    + intros e. apply (costs_bind _ _ 0 0 0 0); [apply costs_lift|].
      intros s. apply costs_ret.
Qed.

End Costs.

(** ** More of the Q&A tool *)

Section ToolsMore.

Context {backend : Backend}.

Lemma nonempty_truthy (d : gmap pystr pyval) : d <> ∅ -> truthy (PDict d) = true.
Proof.
  intros Hd. cbn [truthy]. apply negb_true_iff, Nat.eqb_neq. intros Hz.
  by apply map_size_empty_iff in Hz.
Qed.

Lemma answer_question_answers_run (q : pystr) (w : world)
    (hits : list VectorDB.SearchResult) (d : gmap pystr pyval) (a : pyval) :
  hits <> [] ->
  search (length (searches w)) (PStr q) TOP_K = Ok hits ->
  generate_structured_response (length (llm_calls w)) (qa_prompt_for q hits) = Ok (PDict d) ->
  d <> ∅ ->
  default (PStr NO_INFORMATION) (d !! py "answer") = a ->
  answer_question (PStr q) w
  = (match new_QAAnswer (PStr q) a (_extract_sources hits) (_calculate_confidence hits) with
     | Ok r => Ok r
     | Raise _ => Ok (error_answer q)
     end,
     {| llm_calls := llm_calls w ++ [qa_prompt_for q hits];
        searches := searches w ++ [PStr q] |}).
Proof.
  intros Hhits Hsearch Hllm Hd Ha. unfold qa_prompt_for in *.
  unfold answer_question, try_except.
  rewrite call_search_bind. cbv zeta. rewrite Hsearch.
  destruct hits as [|h hits]; [done|].
  rewrite lift_bind. cbn [replace_with]. rewrite call_llm_bind. cbv zeta.
  cbn [llm_calls]. rewrite Hllm, nonempty_truthy by done.
  cbn [negb]. rewrite lift_bind. cbn [py_get]. rewrite Ha.
  unfold lift. by destruct (new_QAAnswer _ _ _ _).
Qed.

End ToolsMore.

(** X17. The answering path. When the store finds hits and the model
    returns a mapping that is not empty, [answer_question] returns the
    model's answer (the fixed "insufficient information" answer when the
    mapping has none) with the sources of the hits and the confidence
    computed from their similarities, after one search and one call to
    the model with the prompt made of the question and the hits. *)
Theorem answer_question_answers {backend : Backend} (q : pystr) (w : world)
    (hits : list VectorDB.SearchResult) (d : gmap pystr pyval) (a : pystr) :
  hits <> [] ->
  search (length (searches w)) (PStr q) TOP_K = Ok hits ->
  generate_structured_response (length (llm_calls w)) (qa_prompt_for q hits) = Ok (PDict d) ->
  d <> ∅ ->
  default (PStr NO_INFORMATION) (d !! py "answer") = PStr a ->
  answer_question (PStr q) w
  = (Ok {| query := q; answer := a; sources := _extract_sources hits;
           confidence := _calculate_confidence hits |},
     {| llm_calls := llm_calls w ++ [qa_prompt_for q hits];
        searches := searches w ++ [PStr q] |}).
Proof.
  intros Hhits Hsearch Hllm Hd Ha.
  rewrite (answer_question_answers_run q w hits d (PStr a)) by done.
  by rewrite new_QAAnswer_str.
Qed.

Lemma answer_question_answers_witness :
  answer_question (backend := scripted [Ok (PDict answer_reply)] test_hits)
    (PStr (py "Test question?")) fresh
  = (Ok {| query := py "Test question?"; answer := py "Restart the service.";
           sources := _extract_sources (backend := scripted [Ok (PDict answer_reply)] test_hits)
                        test_hits;
           confidence := _calculate_confidence
                           (backend := scripted [Ok (PDict answer_reply)] test_hits)
                           test_hits |},
     {| llm_calls := llm_calls fresh
                     ++ [qa_prompt_for (backend := scripted [Ok (PDict answer_reply)] test_hits)
                           (py "Test question?") test_hits];
        searches := searches fresh ++ [PStr (py "Test question?")] |}).
Proof.
  apply (answer_question_answers (backend := scripted [Ok (PDict answer_reply)] test_hits)
           (py "Test question?") fresh test_hits answer_reply (py "Restart the service.")).
  - discriminate.
  - reflexivity.
  - reflexivity.
  - intros H. apply (f_equal (fun m => m !! py "answer")) in H.
    unfold answer_reply in H. rewrite lookup_singleton_eq, lookup_empty in H. discriminate.
  - unfold answer_reply. by rewrite lookup_singleton_eq.
Defined.

(** X18. Every call of [answer_question] makes exactly one search, for
    the question itself, and calls the model once when the search found
    hits and not at all otherwise. *)
Theorem answer_question_calls {backend : Backend} (q : pystr) (w : world) :
  exists a w', answer_question (PStr q) w = (Ok a, w')
    /\ searches w' = searches w ++ [PStr q]
    /\ llm_calls w'
       = match search (length (searches w)) (PStr q) TOP_K with
         | Ok (h :: hits) => llm_calls w ++ [qa_prompt_for q (h :: hits)]
         | _ => llm_calls w
         end.
Proof.
  unfold answer_question, try_except, qa_prompt_for.
  rewrite call_search_bind. cbv zeta.
  destruct (search _ _ _) as [[|h hits]|e];
    try (unfold lift; rewrite new_QAAnswer_str; by eexists _, _).
  rewrite lift_bind. cbn [replace_with]. rewrite call_llm_bind. cbv zeta.
  destruct (generate_structured_response _ _) as [response|e];
    [|unfold lift; rewrite new_QAAnswer_str; by eexists _, _].
  destruct (truthy response); cbn [negb];
    [|unfold lift; rewrite new_QAAnswer_str; by eexists _, _].
  rewrite lift_bind. destruct (py_get response _ _) as [a'|e];
    [|unfold lift; rewrite new_QAAnswer_str; by eexists _, _].
  unfold lift. destruct (new_QAAnswer _ a' _ _);
    [|rewrite new_QAAnswer_str]; by eexists _, _.
Qed.

(** X19. The error answer. [answer_question] returns the fixed
    "processing error" answer, with no source and confidence [0.0], when
    the search raises and, hits found or not lost, when the call to the
    model raises, when the model returns something that is not a mapping,
    and when the answer in the mapping is not a string and pydantic
    refuses it. *)
Theorem answer_question_error_answer {backend : Backend} (q : pystr) (w : world) :
  (forall e, search (length (searches w)) (PStr q) TOP_K = Raise e ->
     exists w', answer_question (PStr q) w = (Ok (error_answer q), w'))
  /\ (forall hits, hits <> [] ->
        search (length (searches w)) (PStr q) TOP_K = Ok hits ->
        (forall e,
           generate_structured_response (length (llm_calls w)) (qa_prompt_for q hits)
           = Raise e ->
           exists w', answer_question (PStr q) w = (Ok (error_answer q), w'))
        /\ (forall response,
              generate_structured_response (length (llm_calls w)) (qa_prompt_for q hits)
              = Ok response ->
              not_a_mapping response = true ->
              exists w', answer_question (PStr q) w = (Ok (error_answer q), w'))
        /\ (forall d v,
              generate_structured_response (length (llm_calls w)) (qa_prompt_for q hits)
              = Ok (PDict d) ->
              d !! py "answer" = Some v ->
              str_field v = Raise ValidationError ->
              exists w', answer_question (PStr q) w = (Ok (error_answer q), w'))).
Proof.
  split.
  - intros e Hsearch. unfold answer_question, try_except.
    rewrite call_search_bind. cbv zeta. rewrite Hsearch.
    unfold lift. rewrite new_QAAnswer_str. by eexists.
  - intros hits Hhits Hsearch. unfold qa_prompt_for.
    split; [|split].
    + intros e Hllm. unfold answer_question, try_except.
      rewrite call_search_bind. cbv zeta. rewrite Hsearch.
      destruct hits as [|h hits]; [done|].
      rewrite lift_bind. cbn [replace_with]. rewrite call_llm_bind. cbv zeta.
      cbn [llm_calls]. rewrite Hllm.
      unfold lift. rewrite new_QAAnswer_str. by eexists.
    + intros response Hllm Hnot. unfold answer_question, try_except.
      rewrite call_search_bind. cbv zeta. rewrite Hsearch.
      destruct hits as [|h hits]; [done|].
      rewrite lift_bind. cbn [replace_with]. rewrite call_llm_bind. cbv zeta.
      cbn [llm_calls]. rewrite Hllm.
      unfold not_a_mapping in Hnot. apply andb_true_iff in Hnot as [-> Hnd].
      cbn [negb]. rewrite lift_bind.
      destruct response as [|?|?|?|?|?|d0]; try done;
        cbn [py_get]; unfold lift; rewrite new_QAAnswer_str; by eexists.
    + intros d v Hllm Hv Hstr.
      assert (d <> ∅) as Hd by (intros ->; by rewrite lookup_empty in Hv).
      rewrite (answer_question_answers_run q w hits d v); try done.
      * unfold new_QAAnswer. cbn [str_field mbind outcome_bind].
        rewrite Hstr. by eexists.
      * by rewrite Hv.
Qed.

Lemma answer_question_error_answer_witness :
  (exists w',
     answer_question (backend := scripted [Raise BackendError] test_hits)
       (PStr (py "Test question?")) fresh
     = (Ok (error_answer (py "Test question?")), w'))
  /\ (exists w',
        answer_question (backend := scripted [Ok (PList [PInt 1])] test_hits)
          (PStr (py "Test question?")) fresh
        = (Ok (error_answer (py "Test question?")), w'))
  /\ (exists w',
        answer_question (backend := scripted [Ok (PDict number_reply)] test_hits)
          (PStr (py "Test question?")) fresh
        = (Ok (error_answer (py "Test question?")), w')).
Proof.
  split; [|split].
  - apply (proj1 (proj2 (answer_question_error_answer
                           (backend := scripted [Raise BackendError] test_hits)
                           (py "Test question?") fresh) test_hits
                    ltac:(discriminate) eq_refl) BackendError).
    reflexivity.
  - apply (proj1 (proj2 (proj2 (answer_question_error_answer
                                  (backend := scripted [Ok (PList [PInt 1])] test_hits)
                                  (py "Test question?") fresh) test_hits
                           ltac:(discriminate) eq_refl)) (PList [PInt 1])).
    + reflexivity.
    + reflexivity.
  - apply (proj2 (proj2 (proj2 (answer_question_error_answer
                                  (backend := scripted [Ok (PDict number_reply)] test_hits)
                                  (py "Test question?") fresh) test_hits
                           ltac:(discriminate) eq_refl)) number_reply (PInt 42)).
    + reflexivity.
    + unfold number_reply. by rewrite lookup_singleton_eq.
    + reflexivity.
Defined.

(** ** More of the router *)

Section RouterMore.

Context {backend : Backend}.

(** The decision for a model output that is a mapping with a rationale
    and a tool input of the declared types, when it has them. *)
Lemma route_query_decides (q : pystr) (w : world) (r ti : gmap pystr pyval) (ra : pystr) :
  generate_structured_response (length (llm_calls w)) (router_prompt_for q) = Ok (PDict r) ->
  r <> ∅ ->
  default (PStr (py "No rationale provided")) (r !! py "rationale") = PStr ra ->
  default (PDict ∅) (r !! py "tool_input") = PDict ti ->
  _route_query q w
  = (Ok (if is_str (py "issue_summary") (default (PStr (py "qa")) (r !! py "tool"))
         then {| tool := py "issue_summary"; rationale := ra;
                 tool_input := backfilled (py "issue_text") q ti |}
         else {| tool := py "qa"; rationale := ra;
                 tool_input := backfilled (py "query") q ti |}),
     {| llm_calls := llm_calls w ++ [router_prompt_for q]; searches := searches w |}).
Proof.
  intros Hllm Hne Hra Hti. unfold router_prompt_for in *.
  unfold _route_query, try_except. rewrite call_llm_bind. cbv zeta.
  rewrite Hllm, nonempty_truthy by done. cbn [negb].
  rewrite lift_bind. unfold py_get.
  destruct (validated_tool (default (PStr (py "qa")) (r !! py "tool")))
    as (s & Hs & Hset & Hissue).
  rewrite Hs, lift_bind, Hti.
  destruct (is_str (py "issue_summary") (default (PStr (py "qa")) (r !! py "tool")))
    eqn:Htool.
  - assert (s = py "issue_summary") as ->.
    { destruct (default (PStr (py "qa")) (r !! py "tool")) as [|?|?|?|t|?|?]; try done.
      unfold is_str in Htool. apply bool_decide_eq_true_1 in Htool as ->.
      unfold in_strs, existsb, is_str in Hs.
      rewrite (bool_decide_eq_true_2 (py "issue_summary" = py "issue_summary")) in Hs by done.
      rewrite orb_true_r in Hs. by injection Hs as <-. }
    unfold is_str. rewrite bool_decide_eq_false_2 by (intros H; by apply qa_not_issue_summary).
    rewrite bool_decide_eq_true_2 by done.
    rewrite lift_bind, backfill_dict, lift_bind, Hra.
    unfold lift. by rewrite new_RouterDecision_str.
  - assert (s = py "qa") as ->.
    { destruct Hset as [-> | ->]; [done|]. specialize (Hissue eq_refl).
      rewrite Hissue in Htool. unfold is_str in Htool.
      by rewrite bool_decide_eq_true_2 in Htool. }
    unfold is_str. rewrite bool_decide_eq_true_2 by done.
    rewrite lift_bind, backfill_dict, lift_bind, Hra.
    unfold lift. by rewrite new_RouterDecision_str.
Qed.

End RouterMore.

(** X20. When the model names [issue_summary], [_route_query] decides for
    the issue tool, keeps the model's rationale (["No rationale provided"]
    when it gave none) and the model's tool input, to which it adds the
    query as [issue_text] only when the model gave no [issue_text]. *)
Theorem route_query_issue_summary {backend : Backend} (q : pystr) (w : world)
    (r ti : gmap pystr pyval) (ra : pystr) :
  generate_structured_response (length (llm_calls w)) (router_prompt_for q) = Ok (PDict r) ->
  r !! py "tool" = Some (PStr (py "issue_summary")) ->
  default (PStr (py "No rationale provided")) (r !! py "rationale") = PStr ra ->
  default (PDict ∅) (r !! py "tool_input") = PDict ti ->
  _route_query q w
  = (Ok {| tool := py "issue_summary"; rationale := ra;
           tool_input := match ti !! py "issue_text" with
                         | Some _ => ti
                         | None => <[py "issue_text" := PStr q]> ti
                         end |},
     {| llm_calls := llm_calls w ++ [router_prompt_for q]; searches := searches w |}).
Proof.
  intros Hllm Htool Hra Hti.
  assert (r <> ∅) as Hne by (intros ->; by rewrite lookup_empty in Htool).
  rewrite (route_query_decides q w r ti ra) by done.
  rewrite Htool. cbn [default from_option id is_str].
  rewrite bool_decide_eq_true_2 by done. unfold backfilled.
  destruct (ti !! py "issue_text") as [v|].
  - by rewrite bool_decide_eq_true_2 by by eexists.
  - by rewrite bool_decide_eq_false_2 by by intros [? ?].
Qed.

Lemma route_query_issue_summary_witness :
  _route_query (backend := scripted [Ok (PDict issue_route_reply)] [])
    (py "The app is broken") fresh
  = (Ok {| tool := py "issue_summary"; rationale := py "The user reports a problem.";
           tool_input := {[ py "issue_text" := PStr (py "Login fails.") ]} |},
     {| llm_calls := llm_calls fresh
                     ++ [router_prompt_for (backend := scripted [Ok (PDict issue_route_reply)] [])
                           (py "The app is broken")];
        searches := searches fresh |}).
Proof.
  etransitivity.
  - apply (route_query_issue_summary (backend := scripted [Ok (PDict issue_route_reply)] [])
             (py "The app is broken") fresh issue_route_reply
             {[ py "issue_text" := PStr (py "Login fails.") ]}
             (py "The user reports a problem.")).
    + reflexivity.
    + vm_compute. reflexivity.
    + vm_compute. reflexivity.
    + vm_compute. reflexivity.
  - by rewrite lookup_singleton_eq.
Defined.

Section ProcessQueryMore.

Context {backend : Backend}.

(** A tool handed a query that pydantic refuses as a string raises: its
    own handler builds the same record. *)
Lemma answer_question_raises (v : pyval) (w : world) :
  str_field v = Raise ValidationError ->
  exists w', answer_question v w = (Raise ValidationError, w').
Proof.
  intros Hv.
  assert (forall a srcs c, new_QAAnswer v a srcs c = Raise ValidationError) as Hnew.
  { intros. unfold new_QAAnswer. by rewrite Hv. }
  unfold answer_question, try_except. rewrite call_search_bind. cbv zeta.
  destruct (search _ _ _) as [[|h hits]|e];
    try (unfold lift; rewrite ?Hnew; by eexists).
  rewrite lift_bind.
  destruct (replace_with _ _ _) as [prompt|e]; [|unfold lift; rewrite ?Hnew; by eexists].
  rewrite call_llm_bind. cbv zeta.
  destruct (generate_structured_response _ _) as [response|e];
    [|unfold lift; rewrite ?Hnew; by eexists].
  destruct (truthy response); cbn [negb]; [|unfold lift; rewrite ?Hnew; by eexists].
  rewrite lift_bind. destruct (py_get response _ _) as [a|e];
    unfold lift; rewrite ?Hnew; by eexists.
Qed.

Lemma summarize_issue_raises (v : pyval) (w : world) :
  str_field v = Raise ValidationError ->
  exists w', summarize_issue v w = (Raise ValidationError, w').
Proof.
  intros Hv.
  assert (forall a b s c, new_IssueSummary v a b s c = Raise ValidationError) as Hnew.
  { intros. unfold new_IssueSummary. by rewrite Hv. }
  unfold summarize_issue, try_except. rewrite lift_bind.
  destruct (py_prefix v 100); [|unfold lift; rewrite ?Hnew; by eexists].
  rewrite lift_bind.
  destruct (replace_with _ _ _) as [prompt|e]; [|unfold lift; rewrite ?Hnew; by eexists].
  rewrite call_llm_bind. cbv zeta.
  destruct (generate_structured_response _ _) as [response|e];
    [|unfold lift; rewrite ?Hnew; by eexists].
  destruct (truthy response); cbn [negb]; [|unfold lift; rewrite ?Hnew; by eexists].
  repeat (rewrite lift_bind;
          destruct (py_get response _ _); [|unfold lift; rewrite ?Hnew; by eexists]).
  unfold lift; rewrite ?Hnew; by eexists.
Qed.

Lemma lookup_backfilled (key q : pystr) (ti : gmap pystr pyval) :
  backfilled key q ti !! key = Some (default (PStr q) (ti !! key)).
Proof.
  unfold backfilled. destruct (ti !! key) as [v|] eqn:E.
  - rewrite bool_decide_eq_true_2 by by eexists. done.
  - rewrite bool_decide_eq_false_2 by (by intros [? ?]). by rewrite lookup_insert_eq.
Qed.

End ProcessQueryMore.

(** X21. When the model routes a query to the issue tool, [process_query]
    summarises the issue text of the model's tool input, and the query
    itself only when the model gave none; no search is made. *)
Theorem process_query_summarizes {backend : Backend} (q : pystr) (w : world)
    (r ti : gmap pystr pyval) (ra t : pystr) :
  generate_structured_response (length (llm_calls w)) (router_prompt_for q) = Ok (PDict r) ->
  r !! py "tool" = Some (PStr (py "issue_summary")) ->
  default (PStr (py "No rationale provided")) (r !! py "rationale") = PStr ra ->
  default (PDict ∅) (r !! py "tool_input") = PDict ti ->
  default (PStr q) (ti !! py "issue_text") = PStr t ->
  exists s w',
    process_query q w
    = (Ok {| decision := {| tool := py "issue_summary"; rationale := ra;
                            tool_input := backfilled (py "issue_text") q ti |};
             result := inr s |}, w')
    /\ raw_text s = t
    /\ searches w' = searches w.
Proof.
  intros Hllm Htool Hra Hti Ht.
  assert (r <> ∅) as Hne by (intros ->; by rewrite lookup_empty in Htool).
  unfold process_query, try_except. unfold mbind at 1, M_bind at 1.
  rewrite (route_query_decides q w r ti ra) by done.
  rewrite Htool. cbn [default from_option id is_str].
  rewrite bool_decide_eq_true_2 by done.
  unfold mbind at 1, M_bind at 1.
  unfold _execute_tool, try_except. cbn [tool tool_input].
  rewrite bool_decide_eq_false_2 by (intros H; symmetry in H; by apply qa_not_issue_summary).
  rewrite bool_decide_eq_true_2 by done.
  rewrite lookup_backfilled. cbn [default from_option id]. rewrite Ht.
  unfold mbind at 1, M_bind at 1.
  destruct (summarize_issue_returns t
              {| llm_calls := llm_calls w ++ [router_prompt_for q]; searches := searches w |})
    as (s & Hrun & Hraw & _).
  cbv zeta in Hrun. rewrite Hrun.
  exists s. eexists. split; [reflexivity|]. done.
Qed.

Lemma process_query_summarizes_witness :
  exists s w',
    process_query (backend := scripted [Ok (PDict issue_route_reply); Ok PNone] [])
      (py "The app is broken") fresh
    = (Ok {| decision := {| tool := py "issue_summary";
                            rationale := py "The user reports a problem.";
                            tool_input := backfilled (py "issue_text") (py "The app is broken")
                                            {[ py "issue_text" := PStr (py "Login fails.") ]} |};
             result := inr s |}, w')
    /\ raw_text s = py "Login fails."
    /\ searches w' = searches fresh.
Proof.
  apply (process_query_summarizes
           (backend := scripted [Ok (PDict issue_route_reply); Ok PNone] [])
           (py "The app is broken") fresh issue_route_reply).
  - reflexivity.
  - vm_compute. reflexivity.
  - vm_compute. reflexivity.
  - vm_compute. reflexivity.
  - by rewrite lookup_singleton_eq.
Defined.

(** X22. The last resort of [process_query]. When the model's tool input
    holds, for the tool decided, a query or issue text that is not a
    string and that pydantic refuses, the tool and the handler of
    [_execute_tool] both fail, and [process_query] answers with its fixed
    fallback: a decision for [qa] with the original query and the
    "processing error" answer. *)
Theorem process_query_last_resort {backend : Backend} (q : pystr) (w : world)
    (r ti : gmap pystr pyval) (ra : pystr) (v : pyval) :
  generate_structured_response (length (llm_calls w)) (router_prompt_for q) = Ok (PDict r) ->
  r <> ∅ ->
  default (PStr (py "No rationale provided")) (r !! py "rationale") = PStr ra ->
  default (PDict ∅) (r !! py "tool_input") = PDict ti ->
  ti !! (if is_str (py "issue_summary") (default (PStr (py "qa")) (r !! py "tool"))
         then py "issue_text" else py "query") = Some v ->
  str_field v = Raise ValidationError ->
  exists w', process_query q w = (Ok (fallback_response q), w').
Proof.
  intros Hllm Hne Hra Hti Hv Hstr.
  assert (forall a srcs c, new_QAAnswer v a srcs c = Raise ValidationError) as Hqa.
  { intros. unfold new_QAAnswer. by rewrite Hstr. }
  assert (forall a b s c, new_IssueSummary v a b s c = Raise ValidationError) as Hsum.
  { intros. unfold new_IssueSummary. by rewrite Hstr. }
  unfold process_query, try_except. unfold mbind at 1, M_bind at 1.
  rewrite (route_query_decides q w r ti ra) by done.
  destruct (is_str (py "issue_summary") (default (PStr (py "qa")) (r !! py "tool")));
    unfold mbind at 1, M_bind at 1;
    unfold _execute_tool, try_except; cbn [tool tool_input];
    rewrite lookup_backfilled, Hv; cbn [default from_option id].
  - rewrite bool_decide_eq_false_2 by (intros H; symmetry in H; by apply qa_not_issue_summary).
    rewrite bool_decide_eq_true_2 by done.
    unfold mbind at 1, M_bind at 1.
    destruct (summarize_issue_raises v
                {| llm_calls := llm_calls w ++ [router_prompt_for q]; searches := searches w |}
                Hstr) as [w2 ->].
    rewrite lift_bind, Hsum, lift_bind, new_RouterDecision_str, lift_bind, new_QAAnswer_str.
    by eexists.
  - rewrite bool_decide_eq_true_2 by done.
    unfold mbind at 1, M_bind at 1.
    destruct (answer_question_raises v
                {| llm_calls := llm_calls w ++ [router_prompt_for q]; searches := searches w |}
                Hstr) as [w2 ->].
    rewrite lift_bind, Hqa, lift_bind, new_RouterDecision_str, lift_bind, new_QAAnswer_str.
    by eexists.
Qed.

Lemma process_query_last_resort_witness :
  exists w',
    process_query (backend := scripted [Ok (PDict number_query_reply)] test_hits)
      (py "How many?") fresh
    = (Ok (fallback_response (py "How many?")), w').
Proof.
  apply (process_query_last_resort
           (backend := scripted [Ok (PDict number_query_reply)] test_hits)
           (py "How many?") fresh number_query_reply {[ py "query" := PInt 7 ]}
           (py "No rationale provided") (PInt 7)).
  - reflexivity.
  - intros H. apply (f_equal (fun m => m !! py "tool")) in H.
    rewrite lookup_empty in H. vm_compute in H. discriminate.
  - vm_compute. reflexivity.
  - vm_compute. reflexivity.
  - vm_compute. reflexivity.
  - reflexivity.
Defined.

(** X23. [_execute_tool] on a decision whose tool is neither [qa] nor
    [issue_summary] calls nothing and returns the default issue summary
    (not a Q&A answer), for the issue text of the tool input or the empty
    string. *)
Theorem execute_tool_unknown_tool {backend : Backend} (d : RouterDecision) (w : world)
    (t : pystr) :
  tool d <> py "qa" -> tool d <> py "issue_summary" ->
  default (PStr []) (tool_input d !! py "issue_text") = PStr t ->
  _execute_tool d w = (Ok (inr (empty_summary t)), w).
Proof.
  intros Hqa Hissue Ht. unfold _execute_tool, try_except.
  rewrite !(bool_decide_eq_false_2 (tool d = py "qa")) by done.
  rewrite bool_decide_eq_false_2 by done.
  unfold lift at 1. rewrite Ht, lift_bind, new_IssueSummary_empty. done.
Qed.

Lemma execute_tool_unknown_tool_witness :
  _execute_tool (backend := scripted [] [])
    {| tool := py "search"; rationale := py "none";
       tool_input := {[ py "query" := PStr (py "How many?") ]} |} fresh
  = (Ok (inr (empty_summary [])), fresh).
Proof.
  apply (execute_tool_unknown_tool (backend := scripted [] [])).
  - vm_compute. discriminate.
  - vm_compute. discriminate.
  - vm_compute. reflexivity.
Defined.

(** X24. A call of [process_query] makes at most two calls to the model
    and at most one search, and no search at all when its result is an
    issue summary. *)
Theorem process_query_call_budget {backend : Backend} (q : pystr) (w : world) :
  exists r w', process_query q w = (Ok r, w')
    /\ calls_within w w' 2 1
    /\ (forall s, result r = inr s -> searches w' = searches w).
Proof.
  destruct (process_query_returns q w) as (r & w' & Hrun & _).
  exists r, w'. split; [done|].
  destruct (route_query_returns q w) as (d & Hroute & _). cbv zeta in Hroute.
  revert Hrun. unfold process_query, try_except.
  unfold mbind at 1, M_bind at 1. rewrite Hroute.
  unfold mbind at 1, M_bind at 1.
  destruct (_execute_tool d _) as [[r'|e] w2] eqn:He.
  - intros [= <- <-]. cbn [result].
    pose proof (costs_execute_tool d _ _ _ He) as Hcost.
    pose proof (costs_route_query q _ _ _ Hroute) as Hcost0.
    split.
    + refine (calls_within_trans _ _ _ 1 0 1 1 Hcost0 _).
      destruct (bool_decide (tool d = py "qa")); [done|].
      destruct Hcost as (p & qs & ? & ? & ? & ?). exists p, qs. repeat split; try done; lia.
    + intros s ->. apply execute_tool_kind in He.
      rewrite bool_decide_eq_false_2 in Hcost by done.
      destruct Hcost as (p & [|? ?] & _ & Hs & _ & Hlen); [|simpl in Hlen; lia].
      rewrite Hs. cbn [searches]. by rewrite app_nil_r.
  - rewrite lift_bind, new_RouterDecision_str, lift_bind, new_QAAnswer_str.
    intros [= <- <-]. cbn [result]. split; [|done].
    pose proof (costs_execute_tool d _ _ _ He) as Hcost.
    pose proof (costs_route_query q _ _ _ Hroute) as Hcost0.
    refine (calls_within_trans _ _ _ 1 0 1 1 Hcost0 _).
    destruct (bool_decide (tool d = py "qa")); [done|].
    destruct Hcost as (p & qs & ? & ? & ? & ?). exists p, qs. repeat split; try done; lia.
Qed.

(** X25. From ingestion to citation. For the chunks [chunk_text] makes of
    a document, search hits that carry the chunks' metadata are cited by
    [_extract_sources] as [source:0], [source:1], ... in order, whatever
    their distances. *)
Theorem chunk_sources_round_trip {backend : Backend} (chunk_size : Z) (txt src : pystr)
    (dist : DocumentChunk -> float) :
  match chunk_text chunk_size txt src with
  | Ok cs =>
      _extract_sources
        ((fun c => VectorDB.formatted (chunk_id c) (text c) (metadata c) (dist c)) <$> cs)
      = (fun n => src ++ py ":" ++ str_of_int (Z.of_nat n)) <$> seq 0 (length cs)
  | Raise _ => chunk_size = 0
  end.
Proof.
  destruct (chunk_text chunk_size txt src) as [cs|e] eqn:E.
  - apply chunk_text_numbered in E as [_ Hmeta].
    transitivity
      ((fun m => format_value (default (PStr (py "unknown")) (m !! py "source"))
                 ++ py ":"
                 ++ format_value (default (PStr (py "unknown")) (m !! py "chunk_id")))
         <$> (metadata <$> cs)).
    + unfold _extract_sources. by rewrite <- !list_fmap_compose.
    + rewrite Hmeta, <- list_fmap_compose. apply list_fmap_ext. intros i n _.
      cbn [compose]. rewrite lookup_insert_eq.
      rewrite lookup_insert_ne by (vm_compute; discriminate).
      rewrite lookup_singleton_eq. done.
  - apply chunk_text_raise in E as [? _]. done.
Qed.

(** ** The handlers of the routes *)

(** X26. The handlers of [/qa], [/summarize] and [/query] return for
    every request whose field is a string, whatever the model and the
    store do: the branch that raises [HTTPException(500)] is never taken.
    What they return, for FastAPI to render, is the record of the tool for
    the query or issue text of the request, as a mapping of its fields for
    [/qa] and [/summarize]. *)
Theorem handlers_never_raise {backend : Backend} (text : pystr) (w : world) :
  (exists a w',
     qa_endpoint text w = (Returned (QAAnswer_dict a), w') /\ query a = text)
  /\ (exists s w',
        summarize_endpoint text w = (Returned (IssueSummary_dict s), w')
        /\ raw_text s = text)
  /\ (exists r w', query_endpoint text w = (Returned r, w')
        /\ match result r with
           | inl _ => tool (decision r) = py "qa"
           | inr _ => tool (decision r) = py "issue_summary"
           end).
Proof.
  split; [|split].
  - destruct (answer_question_returns text w) as (a & w' & Hrun & Hq).
    exists a, w'. unfold qa_endpoint, handler, mbind, M_bind. by rewrite Hrun.
  - destruct (summarize_issue_returns text w) as (s & Hrun & Hraw & _).
    cbv zeta in Hrun. exists s. eexists.
    unfold summarize_endpoint, handler. rewrite lift_bind. cbn [py_prefix].
    unfold mbind, M_bind. by rewrite Hrun.
  - destruct (process_query_returns text w) as (r & w' & Hrun & Hkind).
    exists r, w'. unfold query_endpoint, handler. by rewrite Hrun.
Qed.

(** ** Configuration *)

Lemma getenv_unset (env : gmap pystr pystr) (key dflt : pystr) :
  env !! key = None -> getenv env key dflt = dflt.
Proof. unfold getenv. by intros ->. Qed.

(** X27. The model name of the configuration is never empty. In an
    environment that sets none of the OpenRouter variables, the API base
    is the OpenRouter URL and the model the Gemini default, whatever
    [OPENAI_API_BASE] and [OPENAI_MODEL] say, while the key is
    [OPENAI_API_KEY]; the OpenAI base is read only when
    [OPENROUTER_API_BASE] is set to the empty string. *)
Theorem config_api_selection (env : gmap pystr pystr) :
  MODEL (load_config env) <> []
  /\ (env !! py "OPENROUTER_API_BASE" = None ->
      env !! py "OPENROUTER_MODEL_NAME" = None ->
      env !! py "OPENROUTER_API_KEY" = None ->
      API_BASE (load_config env) = py "https://openrouter.ai/api/v1"
      /\ API_KEY (load_config env) = getenv env (py "OPENAI_API_KEY") []
      /\ MODEL (load_config env) = py "google/gemini-2.5-flash")
  /\ (env !! py "OPENROUTER_API_BASE" = Some ([] : pystr) ->
      API_BASE (load_config env) = getenv env (py "OPENAI_API_BASE") []).
Proof.
  assert (py "google/gemini-2.5-flash" <> []) as Hgemini by (vm_compute; discriminate).
  assert (py "https://openrouter.ai/api/v1" <> []) as Hurl by (vm_compute; discriminate).
  split; [|split].
  - unfold MODEL, load_config. cbn [OPENROUTER_MODEL_NAME OPENAI_MODEL].
    destruct (getenv env (py "OPENROUTER_MODEL_NAME") _) as [|c m]; [|discriminate].
    destruct (getenv env (py "OPENAI_MODEL") _) as [|c m]; [exact Hgemini|discriminate].
  - intros Hbase Hmodel Hkey. unfold API_BASE, API_KEY, MODEL, load_config.
    cbn [OPENROUTER_API_BASE OPENROUTER_MODEL_NAME OPENROUTER_API_KEY OPENAI_API_KEY].
    rewrite (getenv_unset env (py "OPENROUTER_API_BASE") _ Hbase).
    rewrite (getenv_unset env (py "OPENROUTER_API_KEY") _ Hkey).
    rewrite (getenv_unset env (py "OPENROUTER_MODEL_NAME") _ Hmodel).
    split; [|split].
    + destruct (py "https://openrouter.ai/api/v1"); [destruct Hurl|]; reflexivity.
    + reflexivity.
    + destruct (py "google/gemini-2.5-flash"); [destruct Hgemini|]; reflexivity.
  - intros Hbase. unfold API_BASE, load_config. cbn [OPENROUTER_API_BASE OPENAI_API_BASE].
    unfold getenv. rewrite Hbase. reflexivity.
Qed.

Lemma config_api_selection_witness :
  API_BASE (load_config openai_only) = py "https://openrouter.ai/api/v1"
  /\ API_KEY (load_config openai_only) = getenv openai_only (py "OPENAI_API_KEY") []
  /\ MODEL (load_config openai_only) = py "google/gemini-2.5-flash".
Proof.
  apply (proj1 (proj2 (config_api_selection openai_only))); vm_compute; reflexivity.
Defined.

(** ** The confidence, to two decimals *)

Lemma clamp_round_grid (x : float) :
  PrimFloat.is_nan x = false ->
  (exists k, 10 <= k <= 100
             /\ py_round2 (py_min (py_max x 0.1) 1) = SF2Prim (centi false k))
  /\ (PrimFloat.ltb x 0.1 = true -> py_round2 (py_min (py_max x 0.1) 1) = 0.1%float)
  /\ (PrimFloat.ltb 1 x = true -> py_round2 (py_min (py_max x 0.1) 1) = 1%float).
Proof.
  intros Hnan. unfold py_max.
  destruct (PrimFloat.ltb x 0.1) eqn:Hlo.
  { assert (py_round2 (py_min 0.1 1) = 0.1%float) as E by (vm_compute; reflexivity).
    split; [|split].
    - exists 10. split; [lia|]. vm_compute. reflexivity.
    - done.
    - intros Hhi. exfalso. revert Hlo Hhi.
      rewrite !FloatAxioms.ltb_spec.
      assert (Prim2SF 0.1 = S754_finite false 7205759403792794 (-56)) as ->
        by (vm_compute; reflexivity).
      assert (Prim2SF 1 = S754_finite false 4503599627370496 (-52)) as ->
        by (vm_compute; reflexivity).
      destruct (Prim2SF x) as [s|s| |s m e]; try destruct s; try done.
      unfold SFltb, SFcompare.
      destruct (Z.compare_spec e (-56)), (Z.compare_spec (-52) e); try done; lia. }
  unfold py_min. destruct (PrimFloat.ltb 1 x) eqn:Hhi.
  { split; [|split]; [|done|by intros _; vm_compute].
    exists 100. split; [lia|]. vm_compute. reflexivity. }
  split; [|split; done].
  destruct (unit_range_mantissa x Hnan Hlo Hhi) as (m & e & Ha & He & Hm & H56 & H52).
  unfold py_round2. rewrite Ha. destruct (Z.leb_spec 0 e); [lia|].
  eexists. split; [|reflexivity]. by apply round_half_even_unit_range.
Qed.

(** X28. The confidence of a non-empty list of hits whose scaled mean
    similarity is a number is a whole number of hundredths between 10 and
    100 (as the nearest float); it is [0.1] whenever the scaled mean is
    below [0.1] and [1.0] whenever it is above [1.0]. *)
Theorem calculate_confidence_two_decimals {backend : Backend}
    (hits : list VectorDB.SearchResult) :
  hits <> [] ->
  PrimFloat.is_nan (py_sum (VectorDB.similarity <$> hits)
                    / float_of_len (length hits) * 1.2)%float = false ->
  (exists k, 10 <= k <= 100 /\ _calculate_confidence hits = SF2Prim (centi false k))
  /\ (PrimFloat.ltb (py_sum (VectorDB.similarity <$> hits)
                     / float_of_len (length hits) * 1.2)%float 0.1 = true ->
      _calculate_confidence hits = 0.1%float)
  /\ (PrimFloat.ltb 1 (py_sum (VectorDB.similarity <$> hits)
                       / float_of_len (length hits) * 1.2)%float = true ->
      _calculate_confidence hits = 1%float).
Proof.
  intros Hhits Hnan.
  assert (_calculate_confidence hits
          = py_round2 (py_min (py_max
              (py_sum (VectorDB.similarity <$> hits) / float_of_len (length hits) * 1.2)%float
              0.1%float) 1%float)) as ->.
  { destruct hits as [|h hits]; [done|].
    unfold _calculate_confidence. cbv zeta. by rewrite length_fmap. }
  by apply clamp_round_grid.
Qed.

Lemma calculate_confidence_two_decimals_witness :
  (exists k, 10 <= k <= 100
     /\ _calculate_confidence (backend := scripted [] [])
          [with_similarity 0.3; with_similarity 0.4; with_similarity 0.35]
        = SF2Prim (centi false k))
  /\ _calculate_confidence (backend := scripted [] [])
       [with_similarity 0.3; with_similarity 0.4; with_similarity 0.35] = 0.42%float.
Proof.
  split; [|vm_compute; reflexivity].
  apply (calculate_confidence_two_decimals (backend := scripted [] [])
           [with_similarity 0.3; with_similarity 0.4; with_similarity 0.35]).
  - discriminate.
  - vm_compute. reflexivity.
Defined.

(** ** The language-model client *)

(** X29. A client without an API key or without an API base sends no
    request: [generate_structured_response] returns [None] for every
    call, which is what the tools take for a failed model call. This is
    the client of an environment that sets neither [OPENROUTER_API_KEY]
    nor [OPENAI_API_KEY]. *)
Theorem unconfigured_client_sends_nothing {transport : LLM.Transport}
    (env : gmap pystr pystr) (TEMPERATURE : float) (MAX_TOKENS : Z)
    (messages : list (gmap pystr pystr)) (temperature : option float)
    (max_tokens : option Z) (model : option pystr) (sent : list LLM.Request) :
  getenv env (py "OPENROUTER_API_KEY") [] = [] ->
  getenv env (py "OPENAI_API_KEY") [] = [] ->
  LLM.chat_completion (LLM.new_Client (load_config env) TEMPERATURE MAX_TOKENS)
    messages temperature max_tokens model true sent = (None, sent)
  /\ LLM.generate_structured_response
       (LLM.new_Client (load_config env) TEMPERATURE MAX_TOKENS)
       messages temperature max_tokens model sent = (Ok PNone, sent).
Proof.
  intros Hrouter Hopenai.
  assert (LLM.chat_completion (LLM.new_Client (load_config env) TEMPERATURE MAX_TOKENS)
            messages temperature max_tokens model true sent = (None, sent)) as Hchat.
  { unfold LLM.chat_completion, LLM.new_Client. cbn [LLM.api_base LLM.api_key].
    unfold API_KEY, load_config. cbn [OPENROUTER_API_KEY OPENAI_API_KEY].
    rewrite Hrouter, Hopenai. by destruct (API_BASE _). }
  split; [exact Hchat|].
  unfold LLM.generate_structured_response. by rewrite Hchat.
Qed.

Lemma unconfigured_client_sends_nothing_witness :
  LLM.chat_completion (transport := canned PNone)
    (LLM.new_Client (load_config ∅) 0.2 800) [user_message (py "Hello")] None None None
    true [] = (None, [])
  /\ LLM.generate_structured_response (transport := canned PNone)
       (LLM.new_Client (load_config ∅) 0.2 800) [user_message (py "Hello")] None None None
       [] = (Ok PNone, []).
Proof.
  apply (unconfigured_client_sends_nothing (transport := canned PNone) ∅); reflexivity.
Defined.

(** The client does not catch everything: [json.loads] raises
    [TypeError] on a content that is not a string, and
    [parse_json_response] handles [JSONDecodeError] only. *)
Example client_raises_on_content_parts :
  (LLM.generate_structured_response (transport := canned content_parts_body)
     (LLM.new_Client (load_config openai_only) 0.2 800)
     [user_message (py "Hello")] None None None []).1
  = Raise TypeError.
Proof. vm_compute. reflexivity. Qed.

Lemma startswith_app_l (p a b : pystr) :
  (length p <= length a)%nat -> startswith p (a ++ b) = startswith p a.
Proof.
  revert a. induction p as [|c p IH]; intros a Hlen; [done|].
  destruct a as [|d a]; [simpl in Hlen; lia|].
  simpl. rewrite IH by (simpl in Hlen; lia). done.
Qed.

(** What [strip] leaves of a text that ends with a stripped word still
    ends with it. *)
Lemma strip_keeps_end (a word : pystr) :
  word <> [] -> stripped word -> exists p, strip (a ++ word) = p ++ word.
Proof.
  intros Hne [Hl Hr]. unfold strip.
  assert (exists p, lstrip (a ++ word) = p ++ word) as [p ->].
  { induction a as [|c a [p IH]]; simpl.
    - exists []. by rewrite Hl.
    - destruct (isspace c); [by exists p|]. by exists (c :: a). }
  exists p. by apply rstrip_app.
Qed.

Lemma json_instruction_not_recognised (content : pystr) :
  LLM.endswith (py "Return JSON only.") (strip (content ++ LLM.JSON_INSTRUCTION)) = false.
Proof.
  unfold LLM.JSON_INSTRUCTION. rewrite !app_assoc.
  destruct (strip_keeps_end (content ++ blank_line)
              (py "IMPORTANT: Return your response as a valid JSON object only."))
    as [p ->].
  - vm_compute. discriminate.
  - split; vm_compute; reflexivity.
  - unfold LLM.endswith. rewrite reverse_app, startswith_app_l.
    + vm_compute. reflexivity.
    + vm_compute. lia.
Qed.

Lemma with_json_instruction_again (messages : list (gmap pystr pystr))
    (message : gmap pystr pystr) (content : pystr) :
  message !! py "content" = Some (content ++ LLM.JSON_INSTRUCTION : pystr) ->
  LLM.with_json_instruction (messages ++ [message])
  = Some (messages
          ++ [<[py "content" := (content ++ LLM.JSON_INSTRUCTION) ++ LLM.JSON_INSTRUCTION]>
                message]).
Proof.
  intros Hc. unfold LLM.with_json_instruction.
  rewrite last_snoc, Hc, json_instruction_not_recognised, removelast_last. done.
Qed.

(** X30. On OpenRouter the JSON instruction is added on every call, even
    to a last message that already carries it, because the test for a
    message that asks for JSON looks for another sentence: the request
    sent then holds the instruction twice, and no [response_format]. *)
Theorem json_instruction_accumulates {transport : LLM.Transport} (self : LLM.Client)
    (messages : list (gmap pystr pystr)) (message : gmap pystr pystr) (content : pystr)
    (temperature : option float) (max_tokens : option Z) (model : option pystr)
    (sent : list LLM.Request) :
  LLM.api_base self <> [] -> LLM.api_key self <> [] ->
  contains (py "openrouter.ai") (LLM.lower (LLM.api_base self)) = true ->
  message !! py "content" = Some (content ++ LLM.JSON_INSTRUCTION : pystr) ->
  exists request,
    (LLM.chat_completion self (messages ++ [message]) temperature max_tokens model true sent).2
    = sent ++ [request]
    /\ LLM.payload_messages (LLM.json request)
       = messages
         ++ [<[py "content" := (content ++ LLM.JSON_INSTRUCTION) ++ LLM.JSON_INSTRUCTION]>
               message]
    /\ LLM.payload_response_format (LLM.json request) = None.
Proof.
  intros Hbase Hkey Hrouter Hc. unfold LLM.chat_completion.
  destruct (LLM.api_base self) as [|b base] eqn:Eb; [done|].
  destruct (LLM.api_key self) as [|k key] eqn:Ek; [done|].
  cbv zeta. rewrite Hrouter, (with_json_instruction_again messages message content Hc).
  destruct (LLM.post sent _); eexists; (split; [reflexivity|]); done.
Qed.

Lemma json_instruction_accumulates_witness :
  exists request,
    (LLM.chat_completion (transport := canned PNone)
       {| LLM.api_base := py "https://OpenRouter.ai/api/v1/"; LLM.api_key := py "sk-test";
          LLM.model := py "google/gemini-2.5-flash"; LLM.headers := ∅;
          LLM.temperature := 0.2; LLM.max_tokens := 800 |}
       ([] ++ [user_message (py "Hi" ++ LLM.JSON_INSTRUCTION)]) None None None true []).2
    = [] ++ [request]
    /\ LLM.payload_messages (LLM.json request)
       = [] ++ [<[py "content" := (py "Hi" ++ LLM.JSON_INSTRUCTION) ++ LLM.JSON_INSTRUCTION]>
                 (user_message (py "Hi" ++ LLM.JSON_INSTRUCTION))]
    /\ LLM.payload_response_format (LLM.json request) = None.
Proof.
  apply (json_instruction_accumulates (transport := canned PNone)).
  - discriminate.
  - discriminate.
  - vm_compute. reflexivity.
  - unfold user_message. rewrite lookup_insert_ne by (vm_compute; discriminate).
    by rewrite lookup_singleton_eq.
Defined.
